(** * EasyCode: the Plan / Execute / Verify / Reflect core

    A shallow embedding of the safety layer of the repository:

    - [backend/app/services/diff_engine.py]  (module [DiffEngine])
    - [backend/app/services/executor.py]     (module [Executor])
    - [backend/app/services/verifier.py]     (module [Verifier])
    - [backend/app/services/llm_service.py]  (module [RateLimiter])
    - [backend/app/core/engine.py]           (module [CoreEngine])
    - [backend/app/services/planner.py]      (module [Planner], the validator
      of a step's action)

    Conventions of the embedding.

    - A Python [str] is a Rocq [string] holding its UTF-8 encoding, so
      [len(s.encode("utf-8"))] is [String.length] and [len(s)] counts the
      bytes that do not continue a code point ([py_len]).
    - The workspace is the finite map of its regular files, keyed by the
      workspace-relative path; the backup directory is a second map keyed by
      the backup path.  Paths name files, never directories, and a file
      holds bytes: [read_bytes] and [shutil.copy2] see them as they are,
      [write_text] stores the UTF-8 of the text (on a POSIX system, where a
      line break is written as it is), and [read_text] decodes them and
      translates the line ends.
    - The operating system may refuse to make the directory of a path, to
      write it or to remove it; the paths it refuses are part of the state of
      the world, and a call on one of them raises [OSError] before anything
      is written.
    - Python integers are [Z].
    - Mutated objects are passed and returned explicitly.
    - A function that may raise returns an [outcome]. *)

From Stdlib Require Import ZArith String Ascii.
From stdpp Require Import gmap strings list fin_maps pretty sorting.

Local Open Scope Z_scope.

(** ** Python runtime pieces shared by all modules *)

(** The functions of Python's standard library that the code calls and whose
    internals play no role here. *)
Class PyLib := {
  (** [hashlib.sha256(data).hexdigest()] *)
  sha256_hexdigest : string -> string;
  (** [hashlib.md5(data).hexdigest()] *)
  md5_hexdigest : string -> string;
  (** [datetime.strftime("%Y%m%dT%H%M%S%f")] of a clock reading *)
  strftime_compact : nat -> string;
  (** [str.splitlines(keepends)] *)
  splitlines : bool -> string -> list string;
  (** [list(difflib.unified_diff(a, b, fromfile, tofile, lineterm=""))] *)
  unified_diff_lines : list string -> list string -> string -> string -> list string;
  (** [data.decode("utf-8", errors="replace")] for bytes that are not
      well-formed UTF-8, as the UTF-8 of the text it returns *)
  decode_replace : string -> string;
  (** [str(exc)] of the [UnicodeDecodeError] that [data.decode("utf-8")]
      raises for such bytes *)
  decode_error : string -> string;
}.

Inductive outcome (E A : Type) : Type :=
| Ok (a : A)
| Raise (e : E).
Arguments Ok {E A} a.
Arguments Raise {E A} e.

(** Truthiness of an optional string: [None] and [""] are falsy. *)
Definition truthy (o : option string) : bool :=
  match o with
  | Some s => negb (String.eqb s "")
  | None => false
  end.

(** [o or ""] *)
Definition or_empty (o : option string) : string := default ""%string o.

Definition newline : string := String (ascii_of_nat 10) EmptyString.

(** [sep.join(parts)] *)
Fixpoint join (sep : string) (parts : list string) : string :=
  match parts with
  | [] => ""
  | [p] => p
  | p :: rest => p +:+ sep +:+ join sep rest
  end.

(** [s.startswith(p)] *)
Definition startswith (s p : string) : bool := String.prefix p s.

(** [len(s)] on text: the bytes that are not UTF-8 continuation bytes. *)
Fixpoint py_len (s : string) : Z :=
  match s with
  | EmptyString => 0
  | String c rest =>
      let n := Z.of_nat (nat_of_ascii c) in
      (if (128 <=? n) && (n <? 192) then 0 else 1) + py_len rest
  end.

(** [len(s.encode("utf-8"))] *)
Definition byte_len (s : string) : Z := Z.of_nat (String.length s).

(** ** Reading a file as text *)

Definition carriage_return : ascii := ascii_of_nat 13.
Definition line_feed : ascii := ascii_of_nat 10.

(** The line ends as a file opened for reading in text mode hands them on:
    a carriage return, with the line feed that follows it if there is one,
    becomes a line feed. *)
Fixpoint universal_newlines (s : string) : string :=
  match s with
  | EmptyString => EmptyString
  | String c rest =>
      if Ascii.eqb c carriage_return then
        match rest with
        | String c' rest' =>
            if Ascii.eqb c' line_feed then String line_feed (universal_newlines rest')
            else String line_feed (universal_newlines rest)
        | EmptyString => String line_feed EmptyString
        end
      else String c (universal_newlines rest)
  end.

(** The bytes that may follow a lead byte of UTF-8, as ranges, one per
    continuation byte (the table of well-formed byte sequences); [None] for
    a byte that begins no sequence. *)
Definition utf8_lead (c : ascii) : option (list (nat * nat)) :=
  let n := nat_of_ascii c in
  if (n <=? 127)%nat then Some []
  else if (n <? 194)%nat then None
  else if (n <=? 223)%nat then Some [(128, 191)%nat]
  else if (n =? 224)%nat then Some [(160, 191)%nat; (128, 191)%nat]
  else if (n =? 237)%nat then Some [(128, 159)%nat; (128, 191)%nat]
  else if (n <=? 239)%nat then Some [(128, 191)%nat; (128, 191)%nat]
  else if (n =? 240)%nat then Some [(144, 191)%nat; (128, 191)%nat; (128, 191)%nat]
  else if (n <=? 243)%nat then Some [(128, 191)%nat; (128, 191)%nat; (128, 191)%nat]
  else if (n =? 244)%nat then Some [(128, 143)%nat; (128, 191)%nat; (128, 191)%nat]
  else None.

(** [pending] holds the ranges of the continuation bytes still to come. *)
Fixpoint utf8_scan (pending : list (nat * nat)) (s : string) : bool :=
  match s with
  | EmptyString => match pending with [] => true | _ :: _ => false end
  | String c rest =>
      match pending with
      | (lo, hi) :: more =>
          ((lo <=? nat_of_ascii c)%nat && (nat_of_ascii c <=? hi)%nat) && utf8_scan more rest
      | [] =>
          match utf8_lead c with
          | Some more => utf8_scan more rest
          | None => false
          end
      end
  end.

(** The bytes are well-formed UTF-8: [data.decode("utf-8")] does not raise. *)
Definition utf8_valid (data : string) : bool := utf8_scan [] data.

Section TextFiles.
Context {lib : PyLib}.

(** [path.read_text(encoding="utf-8", errors="replace")] of a file that holds
    [data]: well-formed bytes are the UTF-8 of the text they decode to. *)
Definition read_text_replace (data : string) : string :=
  universal_newlines (if utf8_valid data then data else decode_replace data).

(** [path.read_text(encoding="utf-8")] of a file that holds [data]; what it
    raises is given by its message. *)
Definition read_text_strict (data : string) : outcome string string :=
  if utf8_valid data then Ok (universal_newlines data) else Raise (decode_error data).

End TextFiles.

(** ** The Mutation Engine: [diff_engine.py] *)
Module DiffEngine.

Inductive DiffOperation := CREATE | MODIFY | DELETE.

#[global] Instance DiffOperation_eq_dec : EqDecision DiffOperation.
Proof. solve_decision. Defined.

(** [operation.value] *)
Definition op_value (op : DiffOperation) : string :=
  match op with CREATE => "create" | MODIFY => "modify" | DELETE => "delete" end.

(** The dict [{"additions": a, "deletions": d}]. *)
Record LineChanges := { additions : Z; deletions : Z }.

Record FileDiff := {
  operation : DiffOperation;
  file_path : string;
  original_content : option string;
  new_content : option string;
  unified_diff : option string;
  line_changes : LineChanges;
  applied : bool;
  backup_path : option string;
  checksum_before : option string;
  checksum_after : option string;
  applied_at : option nat;
}.

(** [FileDiff(operation=..., file_path=..., ...)] with the dataclass defaults
    for the fields that are not given. *)
Definition FileDiff_new (op : DiffOperation) (fp : string)
    (orig new unified : option string) : FileDiff :=
  {| operation := op; file_path := fp; original_content := orig;
     new_content := new; unified_diff := unified;
     line_changes := {| additions := 0; deletions := 0 |};
     applied := false; backup_path := None;
     checksum_before := None; checksum_after := None; applied_at := None |}.

(** The validation messages, one constructor per f-string of [validate_diff]. *)
Inductive warning :=
| W_create_exists (fp : string)                 (* "CREATE: file already exists ..." *)
| W_not_found (op : DiffOperation) (fp : string) (* "MODIFY: file not found ..." *)
| W_integrity (fp : string)                     (* "INTEGRITY: ... was modified since ..." *)
| W_size (fp : string)                          (* "SIZE: ... exceeds 5 MB limit" *)
| W_large_change (total_lines : Z) (fp : string). (* "Large change: ... lines modified ..." *)

#[global] Instance warning_eq_dec : EqDecision warning.
Proof. solve_decision. Defined.

(** What [apply_diff] raises: [ValueError(f"Invalid diff for {fp}: {warnings}")]
    for a diff that is rejected, and the [OSError] of a file operation that
    the operating system refuses. *)
Inductive exn :=
| ValueError (fp : string) (warnings : list warning)
| OSError (fp : string).

(** An entry [{"index": idx, "file": fp, "error": str(exc)}]. *)
Record ApplyError := { err_index : nat; err_file : string; err_error : exn }.

Record ApplyResult := {
  total : Z;
  ar_applied : Z;
  failed : Z;
  skipped : Z;
  errors : list ApplyError;
}.

(** [ApplyResult.success] *)
Definition ApplyResult_success (r : ApplyResult) : bool := failed r =? 0.

Record RollbackResult := {
  rb_total : Z;
  rolled_back : Z;
  rb_failed : Z;
}.

Definition RollbackResult_success (r : RollbackResult) : bool := rb_failed r =? 0.

Definition _MAX_FILE_SIZE_BYTES : Z := 5 * 1024 * 1024.
Definition _LARGE_DIFF_LINES : Z := 500.

(** The engine object: its constructor arguments. *)
Record Engine := {
  workspace_root : string;
  backup_retention_days : Z;
}.

(** What the engine acts on: the files of the workspace, the files of the
    backup directory, the clock ([datetime.now]), which moves on at every
    reading, and the paths on which the operating system refuses [mkdir] of
    the parent, [write_text], [copy2] and [unlink]. *)
Record World := {
  files : gmap string string;
  backups : gmap string string;
  clock : nat;
  refused : gset string;
}.

Definition set_files (w : World) (f : gmap string string) : World :=
  {| files := f; backups := backups w; clock := clock w; refused := refused w |}.

(** [full_path.exists()] *)
Definition exists_ (w : World) (fp : string) : bool := bool_decide (is_Some (files w !! fp)).

(** [full_path.write_text(content)] *)
Definition write_text (w : World) (fp content : string) : World :=
  set_files w (<[fp := content]> (files w)).

(** [full_path.unlink()] on an existing file *)
Definition unlink (w : World) (fp : string) : World :=
  set_files w (delete fp (files w)).

(** A file operation on [fp] that leaves the world [done]: it raises when the
    operating system refuses the path. *)
Definition checked (w : World) (fp : string) (done : World) : outcome exn World :=
  if bool_decide (fp ∈ refused w) then Raise (OSError fp) else Ok done.

(** [datetime.now(timezone.utc)] *)
Definition now (w : World) : nat * World :=
  (clock w,
   {| files := files w; backups := backups w; clock := S (clock w); refused := refused w |}).

Section WithPyLib.
Context {lib : PyLib}.

(** [Path.name] of a canonical relative path: what follows the last slash. *)
Fixpoint path_name_aux (acc s : string) : string :=
  match s with
  | EmptyString => acc
  | String c rest =>
      if Ascii.eqb c "/" then path_name_aux "" rest
      else path_name_aux (acc +:+ String c "") rest
  end.
Definition path_name (p : string) : string := path_name_aux "" p.

(** [_sha] of [create_diff] *)
Definition _sha (text : option string) : option string :=
  if truthy text then Some (sha256_hexdigest (or_empty text)) else None.

(** The counting loop of [create_diff] over the unified diff. *)
Definition count_additions (diff_lines : list string) : Z :=
  Z.of_nat (List.length (filter (fun l => startswith l "+" && negb (startswith l "+++") = true) diff_lines)).

Definition count_deletions (diff_lines : list string) : Z :=
  Z.of_nat (List.length (filter (fun l =>
     negb (startswith l "+" && negb (startswith l "+++"))
     && (startswith l "-" && negb (startswith l "---")) = true) diff_lines)).

(** [DiffEngine.create_diff] *)
Definition create_diff (w : World) (fp : string) (new : option string)
    (op : DiffOperation) (orig : option string) : FileDiff :=
  (* Resolve original content *)
  let '(op, orig) :=
    match op, orig with
    | MODIFY, None =>
        match files w !! fp with
        | Some data => (MODIFY, Some (read_text_replace data))
        | None => (CREATE, None)
        end
    | _, _ => (op, orig)
    end in
  (* Generate unified diff *)
  let '(unified, adds, dels) :=
    match op with
    | MODIFY | DELETE =>
        let orig_lines := splitlines true (or_empty orig) in
        let new_lines := splitlines true (or_empty new) in
        let diff_lines := unified_diff_lines orig_lines new_lines ("a/" +:+ fp) ("b/" +:+ fp) in
        (match diff_lines with [] => None | _ => Some (join newline diff_lines) end,
         count_additions diff_lines, count_deletions diff_lines)
    | CREATE =>
        (None, Z.of_nat (List.length (splitlines false (or_empty new))), 0)
    end in
  {| operation := op; file_path := fp; original_content := orig;
     new_content := new; unified_diff := unified;
     line_changes := {| additions := adds; deletions := dels |};
     applied := false; backup_path := None;
     checksum_before := _sha orig; checksum_after := _sha new;
     applied_at := None |}.

(** [DiffEngine.validate_diff] *)
Definition validate_diff (w : World) (diff : FileDiff) : bool * list warning :=
  let fp := file_path diff in
  let existence_failure :=
    match operation diff with
    | CREATE => if exists_ w fp then Some (W_create_exists fp) else None
    | MODIFY | DELETE =>
        if exists_ w fp then None else Some (W_not_found (operation diff) fp)
    end in
  match existence_failure with
  | Some msg => (false, [msg])
  | None =>
      (* Content integrity check (if we have original) *)
      let warnings :=
        match operation diff, files w !! fp with
        | MODIFY, Some on_disk =>
            if truthy (checksum_before diff)
               && negb (String.eqb (sha256_hexdigest on_disk) (or_empty (checksum_before diff)))
            then [W_integrity fp] else []
        | _, _ => []
        end in
      (* Size guard *)
      let content := or_empty (new_content diff) in
      if _MAX_FILE_SIZE_BYTES <? byte_len content then
        (false, warnings ++ [W_size fp])
      else
        (* Large change warning *)
        let total_lines := additions (line_changes diff) + deletions (line_changes diff) in
        if _LARGE_DIFF_LINES <? total_lines then
          (true, warnings ++ [W_large_change total_lines fp])
        else (true, warnings)
  end.

(** [self.workspace_root / file_path] and [self.backup_dir], as strings. *)
Definition full_path (e : Engine) (fp : string) : string := workspace_root e +:+ "/" +:+ fp.
Definition backup_dir (e : Engine) : string := workspace_root e +:+ "/.project_core_backups".

(** [DiffEngine._create_backup]: the copy is filed under the backup path. *)
Definition _create_backup (e : Engine) (w : World) (fp : string) : option string * World :=
  match files w !! fp with
  | None => (None, w)
  | Some content =>
      let '(t, w) := now w in
      let ts := strftime_compact t in
      let stem_hash := substring 0 6 (md5_hexdigest (full_path e fp)) in
      let backup_name := path_name fp +:+ "." +:+ ts +:+ "." +:+ stem_hash +:+ ".bak" in
      let bp := backup_dir e +:+ "/" +:+ backup_name in
      (Some bp,
       {| files := files w; backups := <[bp := content]> (backups w); clock := clock w;
          refused := refused w |})
  end.

(** [DiffEngine._restore_backup]: [mkdir] of the parent and [copy2] when the
    backup is there. *)
Definition _restore_backup (w : World) (fp bp : string) : outcome exn World :=
  match backups w !! bp with
  | Some content => checked w fp (write_text w fp content)
  | None => Ok w (* logger.warning("Backup not found") *)
  end.

Definition set_backup_path (d : FileDiff) (bp : option string) : FileDiff :=
  {| operation := operation d; file_path := file_path d;
     original_content := original_content d; new_content := new_content d;
     unified_diff := unified_diff d; line_changes := line_changes d;
     applied := applied d; backup_path := bp;
     checksum_before := checksum_before d; checksum_after := checksum_after d;
     applied_at := applied_at d |}.

Definition set_applied (d : FileDiff) (a : bool) (at_ : option nat) : FileDiff :=
  {| operation := operation d; file_path := file_path d;
     original_content := original_content d; new_content := new_content d;
     unified_diff := unified_diff d; line_changes := line_changes d;
     applied := a; backup_path := backup_path d;
     checksum_before := checksum_before d; checksum_after := checksum_after d;
     applied_at := at_ |}.

(** [DiffEngine.apply_diff]: the world and the diff after the call, and what
    the call returned or raised. *)
Definition apply_diff (e : Engine) (w : World) (diff : FileDiff) (dry_run : bool)
    : World * FileDiff * outcome exn bool :=
  let '(valid, warnings) := validate_diff w diff in
  if negb valid then (w, diff, Raise (ValueError (file_path diff) warnings))
  else if dry_run then (w, diff, Ok true)
  else
    let fp := file_path diff in
    (* full_path.parent.mkdir(parents=True, exist_ok=True) *)
    match checked w fp w with
    | Raise exc => (w, diff, Raise exc)
    | Ok w =>
        (* Backup before destructive ops *)
        let '(diff, w) :=
          match operation diff with
          | MODIFY | DELETE =>
              let '(bp, w) := _create_backup e w fp in (set_backup_path diff bp, w)
          | CREATE => (diff, w)
          end in
        (* the path is one the operating system accepts *)
        let w :=
          match operation diff with
          | CREATE | MODIFY => write_text w fp (or_empty (new_content diff))
          | DELETE => unlink w fp
          end in
        let '(t, w) := now w in
        (w, set_applied diff true (Some t), Ok true)
    end.

(** [DiffEngine.rollback_diff]; [finish] is the end of the [try] body and its
    [except] clause, for what the file operation of the branch came to. *)
Definition rollback_diff (w : World) (diff : FileDiff) : World * FileDiff * bool :=
  if negb (applied diff) then (w, diff, true)
  else
    let fp := file_path diff in
    let finish (attempt : outcome exn World) :=
      match attempt with
      | Ok w' => (w', set_applied diff false (applied_at diff), true)
      | Raise _ => (w, diff, false) (* except Exception: return False *)
      end in
    match operation diff with
    | CREATE => finish (if exists_ w fp then checked w fp (unlink w fp) else Ok w)
    | MODIFY | DELETE =>
        if truthy (backup_path diff) then
          finish (_restore_backup w fp (or_empty (backup_path diff)))
        else
          (* No backup: reconstruct from original_content *)
          match original_content diff with
          | Some original => finish (checked w fp (write_text w fp original))
          | None => (w, diff, false)
          end
    end.

(** The loop of [rollback_diffs] over [reversed(diffs)]; the diffs come back
    in the order they were visited. *)
Fixpoint rollback_loop (w : World) (reversed : list FileDiff) (rolled failed_ : Z)
    : World * list FileDiff * Z * Z :=
  match reversed with
  | [] => (w, [], rolled, failed_)
  | diff :: rest =>
      let '(w, diff, ok) := rollback_diff w diff in
      let '(w, rest, rolled, failed_) :=
        rollback_loop w rest (if ok then rolled + 1 else rolled)
                             (if ok then failed_ else failed_ + 1) in
      (w, diff :: rest, rolled, failed_)
  end.

(** [DiffEngine.rollback_diffs] *)
Definition rollback_diffs (w : World) (diffs : list FileDiff)
    : World * list FileDiff * RollbackResult :=
  let '(w, visited, rolled, failed_) := rollback_loop w (rev diffs) 0 0 in
  (w, rev visited,
   {| rb_total := Z.of_nat (List.length diffs); rolled_back := rolled; rb_failed := failed_ |}).

(** The diffs of [applied_so_far] are the very objects of the batch: after a
    rollback the batch shows them as rolled back.  [seen] pairs every visited
    diff with whether it was appended to [applied_so_far]. *)
Fixpoint write_back (seen : list (FileDiff * bool)) (rolled : list FileDiff) : list FileDiff :=
  match seen with
  | [] => []
  | (d, true) :: s =>
      match rolled with
      | r :: rs => r :: write_back s rs
      | [] => d :: write_back s []
      end
  | (d, false) :: s => d :: write_back s rolled
  end.

Definition applied_so_far (seen : list (FileDiff * bool)) : list FileDiff :=
  map fst (filter (fun p => snd p = true) seen).

(** The [for idx, diff in enumerate(diffs)] loop of [apply_diffs]. *)
Fixpoint apply_loop (e : Engine) (dry_run stop_on_error : bool) (w : World) (idx : nat)
    (seen : list (FileDiff * bool)) (todo : list FileDiff) (result : ApplyResult)
    : World * list FileDiff * ApplyResult :=
  match todo with
  | [] => (w, map fst seen, result)
  | diff :: rest =>
      match apply_diff e w diff dry_run with
      | (w, diff, Ok _) =>
          apply_loop e dry_run stop_on_error w (S idx) (seen ++ [(diff, true)]) rest
            {| total := total result; ar_applied := ar_applied result + 1;
               failed := failed result; skipped := skipped result; errors := errors result |}
      | (w, diff, Raise exc) =>
          let result :=
            {| total := total result; ar_applied := ar_applied result;
               failed := failed result + 1; skipped := skipped result;
               errors := errors result ++
                 [{| err_index := idx; err_file := file_path diff; err_error := exc |}] |} in
          if stop_on_error then
            let '(w, rolled, rb) := rollback_diffs w (applied_so_far seen) in
            (w, write_back seen rolled ++ diff :: rest,
             {| total := total result; ar_applied := ar_applied result - rolled_back rb;
                failed := failed result; skipped := skipped result; errors := errors result |})
          else
            apply_loop e dry_run stop_on_error w (S idx) (seen ++ [(diff, false)]) rest result
      end
  end.

(** [DiffEngine.apply_diffs] *)
Definition apply_diffs (e : Engine) (w : World) (diffs : list FileDiff)
    (dry_run stop_on_error : bool) : World * list FileDiff * ApplyResult :=
  apply_loop e dry_run stop_on_error w 0%nat [] diffs
    {| total := Z.of_nat (List.length diffs); ar_applied := 0; failed := 0; skipped := 0;
       errors := [] |}.

End WithPyLib.
End DiffEngine.

(** ** String helpers of the executor and the verifier *)

(** [s.lower()], on the ASCII letters (no other character lowers to a letter
    of the strings the code compares with). *)
Definition lower_ascii (c : ascii) : ascii :=
  let n := nat_of_ascii c in
  if ((65 <=? n) && (n <=? 90))%nat then ascii_of_nat (n + 32) else c.

Fixpoint lower (s : string) : string :=
  match s with
  | EmptyString => EmptyString
  | String c rest => String (lower_ascii c) (lower rest)
  end.

(** [s.endswith(p)] *)
Definition endswith (s p : string) : bool :=
  ((String.length p <=? String.length s)%nat)
  && String.eqb (substring (String.length s - String.length p) (String.length p) s) p.

(** [p in s] *)
Fixpoint contains (s p : string) : bool :=
  String.prefix p s ||
  match s with
  | EmptyString => false
  | String _ rest => contains rest p
  end.

(** [s.rfind(c)] from position [i] on, [last] being the match found so far. *)
Fixpoint rfind_from (c : ascii) (s : string) (i : nat) (last : option nat) : option nat :=
  match s with
  | EmptyString => last
  | String x rest => rfind_from c rest (S i) (if Ascii.eqb x c then Some i else last)
  end.

(** [Path(p).suffix]: [name[i:]] when [0 < i < len(name) - 1] for
    [i = name.rfind(".")], else the empty string. *)
Definition path_suffix (p : string) : string :=
  let name := DiffEngine.path_name p in
  match rfind_from "." name 0%nat None with
  | Some i =>
      if ((0 <? i) && (i <? String.length name - 1))%nat
      then substring i (String.length name - i) name else ""
  | None => ""
  end.

(** The first [n] characters of a text, [s[:n]]. *)
Fixpoint take_chars (n : nat) (s : string) : string :=
  match s with
  | EmptyString => EmptyString
  | String c rest =>
      let k := nat_of_ascii c in
      if ((128 <=? k) && (k <? 192))%nat then String c (take_chars n rest)
      else match n with
           | O => EmptyString
           | S n' => String c (take_chars n' rest)
           end
  end.

(** ** The entities of [models/database.py] that the core reads *)
Module Database.

Inductive ActionStatus :=
| PENDING | PLANNING | EXECUTING | VERIFYING | COMPLETED | FAILED | CANCELLED | ROLLED_BACK.

(** A row of the table [diffs]: what the entity store recorded for an action. *)
Record Diff := {
  row_file_path : string;
  row_operation : string;
  row_original_content : option string;
  row_new_content : option string;
  row_unified_diff : string;
  row_applied : bool;
  row_rolled_back : bool;
}.

End Database.

(** ** The plan schema of [planner.py] *)
Module Planner.


End Planner.

(** ** The Execution Engine: [executor.py] *)
Module Executor.
Import DiffEngine.

Definition EXTENSION_TO_LANGUAGE : list (string * string) :=
  [ (".py", "python"); (".js", "javascript"); (".jsx", "javascript");
    (".ts", "typescript"); (".tsx", "typescript"); (".sql", "sql");
    (".sh", "shell"); (".bash", "shell"); (".yaml", "yaml"); (".yml", "yaml");
    (".json", "json"); (".md", "markdown"); (".html", "html"); (".css", "css");
    (".scss", "css"); (".toml", "toml"); (".env", "env") ]%string.

(** [d.get(key, default)] on a dict given as its items. *)
Fixpoint dict_get (d : list (string * string)) (key default : string) : string :=
  match d with
  | [] => default
  | (k, v) :: rest => if String.eqb k key then v else dict_get rest key default
  end.

(** [CodeExecutor._detect_language] *)
Definition _detect_language (fp : string) : string :=
  dict_get EXTENSION_TO_LANGUAGE (lower (path_suffix fp)) "unknown".

(** A step of the plan, a dict read with [step.get]: a key that is absent is
    [None]. *)
Record PlanStep := {
  step_action : option string;
  step_file_path : option string;
  step_code_intent : option string;
  step_description : option string;
  step_dependencies : list string;
}.

Record Plan := {
  plan_summary : option string;
  plan_steps : list PlanStep;
  plan_requires_approval : bool;
}.

(** What the [try] body of [_generate_new_file] and [_generate_modification]
    comes to, [self._extract_code(await self.llm.generate(...), language)]:
    the code extracted from the answer of the generation service, or the
    exception the call raised (a rate-limit error included). *)
Inductive generation :=
| GenCode (code : string)
| GenRaises (exc : string).

(** The characters the string notation cannot spell. *)
Definition dq : string := String (ascii_of_nat 34) EmptyString.
Definition em_dash : string :=
  String (ascii_of_nat 226) (String (ascii_of_nat 128) (String (ascii_of_nat 148) EmptyString)).
(** The two characters backslash and n, as the f-strings of [_stub] write them. *)
Definition bsn : string := "\n".

(** [CodeExecutor._stub] *)
Definition _stub (fp language intent : string) : string :=
  let name := path_name fp in
  if String.eqb language "python" then
    dq +:+ dq +:+ dq +:+ bsn +:+ name +:+ bsn +:+ bsn +:+ intent +:+ bsn
       +:+ dq +:+ dq +:+ dq +:+ bsn
       +:+ "from __future__ import annotations" +:+ bsn +:+ bsn
       +:+ "# TODO: implement" +:+ bsn
  else if String.eqb language "typescript" || String.eqb language "javascript" then
    "/**" +:+ bsn +:+ " * " +:+ name +:+ bsn +:+ " * " +:+ intent +:+ bsn +:+ " */"
       +:+ bsn +:+ bsn +:+ "// TODO: implement" +:+ bsn
  else if String.eqb language "sql" then
    "-- " +:+ name +:+ bsn +:+ "-- " +:+ intent +:+ bsn +:+ bsn +:+ "-- TODO: implement" +:+ bsn
  else if String.eqb language "shell" then
    "#!/usr/bin/env bash" +:+ bsn +:+ "# " +:+ name +:+ " " +:+ em_dash +:+ " " +:+ intent
       +:+ bsn +:+ "set -euo pipefail" +:+ bsn +:+ bsn +:+ "# TODO: implement" +:+ bsn
  else "# " +:+ intent +:+ bsn +:+ "# TODO: implement" +:+ bsn.

(** [original + f"\n\n# TODO: {code_intent}\n"] *)
Definition with_todo (original intent : string) : string :=
  original +:+ newline +:+ newline +:+ "# TODO: " +:+ intent +:+ newline.

(** [CodeExecutor._generate_new_file] *)
Definition _generate_new_file (fp intent language : string) (gen : generation) : string :=
  match gen with
  | GenCode code => code
  | GenRaises _ => _stub fp language intent
  end.

(** [CodeExecutor._generate_modification] *)
Definition _generate_modification (original intent : string) (gen : generation) : string :=
  match gen with
  | GenCode code =>
      (* Sanity: if output is suspiciously short, keep original + TODO *)
      if (py_len code <? 20) && (50 <? py_len original) then with_todo original intent
      else code
  | GenRaises _ => with_todo original intent
  end.

(** The dict a step returns. *)
Inductive step_result :=
| StepOk (diff : FileDiff) (fp action : string)
| StepFailed (error : string).

Record Results := {
  files_created : list string;
  files_modified : list string;
  files_deleted : list string;
  files_generated : Z;
  diffs : list FileDiff;
  res_errors : list string;
  success : bool;
  res_dry_run : bool;
}.

(** What [execute_plan] and [rollback_action] raise. *)
Inductive exn :=
| TypeError (msg : string)
| ValueError (msg : string).

(** [str(exc)] *)
Definition exn_str (exc : exn) : string :=
  match exc with TypeError msg | ValueError msg => msg end.

(** [obj[key]] on an instance of a [@dataclass] such as [ApplyResult] or
    [RollbackResult]: the class defines no [__getitem__], so the subscription
    raises [TypeError]. *)
Definition dataclass_getitem {A : Type} (cls : string) (obj : A) (key : string)
    : outcome exn Z :=
  Raise (TypeError ("'" +:+ cls +:+ "' object is not subscriptable")).

Section WithPyLib.
Context {lib : PyLib}.

(** [full_path.read_text(encoding="utf-8") if full_path.exists() else ""] *)
Definition read_original (w : World) (fp : string) : outcome string string :=
  match files w !! fp with
  | Some data => read_text_strict data
  | None => Ok ""%string
  end.

(** [CodeExecutor._execute_step_inner] (and [_execute_step], which only adds
    the semaphore).  The call of the [try] body that raises is the read of
    the file to modify. *)
Definition _execute_step (w : World) (step : PlanStep) (gen : generation) : step_result :=
  let action := default "modify"%string (step_action step) in
  let fp := or_empty (step_file_path step) in
  let code_intent := or_empty (step_code_intent step) in
  if String.eqb fp "" then StepFailed "No file_path specified in step"
  else
    let language := _detect_language fp in
    if String.eqb action "create" then
      let code := _generate_new_file fp code_intent language gen in
      StepOk (create_diff w fp (Some code) CREATE None) fp "create"
    else if String.eqb action "modify" then
      match read_original w fp with
      | Raise err => StepFailed err (* except Exception as exc: str(exc) *)
      | Ok original =>
          let modified := _generate_modification original code_intent gen in
          StepOk (create_diff w fp (Some modified) MODIFY (Some original)) fp "modify"
      end
    else if String.eqb action "delete" then
      StepOk (create_diff w fp (Some ""%string) DELETE None) fp "delete"
    else StepFailed ("Unknown action: " +:+ action).

(** [CodeExecutor._partition_steps]; every step carries what the generation
    service answers to its call. *)
Fixpoint partition_loop (seen_files : gset string) (steps : list (PlanStep * generation))
    : list (PlanStep * generation) * list (PlanStep * generation) :=
  match steps with
  | [] => ([], [])
  | (step, gen) :: rest =>
      let deps := step_dependencies step in
      let fp := or_empty (step_file_path step) in
      let seen' := if String.eqb fp "" then seen_files else {[ fp ]} ∪ seen_files in
      let '(independent, dependent) := partition_loop seen' rest in
      if bool_decide (deps = []) && bool_decide (fp ∉ seen_files)
         && bool_decide (step_action step = Some "create"%string)
      then ((step, gen) :: independent, dependent)
      else (independent, (step, gen) :: dependent)
  end.

Definition _partition_steps (steps : list (PlanStep * generation)) :=
  partition_loop ∅ steps.

(** One turn of the loop of [CodeExecutor._merge_results]. *)
Definition merge_one (results : Results) (step : PlanStep) (sr : step_result) : Results :=
  match sr with
  | StepOk diff _ _ =>
      let action := default "modify"%string (step_action step) in
      let fp := or_empty (step_file_path step) in
      {| files_created :=
           if String.eqb action "create" then files_created results ++ [fp]
           else files_created results;
         files_modified :=
           if negb (String.eqb action "create") && String.eqb action "modify"
           then files_modified results ++ [fp] else files_modified results;
         files_deleted :=
           if negb (String.eqb action "create") && negb (String.eqb action "modify")
              && String.eqb action "delete"
           then files_deleted results ++ [fp] else files_deleted results;
         files_generated := files_generated results + 1;
         diffs := diffs results ++ [diff];
         res_errors := res_errors results;
         success := success results;
         res_dry_run := res_dry_run results |}
  | StepFailed error =>
      {| files_created := files_created results;
         files_modified := files_modified results;
         files_deleted := files_deleted results;
         files_generated := files_generated results;
         diffs := diffs results;
         res_errors := res_errors results ++ [error];
         success := false;
         res_dry_run := res_dry_run results |}
  end.

(** [CodeExecutor._merge_results] over the steps and their results. *)
Definition _merge_results (results : Results) (runs : list (PlanStep * step_result)) : Results :=
  fold_left (fun r run => merge_one r (fst run) (snd run)) runs results.

Definition run_steps (w : World) (steps : list (PlanStep * generation))
    : list (PlanStep * step_result) :=
  map (fun sg => (fst sg, _execute_step w (fst sg) (snd sg))) steps.

(** The steps of [execute_plan] up to the batch apply: the independent steps
    (gathered, results in order), then the dependent ones one by one.  No step
    writes to the workspace. *)
Definition collect (w : World) (steps : list (PlanStep * generation)) (dry_run : bool) : Results :=
  let results :=
    {| files_created := []; files_modified := []; files_deleted := [];
       files_generated := 0; diffs := []; res_errors := []; success := true;
       res_dry_run := dry_run |} in
  let '(independent, dependent) := _partition_steps steps in
  let results := _merge_results results (run_steps w independent) in
  _merge_results results (run_steps w dependent).

(** [CodeExecutor.execute_plan]; [llm i] is what the generation service
    answers for the [i]-th step of the plan. *)
Definition execute_plan (e : Engine) (llm : nat -> generation) (w : World) (plan : Plan)
    (dry_run : bool) : World * outcome exn Results :=
  let steps := imap (fun i step => (step, llm i)) (plan_steps plan) in
  let results := collect w steps dry_run in
  (* Apply all collected diffs atomically (unless dry-run) *)
  match diffs results with
  | _ :: _ =>
      if negb dry_run then
        let '(w, batch, apply_result) := apply_diffs e w (diffs results) false true in
        match dataclass_getitem "ApplyResult" apply_result "failed" with
        | Raise exc => (w, Raise exc)
        | Ok n_failed =>
            if 0 <? n_failed then
              (w, Ok {| files_created := files_created results;
                        files_modified := files_modified results;
                        files_deleted := files_deleted results;
                        files_generated := files_generated results;
                        diffs := batch;
                        res_errors := res_errors results ++
                          [pretty n_failed +:+ " diff(s) failed to apply; rolled back."];
                        success := false;
                        res_dry_run := res_dry_run results |})
            else
              (w, Ok {| files_created := files_created results;
                        files_modified := files_modified results;
                        files_deleted := files_deleted results;
                        files_generated := files_generated results;
                        diffs := batch;
                        res_errors := res_errors results;
                        success := success results;
                        res_dry_run := res_dry_run results |})
        end
      else (w, Ok results)
  | [] => (w, Ok results)
  end.

(** [DiffOperation(value)] *)
Definition DiffOperation_of (value : string) : outcome exn DiffOperation :=
  if String.eqb value "create" then Ok CREATE
  else if String.eqb value "modify" then Ok MODIFY
  else if String.eqb value "delete" then Ok DELETE
  else Raise (ValueError ("'" +:+ value +:+ "' is not a valid DiffOperation")).

(** The list comprehension of [rollback_action]: a [FileDiff] per recorded
    row, built from five of its columns. *)
Fixpoint file_diffs_of (rows : list Database.Diff) : outcome exn (list FileDiff) :=
  match rows with
  | [] => Ok []
  | d :: rest =>
      match DiffOperation_of (Database.row_operation d) with
      | Raise exc => Raise exc
      | Ok op =>
          match file_diffs_of rest with
          | Raise exc => Raise exc
          | Ok fds =>
              Ok (FileDiff_new op (Database.row_file_path d)
                    (Database.row_original_content d) (Database.row_new_content d)
                    (Some (Database.row_unified_diff d)) :: fds)
          end
      end
  end.

(** [CodeExecutor.rollback_action], given [action.diffs]. *)
Definition rollback_action (w : World) (action_diffs : list Database.Diff)
    : World * outcome exn unit :=
  match action_diffs with
  | [] => (w, Ok tt) (* logger.warning("No diffs found for rollback") *)
  | _ :: _ =>
      match file_diffs_of action_diffs with
      | Raise exc => (w, Raise exc)
      | Ok file_diffs =>
          let '(w, _, result) := rollback_diffs w file_diffs in
          (* the arguments of the closing log call *)
          match dataclass_getitem "RollbackResult" result "rolled_back" with
          | Raise exc => (w, Raise exc)
          | Ok _ =>
              match dataclass_getitem "RollbackResult" result "total" with
              | Raise exc => (w, Raise exc)
              | Ok _ => (w, Ok tt)
              end
          end
      end
  end.

End WithPyLib.
End Executor.

(** ** The Verification Engine: [verifier.py] *)
Module Verifier.
Import DiffEngine.

(** [TestResult]; the field [duration_seconds] is never written and is left out. *)
Record TestResult := {
  tests_run : Z;
  tests_passed : Z;
  tests_failed : Z;
  tests_skipped : Z;
  output : string;
  tr_errors : list string;
  tr_passed : bool;
}.

(** [TestResult()] *)
Definition TestResult_new : TestResult :=
  {| tests_run := 0; tests_passed := 0; tests_failed := 0; tests_skipped := 0;
     output := ""; tr_errors := []; tr_passed := false |}.

Record LintResult := {
  valid : bool;
  lint_errors : list string;
  lint_warnings : list string;
  tool : string;
}.

Record VerificationReport := {
  passed : bool;
  rep_tests_run : Z;
  rep_tests_passed : Z;
  rep_tests_failed : Z;
  rep_tests_skipped : Z;
  test_output : string;
  syntax_valid : bool;
  lint_valid : bool;
  rep_errors : list string;
  rep_warnings : list string;
  coverage_percent : option Z;
  lint_details : list string;
  framework_used : string;
}.

(** The external tools and parsers the verifier calls: each field is what the
    named method returns (or raises) for the given workspace and files. *)
Record Tools := {
  (** [_run_pytest], [_run_npm_test]: they catch every exception *)
  run_pytest : World -> TestResult;
  run_npm_test : World -> TestResult;
  (** ["test" in json.loads(text).get("scripts", {})], [False] when that raises *)
  declares_test_script : string -> bool;
  (** [_parse_coverage] *)
  parse_coverage : string -> option Z;
  (** [_check_python_syntax], [_check_ts_syntax]: they catch every exception *)
  check_python_syntax : string -> string -> list string;
  check_ts_syntax : string -> string -> list string;
  (** [_check_js_syntax], [_check_json_syntax]: they let other exceptions through *)
  check_js_syntax : string -> string -> outcome string (list string);
  check_json_syntax : string -> string -> outcome string (list string);
  (** [_run_ruff], [_run_eslint] *)
  run_ruff : World -> list string -> outcome string LintResult;
  run_eslint : World -> list string -> outcome string LintResult;
}.

(** A name matches the glob [test_*.py]. *)
Definition is_test_module (name : string) : bool :=
  startswith name "test_" && endswith name ".py" && (8 <=? String.length name)%nat.

(** [Verifier._has_pytest] *)
Definition _has_pytest (w : World) : bool :=
  existsb (exists_ w) ["pytest.ini"; "pyproject.toml"; "setup.cfg"; "conftest.py"]%string
  || existsb (fun p => is_test_module (path_name p)) (map fst (map_to_list (files w))).

(** [Verifier._has_npm_test] *)
Definition _has_npm_test (t : Tools) (w : World) : bool :=
  match files w !! "package.json"%string with
  | None => false
  | Some text => declares_test_script t text
  end.

(** [Verifier._check_file_syntax] *)
Definition _check_file_syntax (t : Tools) (w : World) (rel : string)
    : outcome string (list string) :=
  match files w !! rel with
  | None => Ok []
  | Some source =>
      let suffix := lower (path_suffix rel) in
      if String.eqb suffix ".py" then Ok (check_python_syntax t rel source)
      else if String.eqb suffix ".ts" || String.eqb suffix ".tsx" then
        Ok (check_ts_syntax t rel source)
      else if String.eqb suffix ".js" || String.eqb suffix ".jsx" then
        check_js_syntax t rel source
      else if String.eqb suffix ".json" then check_json_syntax t rel source
      else Ok []
  end.

(** [Verifier._check_syntax_parallel]: the results are gathered with
    [return_exceptions=True], an exception counts as an error. *)
Definition _check_syntax_parallel (t : Tools) (w : World) (file_paths : list string)
    : bool * list string :=
  let errors :=
    concat (map (fun fp =>
      match _check_file_syntax t w fp with
      | Raise exc => [exc]
      | Ok errs => errs
      end) file_paths) in
  (bool_decide (errors = []), errors).

(** The merge loop of [_run_linting] over the gathered results. *)
Fixpoint combine_lint (combined : LintResult) (results : list (outcome string LintResult))
    : LintResult :=
  match results with
  | [] => combined
  | Raise _ :: rest => combine_lint combined rest
  | Ok r :: rest =>
      combine_lint
        {| valid := if negb (valid r) then false else valid combined;
           lint_errors := lint_errors combined ++ lint_errors r;
           lint_warnings := lint_warnings combined ++ lint_warnings r;
           tool := tool combined |} rest
  end.

(** [Verifier._run_linting] *)
Definition _run_linting (t : Tools) (w : World) (file_paths : list string) : LintResult :=
  let py_files := filter (fun fp => endswith fp ".py" = true) file_paths in
  let js_files :=
    filter (fun fp => existsb (endswith fp) [".js"; ".jsx"; ".ts"; ".tsx"]%string = true)
      file_paths in
  let tasks :=
    (match py_files with [] => [] | _ => [run_ruff t w py_files] end)
    ++ (match js_files with [] => [] | _ => [run_eslint t w js_files] end) in
  match tasks with
  | [] => {| valid := true; lint_errors := []; lint_warnings := []; tool := "none" |}
  | _ =>
      combine_lint {| valid := true; lint_errors := []; lint_warnings := []; tool := "multi" |}
        tasks
  end.

(** [Verifier.verify_execution], given the [files_created] and
    [files_modified] of the execution result. *)
Definition verify_execution (t : Tools) (w : World) (files_created files_modified : list string)
    : VerificationReport :=
  (* 1 - Run tests *)
  let '(framework, test_result) :=
    if _has_pytest w then ("pytest"%string, run_pytest t w)
    else if _has_npm_test t w then ("npm"%string, run_npm_test t w)
    else (""%string,
          {| tests_run := tests_run TestResult_new; tests_passed := tests_passed TestResult_new;
             tests_failed := tests_failed TestResult_new;
             tests_skipped := tests_skipped TestResult_new;
             output := output TestResult_new; tr_errors := tr_errors TestResult_new;
             tr_passed := true |}) in
  let all_errors := tr_errors test_result in
  (* 2 - Parse coverage from pytest output *)
  let coverage :=
    if String.eqb framework "pytest" then parse_coverage t (output test_result) else None in
  (* 3 - Syntax + lint checks *)
  let changed_files := files_created ++ files_modified in
  let '(syntax_ok, lint_result, all_errors, all_warnings) :=
    match changed_files with
    | _ :: _ =>
        let '(syntax_ok, syntax_errors) := _check_syntax_parallel t w changed_files in
        let lint_result := _run_linting t w changed_files in
        (syntax_ok, lint_result,
         (all_errors ++ (if negb syntax_ok then syntax_errors else []))
           ++ lint_errors lint_result,
         lint_warnings lint_result)
    | [] =>
        (true, {| valid := true; lint_errors := []; lint_warnings := []; tool := "" |},
         all_errors, [])
    end in
  (* 4 - Determine overall pass *)
  let passed :=
    tr_passed test_result && syntax_ok && valid lint_result
    && negb (existsb (fun e => contains (lower e) "syntax error") all_errors) in
  {| passed := passed;
     rep_tests_run := tests_run test_result;
     rep_tests_passed := tests_passed test_result;
     rep_tests_failed := tests_failed test_result;
     rep_tests_skipped := tests_skipped test_result;
     test_output := take_chars (Z.to_nat 8000) (output test_result);
     syntax_valid := syntax_ok;
     lint_valid := valid lint_result;
     rep_errors := take 20 all_errors;
     rep_warnings := take 20 all_warnings;
     coverage_percent := coverage;
     lint_details := take 10 (lint_errors lint_result);
     framework_used := framework |}.

End Verifier.

(** ** The rate limiter of [llm_service.py] *)
Module RateLimiter.

(** [SlidingWindowRateLimiter]; times are microseconds, [period] is seconds. *)
Record Limiter := {
  max_requests : Z;
  period : Z;
  _timestamps : list Z;
}.

(** [SlidingWindowRateLimiter(max_requests, period_seconds)] *)
Definition Limiter_new (max_requests period_seconds : Z) : Limiter :=
  {| max_requests := max_requests; period := period_seconds; _timestamps := [] |}.

Inductive exn :=
| RateLimitError (max_requests period wait_microseconds : Z)
| IndexError.

(** The loop [while self._timestamps and self._timestamps[0] <= cutoff: popleft()]. *)
Fixpoint expire (cutoff : Z) (timestamps : list Z) : list Z :=
  match timestamps with
  | [] => []
  | t :: rest => if t <=? cutoff then expire cutoff rest else timestamps
  end.

(** [SlidingWindowRateLimiter.acquire] at the clock reading [now]. *)
Definition acquire (l : Limiter) (now : Z) : Limiter * outcome exn unit :=
  let cutoff := now - period l * 1000000 in
  (* Expire old entries *)
  let timestamps := expire cutoff (_timestamps l) in
  let l := {| max_requests := max_requests l; period := period l; _timestamps := timestamps |} in
  if max_requests l <=? Z.of_nat (List.length timestamps) then
    match timestamps with
    | oldest :: _ => (l, Raise (RateLimitError (max_requests l) (period l) (oldest - cutoff)))
    | [] => (l, Raise IndexError)
    end
  else
    ({| max_requests := max_requests l; period := period l;
        _timestamps := timestamps ++ [now] |}, Ok tt).

(** The limiter after a sequence of calls made at the given clock readings. *)
Definition after_calls (l : Limiter) (times : list Z) : Limiter :=
  fold_left (fun l t => fst (acquire l t)) times l.

End RateLimiter.

(** ** The orchestrator: [core/engine.py] *)
Module CoreEngine.
Import DiffEngine Database.

Inductive EnginePhase := PH_PLANNING | PH_EXECUTING | PH_VERIFYING | PH_REFLECTING.

(** The reflection dict, read with [reflection.get]. *)
Record Reflection := {
  refl_summary : option string;
  refl_error : option string;
}.

(** The columns and relations of [Action] that the orchestrator reads or writes. *)
Record Action := {
  action_id : Z;
  intent : string;
  plan : option Executor.Plan;
  execution_result : option Executor.Results;
  verification_result : option Verifier.VerificationReport;
  reflection : option string;
  status : ActionStatus;
  requires_approval : bool;
  approved : option bool;
  approved_at : option nat;
  error : option string;
  started_at : option nat;
  completed_at : option nat;
  action_diffs : list Database.Diff;
}.

(** The dict [process_intent] returns; a key that is absent is [None]. *)
Record IntentResult := {
  res_action_id : Z;
  phases_completed : list EnginePhase;
  res_success : bool;
  res_requires_approval : bool;
  res_plan : option Executor.Plan;
  res_execution : option Executor.Results;
  res_verification : option Verifier.VerificationReport;
  res_reflection : option Reflection;
  res_error : option string;
}.

(** The collaborators of one cycle: what the plan generator, the generation
    service, the verification tools and the reflection generator answer. *)
Record Collaborators := {
  planner : outcome string Executor.Plan;
  llm : nat -> Executor.generation;
  tools : Verifier.Tools;
  reflector : outcome string Reflection;
}.

(** The exceptions [process_intent] tells apart. *)
Inductive exn :=
| PlanningError (msg : string)
| ExecutionError (msg : string)
| VerificationError (msg : string).

Definition set_status (a : Action) (st : ActionStatus) : Action :=
  {| action_id := action_id a; intent := intent a; plan := plan a;
     execution_result := execution_result a; verification_result := verification_result a;
     reflection := reflection a; status := st; requires_approval := requires_approval a;
     approved := approved a; approved_at := approved_at a; error := error a;
     started_at := started_at a; completed_at := completed_at a;
     action_diffs := action_diffs a |}.

Definition set_error (a : Action) (msg : string) : Action :=
  {| action_id := action_id a; intent := intent a; plan := plan a;
     execution_result := execution_result a; verification_result := verification_result a;
     reflection := reflection a; status := status a; requires_approval := requires_approval a;
     approved := approved a; approved_at := approved_at a; error := Some msg;
     started_at := started_at a; completed_at := completed_at a;
     action_diffs := action_diffs a |}.

Definition set_times (a : Action) (started completed : option nat) : Action :=
  {| action_id := action_id a; intent := intent a; plan := plan a;
     execution_result := execution_result a; verification_result := verification_result a;
     reflection := reflection a; status := status a; requires_approval := requires_approval a;
     approved := approved a; approved_at := approved_at a; error := error a;
     started_at := started; completed_at := completed;
     action_diffs := action_diffs a |}.

Definition set_plan (a : Action) (p : Executor.Plan) (needs_approval : bool) : Action :=
  {| action_id := action_id a; intent := intent a; plan := Some p;
     execution_result := execution_result a; verification_result := verification_result a;
     reflection := reflection a; status := status a; requires_approval := needs_approval;
     approved := approved a; approved_at := approved_at a; error := error a;
     started_at := started_at a; completed_at := completed_at a;
     action_diffs := action_diffs a |}.

Definition set_payloads (a : Action) (execution : option Executor.Results)
    (verification : option Verifier.VerificationReport) (refl : option string) : Action :=
  {| action_id := action_id a; intent := intent a; plan := plan a;
     execution_result := execution; verification_result := verification;
     reflection := refl; status := status a; requires_approval := requires_approval a;
     approved := approved a; approved_at := approved_at a; error := error a;
     started_at := started_at a; completed_at := completed_at a;
     action_diffs := action_diffs a |}.

(** [result["phases_completed"].append(ph)] *)
Definition add_phase (r : IntentResult) (ph : EnginePhase) : IntentResult :=
  {| res_action_id := res_action_id r; phases_completed := phases_completed r ++ [ph];
     res_success := res_success r; res_requires_approval := res_requires_approval r;
     res_plan := res_plan r; res_execution := res_execution r;
     res_verification := res_verification r; res_reflection := res_reflection r;
     res_error := res_error r |}.

(** [result["success"] = ...], [result["requires_approval"] = ...], [result["error"] = ...] *)
Definition set_flags (r : IntentResult) (ok needs_approval : bool) (err : option string)
    : IntentResult :=
  {| res_action_id := res_action_id r; phases_completed := phases_completed r;
     res_success := ok; res_requires_approval := needs_approval;
     res_plan := res_plan r; res_execution := res_execution r;
     res_verification := res_verification r; res_reflection := res_reflection r;
     res_error := err |}.

(** [result["plan"] = ...] and the like *)
Definition set_phase_payloads (r : IntentResult) (p : option Executor.Plan)
    (execution : option Executor.Results) (verification : option Verifier.VerificationReport)
    (refl : option Reflection) : IntentResult :=
  {| res_action_id := res_action_id r; phases_completed := phases_completed r;
     res_success := res_success r; res_requires_approval := res_requires_approval r;
     res_plan := p; res_execution := execution;
     res_verification := verification; res_reflection := refl;
     res_error := res_error r |}.

Section WithPyLib.
Context {lib : PyLib}.

(** [CoreEngine._plan] *)
Definition _plan (c : Collaborators) (w : World) (a : Action)
    : World * Action * outcome exn Executor.Plan :=
  let a := set_status a PLANNING in
  let '(t, w) := now w in
  let a := set_times a (Some t) (completed_at a) in
  match planner c with
  | Ok p =>
      (w, set_plan a p (if Executor.plan_requires_approval p then true else requires_approval a),
       Ok p)
  | Raise exc => (w, a, Raise (PlanningError ("Planning failed: " +:+ exc)))
  end.

(** [CoreEngine._execute] *)
Definition _execute (e : Engine) (c : Collaborators) (w : World) (a : Action)
    (p : Executor.Plan) : World * Action * outcome exn Executor.Results :=
  let a := set_status a EXECUTING in
  match Executor.execute_plan e (llm c) w p false with
  | (w, Ok result) =>
      (w, set_payloads a (Some result) (verification_result a) (reflection a), Ok result)
  | (w, Raise exc) =>
      (w, a, Raise (ExecutionError ("Execution failed: " +:+ Executor.exn_str exc)))
  end.

(** [CoreEngine._verify] *)
Definition _verify (c : Collaborators) (w : World) (a : Action)
    (execution : Executor.Results) : Action * outcome exn Verifier.VerificationReport :=
  let a := set_status a VERIFYING in
  let result :=
    Verifier.verify_execution (tools c) w
      (Executor.files_created execution) (Executor.files_modified execution) in
  let a := set_payloads a (execution_result a) (Some result) (reflection a) in
  if negb (Verifier.passed result) then
    (a, Raise (VerificationError
                 ("Tests/lint failed: " +:+ join "; " (Verifier.rep_errors result))))
  else (a, Ok result).

(** [CoreEngine._reflect]: a failure of the reflection generator is replaced
    by a fallback payload. *)
Definition _reflect (c : Collaborators) (a : Action) : Action * Reflection :=
  match reflector c with
  | Ok r =>
      (set_payloads a (execution_result a) (verification_result a)
         (Some (or_empty (refl_summary r))), r)
  | Raise exc =>
      (a, {| refl_summary := Some "Reflection failed"%string; refl_error := Some exc |})
  end.

(** [CoreEngine._rollback]: whatever [rollback_action] raises is caught and
    logged. *)
Definition _rollback (w : World) (a : Action) : World :=
  fst (Executor.rollback_action w (action_diffs a)).

(** The [except] clauses of [process_intent]. *)
Definition on_exception (w : World) (a : Action) (result : IntentResult) (exc : exn)
    : World * Action * IntentResult :=
  match exc with
  | VerificationError msg =>
      let w := _rollback w a in
      (w, set_error (set_status a ROLLED_BACK) msg,
       set_flags result (res_success result) (res_requires_approval result) (Some msg))
  | PlanningError msg | ExecutionError msg =>
      (w, set_error (set_status a FAILED) msg,
       set_flags result (res_success result) (res_requires_approval result) (Some msg))
  end.

(** [CoreEngine.process_intent] *)
Definition process_intent (e : Engine) (c : Collaborators) (w : World) (a : Action)
    : World * Action * IntentResult :=
  let result :=
    {| res_action_id := action_id a; phases_completed := []; res_success := false;
       res_requires_approval := false; res_plan := None; res_execution := None;
       res_verification := None; res_reflection := None; res_error := None |} in
  (* PHASE 1: PLAN *)
  match _plan c w a with
  | (w, a, Raise exc) => on_exception w a result exc
  | (w, a, Ok p) =>
      let result :=
        add_phase (set_phase_payloads result (Some p) None None None) PH_PLANNING in
      (* Approval gate *)
      if requires_approval a && negb (default false (approved a)) then
        (w, set_status a PENDING, set_flags result (res_success result) true (res_error result))
      else
        (* PHASE 2: EXECUTE *)
        match _execute e c w a p with
        | (w, a, Raise exc) => on_exception w a result exc
        | (w, a, Ok execution) =>
            let result :=
              add_phase (set_phase_payloads result (Some p) (Some execution) None None)
                PH_EXECUTING in
            (* PHASE 3: VERIFY *)
            match _verify c w a execution with
            | (a, Raise exc) => on_exception w a result exc
            | (a, Ok verification) =>
                let result :=
                  add_phase
                    (set_phase_payloads result (Some p) (Some execution) (Some verification) None)
                    PH_VERIFYING in
                (* PHASE 4: REFLECT *)
                let '(a, r) := _reflect c a in
                let result :=
                  add_phase
                    (set_phase_payloads result (Some p) (Some execution) (Some verification)
                       (Some r))
                    PH_REFLECTING in
                let a := set_status a COMPLETED in
                let '(t, w) := now w in
                (w, set_times a (started_at a) (Some t),
                 set_flags result true (res_requires_approval result) (res_error result))
            end
        end
  end.

End WithPyLib.

Definition set_approval (a : Action) (ok : option bool) (at_ : option nat) : Action :=
  {| action_id := action_id a; intent := intent a; plan := plan a;
     execution_result := execution_result a; verification_result := verification_result a;
     reflection := reflection a; status := status a; requires_approval := requires_approval a;
     approved := ok; approved_at := at_; error := error a;
     started_at := started_at a; completed_at := completed_at a;
     action_diffs := action_diffs a |}.

(** [CoreEngine.approve_action] *)
Definition approve_action (w : World) (a : Action) : World * Action :=
  let '(t, w) := now w in
  (w, set_approval a (Some true) (Some t)).

(** [CoreEngine.reject_action] *)
Definition reject_action (a : Action) : Action :=
  set_status (set_approval a (Some false) (approved_at a)) CANCELLED.

End CoreEngine.

(** * The vocabulary of the statements *)

Section Vocabulary.
Context {lib : PyLib}.
Import DiffEngine.

(** The existence rule of [validate_diff] is met. *)
Definition existence_ok (w : World) (d : FileDiff) : Prop :=
  match operation d with
  | CREATE => exists_ w (file_path d) = false
  | MODIFY | DELETE => exists_ w (file_path d) = true
  end.

(** The stored checksum is set and differs from the one of the file on disk. *)
Definition checksum_mismatch (w : World) (d : FileDiff) : Prop :=
  exists on_disk stored,
    files w !! file_path d = Some on_disk /\ checksum_before d = Some stored /\
    stored <> ""%string /\ sha256_hexdigest on_disk <> stored.

(** The integrity warning of [validate_diff], when there is one. *)
Definition integrity_warnings (w : World) (d : FileDiff) : list warning :=
  match operation d, files w !! file_path d with
  | MODIFY, Some on_disk =>
      if truthy (checksum_before d)
         && negb (String.eqb (sha256_hexdigest on_disk) (or_empty (checksum_before d)))
      then [W_integrity (file_path d)] else []
  | _, _ => []
  end.

(** [apply_diff] on each diff of a list in turn, when every call succeeds. *)
Fixpoint apply_each (e : Engine) (dry_run : bool) (w : World) (diffs : list FileDiff)
    : option (World * list FileDiff) :=
  match diffs with
  | [] => Some (w, [])
  | d :: rest =>
      match apply_diff e w d dry_run with
      | (w1, d1, Ok _) =>
          match apply_each e dry_run w1 rest with
          | Some (w2, rest') => Some (w2, d1 :: rest')
          | None => None
          end
      | (_, _, Raise _) => None
      end
  end.

(** Visited diffs that all went to [applied_so_far]. *)
Definition flag_applied (diffs : list FileDiff) : list (FileDiff * bool) :=
  map (fun d => (d, true)) diffs.

(** The steps of a plan with what the generation service answers to each. *)
Definition plan_runs (llm : nat -> Executor.generation) (plan : Executor.Plan)
    : list (Executor.PlanStep * Executor.generation) :=
  imap (fun i step => (step, llm i)) (Executor.plan_steps plan).

(** A linter run that reported nothing against the files (or did not run). *)
Definition lint_clean (r : outcome string Verifier.LintResult) : Prop :=
  forall res, r = Ok res -> Verifier.valid res = true /\ Verifier.lint_errors res = [].

(** The timestamps recorded within the last [period] seconds before [now]. *)
Definition in_window (l : RateLimiter.Limiter) (now : Z) : list Z :=
  filter (fun t => now - RateLimiter.period l * 1000000 < t) (RateLimiter._timestamps l).

(** The recorded timestamps are in the order of the calls, none after [bound]. *)
Definition recorded_in_order (l : RateLimiter.Limiter) (bound : Z) : Prop :=
  StronglySorted Z.le (RateLimiter._timestamps l)
  /\ Forall (fun t => t <= bound) (RateLimiter._timestamps l).

(** The file a step names, [step.get("file_path", "")]. *)
Definition step_path (run : Executor.PlanStep * Executor.generation) : string :=
  or_empty (Executor.step_file_path (fst run)).

(** The action of a step is one the executor knows. *)
Definition known_action (action : string) : Prop :=
  action = "create"%string \/ action = "modify"%string \/ action = "delete"%string.

(** How often a character occurs in a text. *)
Fixpoint count_char (c : ascii) (s : string) : nat :=
  match s with
  | EmptyString => 0%nat
  | String x rest => ((if Ascii.eqb x c then 1 else 0) + count_char c rest)%nat
  end.

(** The diff as a rollback that succeeds leaves it. *)
Definition unapplied (d : FileDiff) : FileDiff := set_applied d false (applied_at d).


(** The rollback of the diff has a file operation to make. *)
Definition rollback_writes (w : World) (d : FileDiff) : Prop :=
  match operation d with
  | CREATE => exists_ w (file_path d) = true
  | MODIFY | DELETE =>
      if truthy (backup_path d) then is_Some (backups w !! or_empty (backup_path d))
      else is_Some (original_content d)
  end.

(** A cycle with another reflection generator. *)
Definition with_reflector (c : CoreEngine.Collaborators)
    (r : outcome string CoreEngine.Reflection) : CoreEngine.Collaborators :=
  {| CoreEngine.planner := CoreEngine.planner c; CoreEngine.llm := CoreEngine.llm c;
     CoreEngine.tools := CoreEngine.tools c; CoreEngine.reflector := r |}.

End Vocabulary.

(** * Sample inputs

    The library functions, to run the code on examples: SHA-256 as FIPS 180-4
    and MD5 as RFC 1321 define them, and stand-ins for the functions that
    only spell the time stamp of a backup and describe the change (the clock
    reading in decimal, lines cut at the newline character, and a unified
    diff that replaces every line). *)

(** [hashlib.sha256]: the digest of a byte string, in hexadecimal. *)
Module Sha256.
Local Open Scope N_scope.

Definition mask32 : N := 4294967295.
Definition add32 (a b : N) : N := N.land (a + b) mask32.
Definition rotr (x n : N) : N :=
  N.land (N.lor (N.shiftr x n) (N.shiftl x (32 - n))) mask32.
Definition not32 (x : N) : N := N.lxor x mask32.

(** The prime numbers below 312: the first sixty-four. *)
Definition is_prime (n : nat) : bool :=
  forallb (fun d => negb (Nat.eqb (Nat.modulo n d) 0)) (seq 2 (n - 2)).

Definition primes : list N := map N.of_nat (List.filter is_prime (seq 2 310)).

(** The integer cube root, one bit at a time from bit [bits - 1] down. *)
Fixpoint cube_root (bits : nat) (n root : N) : N :=
  match bits with
  | O => root
  | S bits' =>
      let candidate := root + N.shiftl 1 (N.of_nat bits') in
      cube_root bits' n (if candidate * candidate * candidate <=? n then candidate else root)
  end.

(** The round constants: the first 32 bits of the fractional part of the
    cube root of each of the first sixty-four primes. *)
Definition K : list N :=
  Eval vm_compute in map (fun p => N.land (cube_root 36 (N.shiftl p 96) 0) mask32) primes.

(** The initial hash value: the first 32 bits of the fractional part of the
    square root of each of the first eight primes. *)
Definition H0 : list N :=
  Eval vm_compute in
    map (fun p => N.land (N.sqrt (N.shiftl p 64)) mask32) (firstn 8 primes).

Fixpoint bytes_of (s : string) : list N :=
  match s with
  | EmptyString => []
  | String c rest => N_of_ascii c :: bytes_of rest
  end.

(** The message, the byte 0x80, zero bytes up to 56 modulo 64, and the
    length in bits on 8 bytes, big-endian. *)
Definition pad (msg : list N) : list N :=
  let len := N.of_nat (List.length msg) in
  let zeros := N.to_nat ((119 - len mod 64) mod 64) in
  let bits := len * 8 in
  msg ++ [128] ++ repeat 0 zeros
      ++ map (fun i => N.land (N.shiftr bits (8 * (7 - i))) 255) [0; 1; 2; 3; 4; 5; 6; 7].

Fixpoint words_of (bytes : list N) : list N :=
  match bytes with
  | a :: b :: c :: d :: rest =>
      (N.shiftl a 24 + N.shiftl b 16 + N.shiftl c 8 + d) :: words_of rest
  | _ => []
  end.

(** The message schedule, latest word first. *)
Fixpoint schedule (n : nat) (rev_w : list N) : list N :=
  match n with
  | O => rev_w
  | S n' =>
      let w2 := nth 1 rev_w 0 in
      let w7 := nth 6 rev_w 0 in
      let w15 := nth 14 rev_w 0 in
      let w16 := nth 15 rev_w 0 in
      let s0 := N.lxor (N.lxor (rotr w15 7) (rotr w15 18)) (N.shiftr w15 3) in
      let s1 := N.lxor (N.lxor (rotr w2 17) (rotr w2 19)) (N.shiftr w2 10) in
      schedule n' (add32 (add32 (add32 w16 s0) w7) s1 :: rev_w)
  end.

Definition round (st : list N) (kw : N * N) : list N :=
  match st with
  | [a; b; c; d; e; f; g; h] =>
      let '(k, w) := kw in
      let S1 := N.lxor (N.lxor (rotr e 6) (rotr e 11)) (rotr e 25) in
      let ch := N.lxor (N.land e f) (N.land (not32 e) g) in
      let t1 := add32 (add32 (add32 (add32 h S1) ch) k) w in
      let S0 := N.lxor (N.lxor (rotr a 2) (rotr a 13)) (rotr a 22) in
      let maj := N.lxor (N.lxor (N.land a b) (N.land a c)) (N.land b c) in
      let t2 := add32 S0 maj in
      [add32 t1 t2; a; b; c; add32 d t1; e; f; g]
  | _ => st
  end.

Definition compress (h : list N) (block : list N) : list N :=
  let w := rev (schedule 48 (rev block)) in
  let st := fold_left round (combine K w) h in
  map (fun p => add32 (fst p) (snd p)) (combine h st).

Fixpoint blocks (n : nat) (h : list N) (words : list N) : list N :=
  match n with
  | O => h
  | S n' =>
      match words with
      | [] => h
      | _ => blocks n' (compress h (firstn 16 words)) (skipn 16 words)
      end
  end.

Definition hex_digit (n : N) : ascii :=
  if n <? 10 then ascii_of_N (48 + n) else ascii_of_N (87 + n).

Definition hex_word (w : N) : string :=
  fold_right (fun i acc => String (hex_digit (N.land (N.shiftr w (4 * (7 - i))) 15)) acc)
    EmptyString [0; 1; 2; 3; 4; 5; 6; 7].

(** [hashlib.sha256(data).hexdigest()] *)
Definition hexdigest (data : string) : string :=
  let words := words_of (pad (bytes_of data)) in
  fold_right (fun w acc => hex_word w +:+ acc) EmptyString
    (blocks (List.length words) H0 words).

End Sha256.

(** [hashlib.md5]: the digest of a byte string, in hexadecimal. *)
Module Md5.
Local Open Scope N_scope.

Definition mask32 : N := 4294967295.
Definition add32 (a b : N) : N := N.land (a + b) mask32.
Definition rotl (x n : N) : N :=
  N.land (N.lor (N.shiftl x n) (N.shiftr x (32 - n))) mask32.
Definition not32 (x : N) : N := N.lxor x mask32.

(** [floor(2^32 * abs(sin(i + 1)))] for [i] from 0 to 63 *)
Definition K : list N :=
  [ 0xd76aa478; 0xe8c7b756; 0x242070db; 0xc1bdceee; 0xf57c0faf; 0x4787c62a;
    0xa8304613; 0xfd469501; 0x698098d8; 0x8b44f7af; 0xffff5bb1; 0x895cd7be;
    0x6b901122; 0xfd987193; 0xa679438e; 0x49b40821; 0xf61e2562; 0xc040b340;
    0x265e5a51; 0xe9b6c7aa; 0xd62f105d; 0x02441453; 0xd8a1e681; 0xe7d3fbc8;
    0x21e1cde6; 0xc33707d6; 0xf4d50d87; 0x455a14ed; 0xa9e3e905; 0xfcefa3f8;
    0x676f02d9; 0x8d2a4c8a; 0xfffa3942; 0x8771f681; 0x6d9d6122; 0xfde5380c;
    0xa4beea44; 0x4bdecfa9; 0xf6bb4b60; 0xbebfbc70; 0x289b7ec6; 0xeaa127fa;
    0xd4ef3085; 0x04881d05; 0xd9d4d039; 0xe6db99e5; 0x1fa27cf8; 0xc4ac5665;
    0xf4292244; 0x432aff97; 0xab9423a7; 0xfc93a039; 0x655b59c3; 0x8f0ccc92;
    0xffeff47d; 0x85845dd1; 0x6fa87e4f; 0xfe2ce6e0; 0xa3014314; 0x4e0811a1;
    0xf7537e82; 0xbd3af235; 0x2ad7d2bb; 0xeb86d391 ].

(** The shift of every round. *)
Definition shifts : list N :=
  [ 7; 12; 17; 22; 7; 12; 17; 22; 7; 12; 17; 22; 7; 12; 17; 22;
    5; 9; 14; 20; 5; 9; 14; 20; 5; 9; 14; 20; 5; 9; 14; 20;
    4; 11; 16; 23; 4; 11; 16; 23; 4; 11; 16; 23; 4; 11; 16; 23;
    6; 10; 15; 21; 6; 10; 15; 21; 6; 10; 15; 21; 6; 10; 15; 21 ].

Fixpoint bytes_of (s : string) : list N :=
  match s with
  | EmptyString => []
  | String c rest => N_of_ascii c :: bytes_of rest
  end.

(** The message, the byte 0x80, zero bytes up to 56 modulo 64, and the
    length in bits on 8 bytes, little-endian. *)
Definition pad (msg : list N) : list N :=
  let len := N.of_nat (List.length msg) in
  let zeros := N.to_nat ((119 - len mod 64) mod 64) in
  let bits := len * 8 in
  msg ++ [128] ++ repeat 0 zeros
      ++ map (fun i => N.land (N.shiftr bits (8 * i)) 255) [0; 1; 2; 3; 4; 5; 6; 7].

Fixpoint words_of (bytes : list N) : list N :=
  match bytes with
  | a :: b :: c :: d :: rest =>
      (a + N.shiftl b 8 + N.shiftl c 16 + N.shiftl d 24) :: words_of rest
  | _ => []
  end.

Definition round (block : list N) (st : list N) (iks : N * (N * N)) : list N :=
  match st with
  | [a; b; c; d] =>
      let '(i, (k, s)) := iks in
      let '(f, g) :=
        if i <? 16 then (N.lor (N.land b c) (N.land (not32 b) d), i)
        else if i <? 32 then (N.lor (N.land d b) (N.land (not32 d) c), (5 * i + 1) mod 16)
        else if i <? 48 then (N.lxor (N.lxor b c) d, (3 * i + 5) mod 16)
        else (N.lxor c (N.lor b (not32 d)), (7 * i) mod 16) in
      let f := add32 (add32 (add32 f a) k) (nth (N.to_nat g) block 0) in
      [d; add32 b (rotl f s); b; c]
  | _ => st
  end.

Definition compress (h : list N) (block : list N) : list N :=
  let rounds := combine (map N.of_nat (seq 0 64)) (combine K shifts) in
  let st := fold_left (round block) rounds h in
  map (fun p => add32 (fst p) (snd p)) (combine h st).

Fixpoint blocks (n : nat) (h : list N) (words : list N) : list N :=
  match n with
  | O => h
  | S n' =>
      match words with
      | [] => h
      | _ => blocks n' (compress h (firstn 16 words)) (skipn 16 words)
      end
  end.

Definition hex_digit (n : N) : ascii :=
  if n <? 10 then ascii_of_N (48 + n) else ascii_of_N (87 + n).

(** The four bytes of a word, lowest first, two digits each. *)
Definition hex_word (w : N) : string :=
  fold_right (fun i acc =>
      let byte := N.land (N.shiftr w (8 * i)) 255 in
      String (hex_digit (N.shiftr byte 4)) (String (hex_digit (N.land byte 15)) acc))
    EmptyString [0; 1; 2; 3].

(** [hashlib.md5(data).hexdigest()] *)
Definition hexdigest (data : string) : string :=
  let words := words_of (pad (bytes_of data)) in
  fold_right (fun w acc => hex_word w +:+ acc) EmptyString
    (blocks (List.length words) [0x67452301; 0xefcdab89; 0x98badcfe; 0x10325476] words).

End Md5.

Fixpoint lines_from (keepends : bool) (cur s : string) : list string :=
  match s with
  | EmptyString => if String.eqb cur "" then [] else [cur]
  | String c rest =>
      if Ascii.eqb c (ascii_of_nat 10)
      then (if keepends then cur +:+ newline else cur) :: lines_from keepends "" rest
      else lines_from keepends (cur +:+ String c EmptyString) rest
  end.

(** A stand-in for the decoder's error handler: a replacement character for
    every byte that is not ASCII. *)
Fixpoint replace_high_bytes (data : string) : string :=
  match data with
  | EmptyString => EmptyString
  | String c rest =>
      if (nat_of_ascii c <=? 127)%nat then String c (replace_high_bytes rest)
      else String (ascii_of_nat 239) (String (ascii_of_nat 191) (String (ascii_of_nat 189)
             (replace_high_bytes rest)))
  end.

Definition example_lib : PyLib :=
  {| sha256_hexdigest := Sha256.hexdigest;
     md5_hexdigest := Md5.hexdigest;
     strftime_compact := fun t => pretty t;
     splitlines := fun keepends s => lines_from keepends "" s;
     unified_diff_lines := fun a b fromfile tofile =>
       if decide (a = b) then []
       else ["--- " +:+ fromfile; "+++ " +:+ tofile]
            ++ map (String.append "-") a ++ map (String.append "+") b;
     decode_replace := replace_high_bytes;
     decode_error := fun _ => "'utf-8' codec can't decode bytes" |}.

Definition ws : DiffEngine.Engine :=
  {| DiffEngine.workspace_root := "/srv/ws"; DiffEngine.backup_retention_days := 7 |}.

Definition empty_world : DiffEngine.World :=
  {| DiffEngine.files := ∅; DiffEngine.backups := ∅; DiffEngine.clock := 0%nat;
     DiffEngine.refused := ∅ |}.

(** A workspace with [a.py] holding [x = 1]. *)
Definition world_a : DiffEngine.World :=
  {| DiffEngine.files := {[ "a.py"%string := "x = 1"%string ]};
     DiffEngine.backups := ∅; DiffEngine.clock := 0%nat;
     DiffEngine.refused := ∅ |}.

(** A workspace with an empty [a.py]. *)
Definition world_empty_a : DiffEngine.World :=
  {| DiffEngine.files := {[ "a.py"%string := ""%string ]};
     DiffEngine.backups := ∅; DiffEngine.clock := 0%nat;
     DiffEngine.refused := ∅ |}.

(** An applied modify-diff whose backup file is gone. *)
Definition diff_backup_gone : DiffEngine.FileDiff :=
  {| DiffEngine.operation := DiffEngine.MODIFY; DiffEngine.file_path := "a.py";
     DiffEngine.original_content := Some "x = 0"%string;
     DiffEngine.new_content := Some "x = 1"%string;
     DiffEngine.unified_diff := None;
     DiffEngine.line_changes := {| DiffEngine.additions := 1; DiffEngine.deletions := 1 |};
     DiffEngine.applied := true;
     DiffEngine.backup_path := Some "/srv/ws/.project_core_backups/a.py.0.376101.bak"%string;
     DiffEngine.checksum_before := None; DiffEngine.checksum_after := None;
     DiffEngine.applied_at := Some 1%nat |}.

(** The batch of [test_batch_rollback_on_error]. *)
Definition diff_good : DiffEngine.FileDiff :=
  DiffEngine.create_diff (lib := example_lib) empty_world "good.py"
    (Some ("pass" +:+ newline)) DiffEngine.CREATE None.

Definition diff_bad : DiffEngine.FileDiff :=
  {| DiffEngine.operation := DiffEngine.MODIFY; DiffEngine.file_path := "nonexistent.py";
     DiffEngine.original_content := Some "x"%string;
     DiffEngine.new_content := Some "y"%string;
     DiffEngine.unified_diff := None;
     DiffEngine.line_changes := {| DiffEngine.additions := 1; DiffEngine.deletions := 1 |};
     DiffEngine.applied := false; DiffEngine.backup_path := None;
     DiffEngine.checksum_before := None; DiffEngine.checksum_after := None;
     DiffEngine.applied_at := None |}.

(** A plan with one create step, and two generation services: one that
    answers, one that raises. *)
Definition step_hello : Executor.PlanStep :=
  {| Executor.step_action := Some "create"%string;
     Executor.step_file_path := Some "hello.py"%string;
     Executor.step_code_intent := Some "say hello"%string;
     Executor.step_description := None;
     Executor.step_dependencies := [] |}.

Definition plan_hello : Executor.Plan :=
  {| Executor.plan_summary := Some "add a greeting"%string;
     Executor.plan_steps := [step_hello];
     Executor.plan_requires_approval := false |}.

Definition llm_answers : nat -> Executor.generation :=
  fun _ => Executor.GenCode "print('hello')".

Definition llm_down : nat -> Executor.generation :=
  fun _ => Executor.GenRaises "Rate limit reached".

(** The workspace after [diff_good] was applied, and the diff as applied. *)
Definition world_good : DiffEngine.World :=
  fst (fst (DiffEngine.apply_diff (lib := example_lib) ws empty_world diff_good false)).

Definition good_applied : DiffEngine.FileDiff :=
  snd (fst (DiffEngine.apply_diff (lib := example_lib) ws empty_world diff_good false)).

(** A modify-diff built from the file on disk. *)
Definition diff_modify_a : DiffEngine.FileDiff :=
  DiffEngine.create_diff (lib := example_lib) world_a "a.py" (Some "x = 2"%string)
    DiffEngine.MODIFY None.

Definition diff_modify_empty_a : DiffEngine.FileDiff :=
  DiffEngine.create_diff (lib := example_lib) world_empty_a "a.py" (Some "x = 2"%string)
    DiffEngine.MODIFY None.

(** A workspace whose [a.py] ends its line with carriage return and line
    feed, and the modify-diff built from the file. *)
Definition world_crlf : DiffEngine.World :=
  {| DiffEngine.files :=
       {[ "a.py"%string := ("x = 1" +:+ String carriage_return newline)%string ]};
     DiffEngine.backups := ∅; DiffEngine.clock := 0%nat;
     DiffEngine.refused := ∅ |}.

Definition diff_modify_crlf : DiffEngine.FileDiff :=
  DiffEngine.create_diff (lib := example_lib) world_crlf "a.py" (Some "x = 2"%string)
    DiffEngine.MODIFY None.


(** [world_a] on a file system that refuses to touch [a.py]. *)
Definition world_a_locked : DiffEngine.World :=
  {| DiffEngine.files := {[ "a.py"%string := "x = 1"%string ]};
     DiffEngine.backups := ∅; DiffEngine.clock := 0%nat;
     DiffEngine.refused := {[ "a.py"%string ]} |}.

(** A verifier whose test run reports 2 failures out of 5, and one with no
    finding at all. *)
Definition no_findings (name : string) : Verifier.LintResult :=
  {| Verifier.valid := true; Verifier.lint_errors := []; Verifier.lint_warnings := [];
     Verifier.tool := name |}.

Definition tools_two_of_five_fail : Verifier.Tools :=
  {| Verifier.run_pytest := fun _ =>
       {| Verifier.tests_run := 5; Verifier.tests_passed := 3; Verifier.tests_failed := 2;
          Verifier.tests_skipped := 0; Verifier.output := "2 failed, 3 passed";
          Verifier.tr_errors := []; Verifier.tr_passed := false |};
     Verifier.run_npm_test := fun _ => Verifier.TestResult_new;
     Verifier.declares_test_script := fun _ => false;
     Verifier.parse_coverage := fun _ => None;
     Verifier.check_python_syntax := fun _ _ => [];
     Verifier.check_ts_syntax := fun _ _ => [];
     Verifier.check_js_syntax := fun _ _ => Ok [];
     Verifier.check_json_syntax := fun _ _ => Ok [];
     Verifier.run_ruff := fun _ _ => Ok (no_findings "ruff");
     Verifier.run_eslint := fun _ _ => Ok (no_findings "eslint") |}.

(** A workspace with a test configuration, in which [a.py] already holds the
    new content [x = 2] of a modify-diff on record for the action. *)
Definition world_tested : DiffEngine.World :=
  {| DiffEngine.files :=
       {[ "a.py"%string := "x = 2"%string; "conftest.py"%string := ""%string ]};
     DiffEngine.backups := ∅; DiffEngine.clock := 0%nat;
     DiffEngine.refused := ∅ |}.

Definition action_on_record : CoreEngine.Action :=
  {| CoreEngine.action_id := 7; CoreEngine.intent := "tidy up";
     CoreEngine.plan := None; CoreEngine.execution_result := None;
     CoreEngine.verification_result := None; CoreEngine.reflection := None;
     CoreEngine.status := Database.PENDING; CoreEngine.requires_approval := false;
     CoreEngine.approved := None; CoreEngine.approved_at := None;
     CoreEngine.error := None; CoreEngine.started_at := None;
     CoreEngine.completed_at := None;
     CoreEngine.action_diffs :=
       [ {| Database.row_file_path := "a.py"; Database.row_operation := "modify";
            Database.row_original_content := Some "x = 1"%string;
            Database.row_new_content := Some "x = 2"%string;
            Database.row_unified_diff := "-x = 1 +x = 2";
            Database.row_applied := true; Database.row_rolled_back := false |} ] |}.

(** A cycle whose plan has no step. *)
Definition cycle_without_steps : CoreEngine.Collaborators :=
  {| CoreEngine.planner :=
       Ok {| Executor.plan_summary := Some "nothing to change"%string;
             Executor.plan_steps := []; Executor.plan_requires_approval := false |};
     CoreEngine.llm := llm_answers;
     CoreEngine.tools := tools_two_of_five_fail;
     CoreEngine.reflector :=
       Ok {| CoreEngine.refl_summary := Some "done"%string; CoreEngine.refl_error := None |} |}.

(** The verifier's tools when nothing is found, and a workspace without
    any test. *)
Definition tools_quiet : Verifier.Tools :=
  {| Verifier.run_pytest := fun _ => Verifier.TestResult_new;
     Verifier.run_npm_test := fun _ => Verifier.TestResult_new;
     Verifier.declares_test_script := fun _ => false;
     Verifier.parse_coverage := fun _ => None;
     Verifier.check_python_syntax := fun _ _ => [];
     Verifier.check_ts_syntax := fun _ _ => [];
     Verifier.check_js_syntax := fun _ _ => Ok [];
     Verifier.check_json_syntax := fun _ _ => Ok [];
     Verifier.run_ruff := fun _ _ => Ok (no_findings "ruff");
     Verifier.run_eslint := fun _ _ => Ok (no_findings "eslint") |}.

Definition world_app : DiffEngine.World :=
  {| DiffEngine.files :=
       {[ "app.py"%string := "x = 1"%string; "ui/main.ts"%string := "let x = 1"%string ]};
     DiffEngine.backups := ∅; DiffEngine.clock := 0%nat;
     DiffEngine.refused := ∅ |}.

(** A text of [len(s) * 2^k] bytes. *)
Fixpoint doubled (k : nat) (s : string) : string :=
  match k with
  | O => s
  | S k => doubled k s +:+ doubled k s
  end.

(** A delete-diff of [a.py] that carries 8 MiB of new content. *)
Definition diff_oversized : DiffEngine.FileDiff :=
  DiffEngine.FileDiff_new DiffEngine.DELETE "a.py" None (Some (doubled 23 "x")) None.

(** A create-diff for a path that exists. *)
Definition diff_create_a : DiffEngine.FileDiff :=
  DiffEngine.FileDiff_new DiffEngine.CREATE "a.py" None (Some "pass"%string) None.

(** A modify-diff of [a.py] built when the file held [x = 0], changing 501
    lines. *)
Definition diff_stale_large : DiffEngine.FileDiff :=
  {| DiffEngine.operation := DiffEngine.MODIFY; DiffEngine.file_path := "a.py";
     DiffEngine.original_content := Some "x = 0"%string;
     DiffEngine.new_content := Some "x = 2"%string;
     DiffEngine.unified_diff := None;
     DiffEngine.line_changes := {| DiffEngine.additions := 500; DiffEngine.deletions := 1 |};
     DiffEngine.applied := false; DiffEngine.backup_path := None;
     DiffEngine.checksum_before := Some (sha256_hexdigest (PyLib := example_lib) "x = 0");
     DiffEngine.checksum_after := Some (sha256_hexdigest (PyLib := example_lib) "x = 2");
     DiffEngine.applied_at := None |}.

(** A second create-diff for the empty workspace. *)
Definition diff_other : DiffEngine.FileDiff :=
  DiffEngine.create_diff (lib := example_lib) empty_world "util.py"
    (Some ("import os" +:+ newline)) DiffEngine.CREATE None.



(** A cycle whose plan asks for approval. *)
Definition plan_risky : Executor.Plan :=
  {| Executor.plan_summary := Some "drop the legacy module"%string;
     Executor.plan_steps := [step_hello];
     Executor.plan_requires_approval := true |}.

Definition cycle_risky : CoreEngine.Collaborators :=
  {| CoreEngine.planner := Ok plan_risky;
     CoreEngine.llm := llm_answers;
     CoreEngine.tools := tools_quiet;
     CoreEngine.reflector :=
       Ok {| CoreEngine.refl_summary := Some "done"%string; CoreEngine.refl_error := None |} |}.

(** A limiter that recorded two calls, at 0 s and at 1 s. *)
Definition limiter_two_calls : RateLimiter.Limiter :=
  {| RateLimiter.max_requests := 2; RateLimiter.period := 60;
     RateLimiter._timestamps := [0; 1000000] |}.

(** * Properties of the Mutation Engine *)

(** Membership in a list written with [::], [++] and [[]]. *)
Ltac list_mem :=
  solve [ rewrite ?elem_of_app, ?elem_of_cons, ?elem_of_nil in *;
          intuition (try congruence; try discriminate) ].

Section MutationEngine.
Context {lib : PyLib}.
Import DiffEngine.

Lemma truthy_false_iff (o : option string) :
  truthy o = false <-> o = None \/ o = Some ""%string.
Proof.
  destruct o as [s|]; simpl.
  - rewrite negb_false_iff, String.eqb_eq. split; [intros ->; by right | intros [?|[= ->]]; done].
  - split; [by left | done].
Qed.

Lemma exists_true (w : World) fp : exists_ w fp = true <-> is_Some (files w !! fp).
Proof. unfold exists_. apply bool_decide_eq_true. Qed.

Lemma exists_false (w : World) fp : exists_ w fp = false <-> files w !! fp = None.
Proof. unfold exists_. rewrite bool_decide_eq_false. by rewrite eq_None_not_Some. Qed.

Lemma create_diff_fields (w : World) fp new op orig :
  let d := create_diff w fp new op orig in
  file_path d = fp /\ new_content d = new /\ applied d = false /\ backup_path d = None
  /\ checksum_before d = _sha (original_content d)
  /\ checksum_after d = _sha (new_content d).
Proof.
  unfold create_diff.
  destruct op, orig as [o|]; simpl; try destruct (files w !! fp); simpl; done.
Qed.

Lemma validate_diff_existence_ok (w : World) (d : FileDiff) :
  fst (validate_diff w d) = true ->
  match operation d with
  | CREATE => files w !! file_path d = None
  | MODIFY | DELETE => is_Some (files w !! file_path d)
  end.
Proof.
  unfold validate_diff.
  destruct (operation d); destruct (exists_ w (file_path d)) eqn:E; simpl; try done;
    intros _; first [by apply exists_false | by apply exists_true].
Qed.

Lemma validate_diff_existence_ok_eq (w : World) (d : FileDiff) :
  existence_ok w d ->
  validate_diff w d =
    if _MAX_FILE_SIZE_BYTES <? byte_len (or_empty (new_content d)) then
      (false, integrity_warnings w d ++ [W_size (file_path d)])
    else if _LARGE_DIFF_LINES <? additions (line_changes d) + deletions (line_changes d) then
      (true, integrity_warnings w d ++
         [W_large_change (additions (line_changes d) + deletions (line_changes d)) (file_path d)])
    else (true, integrity_warnings w d).
Proof.
  unfold existence_ok, validate_diff, integrity_warnings.
  destruct (operation d); intros ->; reflexivity.
Qed.

Lemma integrity_warnings_elem (w : World) (d : FileDiff) x :
  x ∈ integrity_warnings w d -> x = W_integrity (file_path d).
Proof.
  unfold integrity_warnings.
  destruct (operation d); try list_mem.
  destruct (files w !! file_path d); [|list_mem].
  destruct (_ && _); list_mem.
Qed.

Lemma integrity_warnings_iff (w : World) (d : FileDiff) :
  W_integrity (file_path d) ∈ integrity_warnings w d
  <-> operation d = MODIFY /\ checksum_mismatch w d.
Proof.
  unfold integrity_warnings, checksum_mismatch. split.
  - destruct (operation d); try list_mem.
    destruct (files w !! file_path d) as [on_disk|]; [|list_mem].
    destruct (checksum_before d) as [stored|]; simpl; [|list_mem].
    destruct (String.eqb stored "") eqn:Hempty; simpl; [list_mem|].
    destruct (String.eqb (sha256_hexdigest on_disk) stored) eqn:Heq; simpl; [list_mem|].
    intros _. split; [done|]. exists on_disk, stored.
    apply String.eqb_neq in Hempty, Heq. done.
  - intros (-> & on_disk & stored & -> & -> & Hne & Hdiff). simpl.
    apply String.eqb_neq in Hne, Hdiff. rewrite Hne, Hdiff. simpl. list_mem.
Qed.

Lemma integrity_warnings_no_checksum (w : World) (d : FileDiff) :
  checksum_before d = None -> integrity_warnings w d = [].
Proof.
  intros Hcs. unfold integrity_warnings. rewrite Hcs. simpl.
  destruct (operation d); try done. by destruct (files w !! file_path d).
Qed.

Lemma validate_diff_integrity_from (w : World) (d : FileDiff) :
  W_integrity (file_path d) ∈ snd (validate_diff w d) ->
  W_integrity (file_path d) ∈ integrity_warnings w d.
Proof.
  destruct (exists_ w (file_path d)) eqn:Hex.
  - destruct (decide (operation d = CREATE)) as [Hop|Hop].
    + unfold validate_diff. rewrite Hop, Hex. simpl. list_mem.
    + rewrite validate_diff_existence_ok_eq
        by (unfold existence_ok; by destruct (operation d)).
      destruct (_ <? _); [simpl; list_mem|]. destruct (_ <? _); simpl; list_mem.
  - destruct (decide (operation d = CREATE)) as [Hop|Hop].
    + rewrite validate_diff_existence_ok_eq by (unfold existence_ok; by rewrite Hop).
      destruct (_ <? _); [simpl; list_mem|]. destruct (_ <? _); simpl; list_mem.
    + unfold validate_diff. rewrite Hex. destruct (operation d); simpl; list_mem.
Qed.

(** C7. [validate_diff] answers [is_valid = false] for a create-diff whose
    target exists, for a modify- or delete-diff whose target is absent, and
    for any diff whose new content is longer than 5 MiB, whatever the
    operation.  When the existence rule and the size ceiling are met it
    answers [is_valid = true]: a checksum mismatch and a change of more than
    500 lines each add a warning and nothing else.  It returns a verdict and
    warnings only, and [apply_diff] on a rejected diff raises and leaves the
    world and the diff as they were. *)
Theorem validate_diff_rules (w : World) (d : FileDiff) :
  (operation d = CREATE -> exists_ w (file_path d) = true ->
     validate_diff w d = (false, [W_create_exists (file_path d)])) /\
  (operation d <> CREATE -> exists_ w (file_path d) = false ->
     validate_diff w d = (false, [W_not_found (operation d) (file_path d)])) /\
  (_MAX_FILE_SIZE_BYTES < byte_len (or_empty (new_content d)) ->
     fst (validate_diff w d) = false) /\
  (existence_ok w d -> byte_len (or_empty (new_content d)) <= _MAX_FILE_SIZE_BYTES ->
     fst (validate_diff w d) = true /\
     (W_integrity (file_path d) ∈ snd (validate_diff w d)
        <-> operation d = MODIFY /\ checksum_mismatch w d) /\
     (W_large_change (additions (line_changes d) + deletions (line_changes d)) (file_path d)
        ∈ snd (validate_diff w d)
        <-> _LARGE_DIFF_LINES < additions (line_changes d) + deletions (line_changes d))) /\
  (fst (validate_diff w d) = false ->
     forall e dry_run,
       apply_diff e w d dry_run
       = (w, d, Raise (ValueError (file_path d) (snd (validate_diff w d))))).
Proof.
  split; [|split; [|split; [|split]]].
  - intros Hop Hex. unfold validate_diff. by rewrite Hop, Hex.
  - intros Hop Hex. unfold validate_diff. rewrite Hex. by destruct (operation d).
  - intros Hsize. unfold validate_diff.
    destruct (match operation d with CREATE => _ | _ => _ end); [done|].
    apply Z.ltb_lt in Hsize. by rewrite Hsize.
  - intros Hex Hsize. rewrite (validate_diff_existence_ok_eq w d Hex).
    apply Z.ltb_ge in Hsize. rewrite Hsize.
    pose proof (integrity_warnings_iff w d) as Hint.
    pose proof (integrity_warnings_elem w d) as Helem.
    destruct (_LARGE_DIFF_LINES <? _) eqn:Hlarge; simpl.
    + apply Z.ltb_lt in Hlarge. split; [done|]. split.
      * rewrite <- Hint. clear Hint Helem. list_mem.
      * split; [done|]. intros _. clear. list_mem.
    + apply Z.ltb_ge in Hlarge. split; [done|]. split; [done|].
      split; [|lia]. intros Hin. by specialize (Helem _ Hin).
  - intros Hinvalid e dry_run. unfold apply_diff.
    destruct (validate_diff w d) as [valid warnings]. simpl in *. by rewrite Hinvalid.
Qed.

Lemma sha_None (text : option string) :
  text = None \/ text = Some ""%string -> _sha text = None.
Proof. intros Hempty. unfold _sha. by apply truthy_false_iff in Hempty as ->. Qed.

Lemma sha_Some (s : string) :
  s <> ""%string -> _sha (Some s) = Some (sha256_hexdigest s).
Proof. intros Hne. unfold _sha. simpl. by apply String.eqb_neq in Hne as ->. Qed.

(** C10. The [FileDiff] that [create_diff] returns has [checksum_before]
    ([checksum_after]) [None] whenever its original (new) content is [None]
    or the empty string, and the SHA-256 of that content otherwise; so a
    create-diff over empty content and a modify-diff of an empty file carry
    no checksum.  For any diff whose [checksum_before] is [None],
    [validate_diff] gives no integrity warning and its answer does not depend
    on what the file holds. *)
Theorem create_diff_checksums_only_for_nonempty_content
    (w : World) (fp : string) (new : option string) (op : DiffOperation)
    (orig : option string) :
  let d := create_diff w fp new op orig in
  (original_content d = None \/ original_content d = Some ""%string ->
     checksum_before d = None) /\
  (new_content d = None \/ new_content d = Some ""%string -> checksum_after d = None) /\
  (forall s, original_content d = Some s -> s <> ""%string ->
     checksum_before d = Some (sha256_hexdigest s)) /\
  (forall s, new_content d = Some s -> s <> ""%string ->
     checksum_after d = Some (sha256_hexdigest s)) /\
  (checksum_before (create_diff w fp (Some ""%string) CREATE None) = None /\
   checksum_after (create_diff w fp (Some ""%string) CREATE None) = None) /\
  (files w !! fp = Some ""%string -> checksum_before (create_diff w fp new MODIFY None) = None) /\
  (forall (w' w'' : World) (d' : FileDiff),
     checksum_before d' = None ->
     (W_integrity (file_path d') ∉ snd (validate_diff w' d')) /\
     (exists_ w' (file_path d') = exists_ w'' (file_path d') ->
      validate_diff w' d' = validate_diff w'' d')).
Proof.
  intros d.
  destruct (create_diff_fields w fp new op orig) as (_ & _ & _ & _ & Hcb & Hca).
  fold d in Hcb, Hca.
  split; [|split; [|split; [|split; [|split; [|split]]]]].
  - intros Hempty. rewrite Hcb. by apply sha_None.
  - intros Hempty. rewrite Hca. by apply sha_None.
  - intros s Hs Hne. rewrite Hcb, Hs. by apply sha_Some.
  - intros s Hs Hne. rewrite Hca, Hs. by apply sha_Some.
  - done.
  - intros Hdisk. unfold create_diff. by rewrite Hdisk.
  - intros w' w'' d' Hcs. split.
    + intros Hin%validate_diff_integrity_from.
      rewrite (integrity_warnings_no_checksum _ _ Hcs) in Hin. by apply elem_of_nil in Hin.
    + intros Hex. unfold validate_diff. rewrite Hcs, <- Hex. simpl.
      destruct (operation d'); try done.
      destruct (exists_ w' (file_path d')); [|done].
      by destruct (files w' !! file_path d'), (files w'' !! file_path d').
Qed.

Lemma append_nonempty_r (a b : string) : b <> ""%string -> a +:+ b <> ""%string.
Proof. destruct a; simpl; [done | discriminate]. Qed.

Lemma create_backup_spec (e : Engine) (w : World) fp content :
  files w !! fp = Some content ->
  exists bp, truthy (Some bp) = true /\
    _create_backup e w fp =
      (Some bp, {| files := files w; backups := <[bp := content]> (backups w);
                   clock := S (clock w); refused := refused w |}).
Proof.
  intros Hf. unfold _create_backup. rewrite Hf. simpl.
  eexists. split; [|reflexivity].
  apply negb_true_iff, String.eqb_neq. apply append_nonempty_r. discriminate.
Qed.

(** What a successful [apply_diff] did, by operation. *)
Lemma apply_diff_ok_inv (e : Engine) (w : World) (d : FileDiff) w1 d1 r :
  apply_diff e w d false = (w1, d1, Ok r) ->
  fst (validate_diff w d) = true /\ applied d1 = true /\
  operation d1 = operation d /\ file_path d1 = file_path d /\
  original_content d1 = original_content d /\
  match operation d with
  | CREATE =>
      files w !! file_path d = None /\
      files w1 = <[file_path d := or_empty (new_content d)]> (files w) /\
      backups w1 = backups w /\ backup_path d1 = backup_path d
  | MODIFY =>
      exists old bp, files w !! file_path d = Some old /\
        files w1 = <[file_path d := or_empty (new_content d)]> (files w) /\
        backup_path d1 = Some bp /\ truthy (Some bp) = true /\
        backups w1 = <[bp := old]> (backups w)
  | DELETE =>
      exists old bp, files w !! file_path d = Some old /\
        files w1 = delete (file_path d) (files w) /\
        backup_path d1 = Some bp /\ truthy (Some bp) = true /\
        backups w1 = <[bp := old]> (backups w)
  end.
Proof.
  unfold apply_diff.
  destruct (validate_diff w d) as [valid warnings] eqn:Hv.
  destruct valid; simpl; [|done].
  unfold checked. destruct (bool_decide (file_path d ∈ refused w)); [done|].
  pose proof (validate_diff_existence_ok w d) as Hex. rewrite Hv in Hex.
  specialize (Hex eq_refl).
  destruct (operation d) eqn:Hop.
  - rewrite Hop. simpl. intros [= <- <- _]. simpl. by rewrite Hop.
  - destruct Hex as [old Hold].
    destruct (create_backup_spec e w (file_path d) old Hold) as (bp & Hbp & ->).
    simpl. rewrite Hop. intros [= <- <- _]. simpl. rewrite Hop.
    repeat split; try done. exists old, bp. done.
  - destruct Hex as [old Hold].
    destruct (create_backup_spec e w (file_path d) old Hold) as (bp & Hbp & ->).
    simpl. rewrite Hop. intros [= <- <- _]. simpl. rewrite Hop.
    repeat split; try done. exists old, bp. done.
Qed.

(** A call of [apply_diff] that returns was made on a path the operating
    system accepts, and leaves that to the operating system. *)
Lemma apply_diff_ok_accepted (e : Engine) (w : World) (d : FileDiff) w1 d1 r :
  apply_diff e w d false = (w1, d1, Ok r) ->
  (file_path d ∉ refused w) /\ refused w1 = refused w /\ r = true.
Proof.
  unfold apply_diff.
  destruct (validate_diff w d) as [valid warnings] eqn:Hv.
  destruct valid; simpl; [|done].
  unfold checked. destruct (bool_decide (file_path d ∈ refused w)) eqn:Href; [done|].
  apply bool_decide_eq_false in Href.
  destruct (operation d) eqn:Hop; simpl.
  - rewrite Hop. by intros [= <- _ <-].
  - unfold _create_backup. destruct (files w !! file_path d); simpl; rewrite Hop;
      by intros [= <- _ <-].
  - unfold _create_backup. destruct (files w !! file_path d); simpl; rewrite Hop;
      by intros [= <- _ <-].
Qed.

Lemma restore_backup_present (w : World) fp bp content :
  backups w !! bp = Some content -> fp ∉ refused w ->
  _restore_backup w fp bp = Ok (write_text w fp content).
Proof.
  intros Hb Hok. unfold _restore_backup, checked. rewrite Hb.
  by rewrite bool_decide_eq_false_2.
Qed.

Lemma restore_backup_missing (w : World) fp bp :
  backups w !! bp = None -> _restore_backup w fp bp = Ok w.
Proof. intros Hb. unfold _restore_backup. by rewrite Hb. Qed.

(** [rollback_diff] on an applied modify- or delete-diff, case by case, on a
    path the operating system accepts. *)
Lemma rollback_diff_cases (w : World) (d : FileDiff) :
  applied d = true -> operation d <> CREATE -> file_path d ∉ refused w ->
  (forall bp content, backup_path d = Some bp -> bp <> ""%string ->
     backups w !! bp = Some content ->
     rollback_diff w d = (write_text w (file_path d) content,
                          set_applied d false (applied_at d), true)) /\
  (forall original, truthy (backup_path d) = false -> original_content d = Some original ->
     rollback_diff w d = (write_text w (file_path d) original,
                          set_applied d false (applied_at d), true)) /\
  (truthy (backup_path d) = false -> original_content d = None ->
     rollback_diff w d = (w, d, false)).
Proof.
  intros Ha Hop Hok. unfold rollback_diff. rewrite Ha. simpl.
  split; [|split].
  - intros bp content Hbp Hne Hb. apply String.eqb_neq in Hne.
    rewrite Hbp. simpl. rewrite Hne. simpl.
    rewrite (restore_backup_present _ _ _ _ Hb Hok). by destruct (operation d).
  - intros original -> ->. unfold checked. rewrite bool_decide_eq_false_2 by done.
    by destruct (operation d).
  - intros -> ->. by destruct (operation d).
Qed.

(** C3, on the code.  For an applied modify- or delete-diff that records a
    backup path, [rollback_diff] does not look at the stored original content:
    when the backup file is no longer there it changes no file, marks the
    diff as not applied and returns [True]. *)
Theorem rollback_diff_missing_backup_reports_success
    (w : World) (d : FileDiff) (bp : string) :
  applied d = true ->
  operation d <> CREATE ->
  backup_path d = Some bp ->
  bp <> ""%string ->
  backups w !! bp = None ->
  rollback_diff w d = (w, set_applied d false (applied_at d), true).
Proof.
  intros Ha Hop Hbp Hne Hmiss. unfold rollback_diff. rewrite Ha. simpl.
  assert (truthy (backup_path d) = true) as ->.
  { rewrite Hbp. simpl. by apply negb_true_iff, String.eqb_neq. }
  rewrite Hbp. simpl. rewrite (restore_backup_missing _ _ _ Hmiss).
  by destruct (operation d).
Qed.

Lemma universal_newlines_id (s : string) :
  count_char carriage_return s = 0%nat -> universal_newlines s = s.
Proof.
  induction s as [|c s IH]; simpl; [done|].
  destruct (Ascii.eqb c carriage_return); [done|]. simpl. intros Hs. by rewrite IH.
Qed.

(** Reading as text a file of well-formed UTF-8 without carriage return
    gives its bytes. *)
Lemma read_text_replace_id (data : string) :
  utf8_valid data = true -> count_char carriage_return data = 0%nat ->
  read_text_replace data = data.
Proof.
  intros Hvalid Hcr. unfold read_text_replace. rewrite Hvalid.
  by apply universal_newlines_id.
Qed.

(** The rollback of a diff that was applied, in any later world that still
    holds the files as the apply left them and the backup it made. *)
Lemma rollback_undoes_apply
    (e : Engine) (w : World) (d : FileDiff) (w1 : World) (d1 : FileDiff) (r : bool)
    (wr : World) :
  apply_diff e w d false = (w1, d1, Ok r) ->
  files wr = files w1 -> refused wr = refused w ->
  (forall bp, operation d <> CREATE -> backup_path d1 = Some bp ->
     backups wr !! bp = backups w1 !! bp) ->
  exists w2,
    rollback_diff wr d1 = (w2, unapplied d1, true) /\
    files w2 = files w /\ backups w2 = backups wr /\ refused w2 = refused wr /\
    clock w2 = clock wr.
Proof.
  intros Happ Hfiles Hrefused Hkept.
  destruct (apply_diff_ok_inv _ _ _ _ _ _ Happ) as (_ & Ha1 & Hop1 & Hfp1 & _ & Hcase).
  destruct (apply_diff_ok_accepted _ _ _ _ _ _ Happ) as (Hok & _ & _).
  rewrite <- Hrefused in Hok.
  unfold rollback_diff, unapplied. rewrite Ha1, Hop1, Hfp1. simpl.
  destruct (operation d) eqn:Hop.
  - destruct Hcase as (Hnone & Hf1 & _ & _).
    assert (exists_ wr (file_path d) = true) as ->.
    { apply exists_true. rewrite Hfiles, Hf1, lookup_insert_eq. eauto. }
    unfold checked. rewrite bool_decide_eq_false_2 by done.
    eexists. split; [reflexivity|]. simpl.
    rewrite Hfiles, Hf1. split; [by apply delete_insert_id | done].
  - destruct Hcase as (old & bp & Hold & Hf1 & Hbp1 & Htruthy & Hb1).
    rewrite Hbp1, Htruthy. simpl.
    rewrite (restore_backup_present _ _ _ old)
      by (first [by rewrite (Hkept bp), Hb1, ?lookup_insert_eq | done]).
    eexists. split; [reflexivity|]. simpl.
    rewrite Hfiles, Hf1, insert_insert_eq. split; [by apply insert_id | done].
  - destruct Hcase as (old & bp & Hold & Hf1 & Hbp1 & Htruthy & Hb1).
    rewrite Hbp1, Htruthy. simpl.
    rewrite (restore_backup_present _ _ _ old)
      by (first [by rewrite (Hkept bp), Hb1, ?lookup_insert_eq | done]).
    eexists. split; [reflexivity|]. simpl.
    rewrite Hfiles, Hf1. split; [by apply insert_delete_id | done].
Qed.

(** C5, as amended.  After a diff was applied, rolling it back succeeds and
    leaves the files of the workspace as they were before the apply: for a
    create-diff the target is absent again, for a modify-diff the target
    holds its original bytes again.  The checksum that [create_diff] stores
    for a modify-diff it built from the file is the SHA-256 of the text it
    read, if that is not empty: it is the SHA-256 of the restored bytes when
    reading them as text gives them back (as it does for well-formed UTF-8
    without carriage return) or when the original handed to [create_diff] was
    those bytes. *)
Theorem apply_then_rollback_restores
    (e : Engine) (w : World) (d : FileDiff) (w1 : World) (d1 : FileDiff) :
  apply_diff e w d false = (w1, d1, Ok true) ->
  exists w2 d2,
    rollback_diff w1 d1 = (w2, d2, true) /\
    applied d2 = false /\
    files w2 = files w /\
    (operation d = CREATE -> files w2 !! file_path d = None) /\
    (operation d = MODIFY ->
       exists old, files w !! file_path d = Some old /\
         files w2 !! file_path d = Some old /\
         (forall new, d = create_diff w (file_path d) new MODIFY None ->
            original_content d = Some (read_text_replace old) /\
            checksum_before d = _sha (Some (read_text_replace old))) /\
         (forall new orig, d = create_diff w (file_path d) new MODIFY orig ->
            (orig = None /\ read_text_replace old = old) \/ orig = Some old ->
            old <> ""%string ->
            checksum_before d = Some (sha256_hexdigest old)) /\
         (utf8_valid old = true -> count_char carriage_return old = 0%nat ->
            read_text_replace old = old)).
Proof.
  intros Happ.
  destruct (rollback_undoes_apply e w d w1 d1 true w1 Happ eq_refl) as (w2 & Hrb & Hf2 & _).
  { by destruct (apply_diff_ok_accepted _ _ _ _ _ _ Happ) as (_ & ? & _). }
  { done. }
  destruct (apply_diff_ok_inv _ _ _ _ _ _ Happ) as (_ & _ & _ & _ & _ & Hcase).
  exists w2, (unapplied d1). split; [done|]. split; [done|]. split; [done|].
  split.
  - intros Hop. rewrite Hop in Hcase. destruct Hcase as (Hnone & _). by rewrite Hf2.
  - intros Hop. rewrite Hop in Hcase. destruct Hcase as (old & bp & Hold & _).
    exists old. split; [done|]. split; [by rewrite Hf2|].
    assert (forall new, original_content (create_diff w (file_path d) new MODIFY None)
                        = Some (read_text_replace old)) as Hread.
    { intros new. unfold create_diff. by rewrite Hold. }
    split; [|split].
    + intros new Hd.
      destruct (create_diff_fields w (file_path d) new MODIFY None) as (_ & _ & _ & _ & Hcb & _).
      rewrite <- Hd in Hcb. rewrite Hcb, Hd, Hread. done.
    + intros new orig Hd Horig Hne.
      destruct (create_diff_fields w (file_path d) new MODIFY orig) as (_ & _ & _ & _ & Hcb & _).
      rewrite <- Hd in Hcb. rewrite Hcb.
      assert (original_content d = Some old) as ->.
      { rewrite Hd. destruct Horig as [[-> Hid] | ->]; [by rewrite Hread, Hid | done]. }
      by apply sha_Some.
    + apply read_text_replace_id.
Qed.


Lemma applied_so_far_app (s1 s2 : list (FileDiff * bool)) :
  applied_so_far (s1 ++ s2) = applied_so_far s1 ++ applied_so_far s2.
Proof. unfold applied_so_far. by rewrite filter_app, map_app. Qed.







Lemma apply_loop_prefix (e : Engine) (dry_run stop : bool) (before : list FileDiff) :
  forall w idx seen rest result w1 before1,
    apply_each e dry_run w before = Some (w1, before1) ->
    apply_loop e dry_run stop w idx seen (before ++ rest) result =
    apply_loop e dry_run stop w1 (idx + List.length before)%nat
      (seen ++ flag_applied before1) rest
      {| total := total result;
         ar_applied := ar_applied result + Z.of_nat (List.length before);
         failed := failed result; skipped := skipped result; errors := errors result |}.
Proof.
  induction before as [|d more IH]; intros w idx seen rest result w1 before1; simpl.
  - intros [= <- <-]. rewrite app_nil_r, Nat.add_0_r, Z.add_0_r. by destruct result.
  - destruct (apply_diff e w d dry_run) as [[wa da] [r|exc]]; [|done].
    destruct (apply_each e dry_run wa more) as [[wb moreb]|] eqn:Hmore; [|done].
    intros [= <- <-].
    rewrite (IH _ _ _ _ _ _ _ Hmore). simpl.
    rewrite <- app_assoc. simpl.
    do 2 f_equal; lia.
Qed.







End MutationEngine.

(** * Properties of the Execution Engine *)

Section ExecutionEngine.
Context {lib : PyLib}.
Import DiffEngine Executor.

(** C1, on the code.  When at least one step produced a diff and [dry_run]
    is false, [execute_plan] hands the collected diffs to [apply_diffs] as one
    batch with [stop_on_error=True], and then raises [TypeError] where it
    reads [apply_result["failed"]]: it returns no result, whether the batch
    failed or not, and the world is left as the batch left it. *)
Theorem execute_plan_cannot_read_batch_result
    (e : Engine) (llm : nat -> generation) (w : World) (plan : Plan) :
  diffs (collect w (plan_runs llm plan) false) <> [] ->
  execute_plan e llm w plan false =
    (fst (fst (apply_diffs e w (diffs (collect w (plan_runs llm plan) false)) false true)),
     Raise (TypeError "'ApplyResult' object is not subscriptable")).
Proof.
  intros Hdiffs. unfold execute_plan. fold (plan_runs llm plan).
  destruct (diffs (collect w (plan_runs llm plan) false)) as [|d ds] eqn:Hd; [done|].
  simpl. by destruct (apply_diffs e w (d :: ds) false true) as [[w1 batch] result].
Qed.

Lemma execute_plan_ok_world (e : Engine) (llm : nat -> generation) (w : World) (p : Plan)
    (w1 : World) (r : Results) :
  execute_plan e llm w p false = (w1, Ok r) -> w1 = w /\ diffs r = [].
Proof.
  unfold execute_plan.
  destruct (diffs (collect w _ false)) as [|d ds] eqn:Hd.
  - intros [= <- <-]. done.
  - simpl. by destruct (apply_diffs e w (d :: ds) false true) as [[w2 batch] result].
Qed.

Lemma merge_one_counts (results : Results) (step : PlanStep) (sr : step_result) :
  (List.length (diffs (merge_one results step sr))
   + List.length (res_errors (merge_one results step sr)) =
   S (List.length (diffs results) + List.length (res_errors results)))%nat.
Proof. destruct sr; simpl; rewrite length_app; simpl; lia. Qed.

Lemma merge_results_counts (runs : list (PlanStep * step_result)) :
  forall results,
  (List.length (diffs (_merge_results results runs))
   + List.length (res_errors (_merge_results results runs)) =
   List.length runs + (List.length (diffs results) + List.length (res_errors results)))%nat.
Proof.
  unfold _merge_results.
  induction runs as [|[step sr] rest IH]; intros results; simpl; [done|].
  rewrite IH, merge_one_counts. lia.
Qed.

Lemma partition_loop_length (steps : list (PlanStep * generation)) :
  forall seen,
  (List.length (fst (partition_loop seen steps))
   + List.length (snd (partition_loop seen steps)) = List.length steps)%nat.
Proof.
  induction steps as [|[step gen] rest IH]; intros seen; simpl; [done|].
  specialize (IH (if String.eqb (or_empty (step_file_path step)) ""
                  then seen else {[or_empty (step_file_path step)]} ∪ seen)).
  destruct (partition_loop _ rest) as [ind dep]. simpl in *.
  destruct (_ && _); simpl; lia.
Qed.

(** Every step of the plan is run and leaves a diff or an error. *)
Lemma collect_counts (w : World) (steps : list (PlanStep * generation)) (dry_run : bool) :
  (List.length (diffs (collect w steps dry_run))
   + List.length (res_errors (collect w steps dry_run)) = List.length steps)%nat.
Proof.
  unfold collect, _partition_steps.
  pose proof (partition_loop_length steps ∅) as Hlen.
  destruct (partition_loop ∅ steps) as [ind dep]. simpl in Hlen.
  rewrite !merge_results_counts. unfold run_steps. rewrite !length_map. simpl. lia.
Qed.

(** C6, as amended.  A create or modify step whose generation call raises is
    not marked failed on that account: the step succeeds with a diff whose new
    content is the stub of the file (create) or the original text with a TODO
    line appended (modify), the original text being the empty string for a
    file that does not exist and the decoded text of the file otherwise (a
    modify step whose file is not valid UTF-8 fails at the read, before any
    generation call); merging that result adds the diff to the batch and
    leaves the success flag and the errors as they were; and every step of the
    plan is run, each leaving one diff or one error. *)
Theorem failed_generation_falls_back
    (w : World) (step : PlanStep) (fp : string) (exc : string) :
  step_file_path step = Some fp -> fp <> ""%string ->
  let intent := or_empty (step_code_intent step) in
  (step_action step = Some "create"%string ->
     _execute_step w step (GenRaises exc) =
       StepOk (create_diff w fp (Some (_stub fp (_detect_language fp) intent)) CREATE None)
         fp "create") /\
  ((step_action step = Some "modify"%string \/ step_action step = None) ->
     _execute_step w step (GenRaises exc) =
       match read_original w fp with
       | Ok original =>
           StepOk (create_diff w fp (Some (with_todo original intent)) MODIFY (Some original))
             fp "modify"
       | Raise err => StepFailed err
       end) /\
  read_original w fp =
    match files w !! fp with
    | None => Ok ""%string
    | Some data =>
        if utf8_valid data then Ok (universal_newlines data) else Raise (decode_error data)
    end /\
  (forall results diff fp' action,
     let merged := merge_one results step (StepOk diff fp' action) in
     diffs merged = diffs results ++ [diff] /\
     res_errors merged = res_errors results /\
     success merged = success results) /\
  (forall steps dry_run,
     (List.length (diffs (collect w steps dry_run))
      + List.length (res_errors (collect w steps dry_run)) = List.length steps)%nat).
Proof.
  intros Hfp Hne intent.
  apply String.eqb_neq in Hne.
  split; [|split; [|split; [|split]]].
  - intros Hact. unfold _execute_step. rewrite Hfp, Hact. simpl. by rewrite Hne.
  - intros [Hact|Hact]; unfold _execute_step; rewrite Hfp, Hact; simpl; rewrite Hne;
      by destruct (read_original w fp).
  - done.
  - done.
  - apply collect_counts.
Qed.

End ExecutionEngine.

(** * Properties of the orchestrator *)

Section Orchestrator.
Context {lib : PyLib}.
Import DiffEngine Database Executor CoreEngine.

Lemma rollback_loop_unapplied (diffs : list FileDiff) :
  Forall (fun d => applied d = false) diffs ->
  forall w rolled failed_,
    rollback_loop w diffs rolled failed_
    = (w, diffs, rolled + Z.of_nat (List.length diffs), failed_).
Proof.
  induction 1 as [|d rest Hd Hrest IH]; intros w rolled failed_; simpl.
  - by rewrite Z.add_0_r.
  - unfold rollback_diff. rewrite Hd. simpl. rewrite IH. repeat (f_equal; try lia).
Qed.

Lemma rollback_diffs_unapplied (w : World) (diffs : list FileDiff) :
  Forall (fun d => applied d = false) diffs ->
  rollback_diffs w diffs
  = (w, diffs, {| rb_total := Z.of_nat (List.length diffs);
                  rolled_back := Z.of_nat (List.length diffs); rb_failed := 0 |}).
Proof.
  intros Hall. unfold rollback_diffs.
  rewrite rollback_loop_unapplied by (by apply Forall_rev).
  by rewrite rev_involutive, length_rev.
Qed.

Lemma file_diffs_of_unapplied (rows : list Database.Diff) (fds : list FileDiff) :
  file_diffs_of rows = Ok fds -> Forall (fun d => applied d = false) fds.
Proof.
  revert fds. induction rows as [|row rest IH]; intros fds; simpl.
  - intros [= <-]. constructor.
  - destruct (DiffOperation_of (row_operation row)) as [op|exc]; [|done].
    destruct (file_diffs_of rest) as [fds'|exc]; [|done].
    intros [= <-]. constructor; [done|]. by apply IH.
Qed.

(** [rollback_action] rebuilds every recorded diff as one that was never
    applied, so it changes nothing; with diffs on record it ends by raising. *)
Lemma rollback_action_restores_nothing (w : World) (rows : list Database.Diff) :
  fst (rollback_action w rows) = w /\
  (rows <> [] -> exists exc, snd (rollback_action w rows) = Raise exc).
Proof.
  unfold rollback_action. destruct rows as [|row rest]; [done|].
  destruct (file_diffs_of (row :: rest)) as [fds|exc] eqn:Hfds; [|by eauto].
  rewrite (rollback_diffs_unapplied w fds (file_diffs_of_unapplied _ _ Hfds)).
  simpl. eauto.
Qed.

(** C2, on the code.  Whenever [process_intent] ends with the action in the
    status [rolled_back], verification has reported [passed = false], the
    result is unsuccessful, and no file was restored: the workspace and the
    backup directory are what they were when the cycle started, whatever
    diffs are on record for the action. *)
Theorem rolled_back_status_without_restoring
    (e : Engine) (c : Collaborators) (w : World) (a : Action) :
  status (snd (fst (process_intent e c w a))) = ROLLED_BACK ->
  files (fst (fst (process_intent e c w a))) = files w /\
  backups (fst (fst (process_intent e c w a))) = backups w /\
  res_success (snd (process_intent e c w a)) = false /\
  exists verification,
    verification_result (snd (fst (process_intent e c w a))) = Some verification /\
    Verifier.passed verification = false.
Proof.
  unfold process_intent, _plan. simpl.
  destruct (planner c) as [p|exc]; simpl; [|done].
  destruct (_ && _); simpl; [done|].
  unfold _execute.
  destruct (execute_plan e (llm c) _ p false) as [w1 [execution|exc]] eqn:Hexec; simpl; [|done].
  apply execute_plan_ok_world in Hexec as [-> _].
  unfold _verify.
  destruct (Verifier.passed _) eqn:Hpassed; simpl.
  - destruct (_reflect c _) as [a' r]. simpl. done.
  - intros _. unfold _rollback.
    destruct (rollback_action_restores_nothing
      {| files := files w; backups := backups w; clock := S (clock w);
         refused := refused w |}
      (action_diffs a)) as [Hw _].
    simpl in *. rewrite Hw. simpl. repeat split; try done. eauto.
Qed.

End Orchestrator.

(** * Properties of the Verification Engine *)

Section VerificationEngine.
Import DiffEngine Verifier.

Lemma combine_lint_clean (results : list (outcome string LintResult)) :
  Forall lint_clean results ->
  forall combined, valid combined = true -> lint_errors combined = [] ->
    valid (combine_lint combined results) = true /\
    lint_errors (combine_lint combined results) = [].
Proof.
  induction 1 as [|r rest Hr Hrest IH]; intros combined Hv He; simpl; [done|].
  destruct r as [res|exc]; [|by apply IH].
  destruct (Hr res eq_refl) as [Hvr Her].
  apply IH; simpl; [by rewrite Hvr | by rewrite He, Her].
Qed.

Lemma run_linting_clean (t : Tools) (w : World) (file_paths : list string) :
  (forall fs, lint_clean (run_ruff t w fs)) ->
  (forall fs, lint_clean (run_eslint t w fs)) ->
  valid (_run_linting t w file_paths) = true /\
  lint_errors (_run_linting t w file_paths) = [].
Proof.
  intros Hruff Heslint. unfold _run_linting.
  destruct (filter _ file_paths) as [|py py_files];
    destruct (filter _ file_paths) as [|js js_files]; simpl app; cbv iota; try done;
    (apply combine_lint_clean; [|done|done]);
    repeat (apply Forall_cons_2; [by auto|]); apply Forall_nil_2.
Qed.

Lemma check_syntax_parallel_clean (t : Tools) (w : World) (file_paths : list string) :
  (forall fp, fp ∈ file_paths -> _check_file_syntax t w fp = Ok []) ->
  _check_syntax_parallel t w file_paths = (true, []).
Proof.
  intros Hclean. unfold _check_syntax_parallel.
  assert (concat (map (fun fp =>
            match _check_file_syntax t w fp with
            | Raise exc => [exc]
            | Ok errs => errs
            end) file_paths) = []) as ->; [|done].
  induction file_paths as [|fp rest IH]; simpl; [done|].
  rewrite (Hclean fp) by (apply elem_of_cons; by left). simpl.
  apply IH. intros fp' Hin. apply Hclean, elem_of_cons. by right.
Qed.

(** C8. When no test framework is detected in the workspace, the syntax
    check of every changed file reports no error and the linters report
    none, the report of [verify_execution] has [passed = true] and
    [tests_run = 0] (and names no framework and no error). *)
Theorem no_framework_and_clean_files_pass
    (t : Tools) (w : World) (files_created files_modified : list string) :
  _has_pytest w = false ->
  _has_npm_test t w = false ->
  (forall fp, fp ∈ files_created ++ files_modified -> _check_file_syntax t w fp = Ok []) ->
  (forall fs, lint_clean (run_ruff t w fs)) ->
  (forall fs, lint_clean (run_eslint t w fs)) ->
  let report := verify_execution t w files_created files_modified in
  passed report = true /\ rep_tests_run report = 0 /\
  framework_used report = ""%string /\ rep_errors report = [].
Proof.
  intros Hpytest Hnpm Hsyntax Hruff Heslint. unfold verify_execution.
  rewrite Hpytest, Hnpm. cbv iota beta.
  destruct (files_created ++ files_modified) as [|fp rest]; [done|].
  rewrite (check_syntax_parallel_clean t w _ Hsyntax).
  destruct (run_linting_clean t w (fp :: rest) Hruff Heslint) as [Hv He].
  simpl. rewrite Hv, He. done.
Qed.

End VerificationEngine.

(** * Properties of the rate limiter *)

Section SlidingWindow.
Import RateLimiter.

Lemma filter_all (P : Z -> Prop) `{!forall x, Decision (P x)} (l : list Z) :
  Forall P l -> filter P l = l.
Proof.
  induction 1 as [|x rest Hx Hrest IH]; [done|].
  by rewrite filter_cons_True, IH.
Qed.

Lemma filter_keeps (P Q : Z -> Prop) `{!forall x, Decision (P x)} (l : list Z) :
  Forall Q l -> Forall Q (filter P l).
Proof.
  rewrite !Forall_forall. intros Hall x [_ Hin]%list_elem_of_filter. by apply Hall.
Qed.

(** On timestamps in the order of the calls, expiring from the left keeps
    exactly the ones after the cutoff. *)
Lemma expire_filter (cutoff : Z) (timestamps : list Z) :
  StronglySorted Z.le timestamps ->
  expire cutoff timestamps = filter (fun t => cutoff < t) timestamps.
Proof.
  induction 1 as [|t rest Hsorted IH Hhd]; simpl; [done|].
  destruct (t <=? cutoff) eqn:Ht.
  - apply Z.leb_le in Ht. rewrite IH. by rewrite filter_cons_False by lia.
  - apply Z.leb_gt in Ht. rewrite filter_cons_True by lia. f_equal.
    symmetry. apply filter_all. eapply Forall_impl; [exact Hhd|]. simpl. lia.
Qed.

Lemma filter_sorted (P : Z -> Prop) `{!forall x, Decision (P x)} (l : list Z) :
  StronglySorted Z.le l -> StronglySorted Z.le (filter P l).
Proof.
  induction 1 as [|t rest Hsorted IH Hhd]; [constructor|].
  destruct (decide (P t)).
  - rewrite filter_cons_True by done. constructor; [done|].
    by apply filter_keeps.
  - by rewrite filter_cons_False.
Qed.

Lemma acquire_config (l : Limiter) (now : Z) :
  max_requests (fst (acquire l now)) = max_requests l /\
  period (fst (acquire l now)) = period l.
Proof.
  unfold acquire. simpl.
  destruct (_ <=? _); [|done]. by destruct (expire _ _).
Qed.

Lemma acquire_timestamps (l : Limiter) (now : Z) :
  StronglySorted Z.le (_timestamps l) ->
  _timestamps (fst (acquire l now)) =
    match snd (acquire l now) with
    | Ok _ => in_window l now ++ [now]
    | Raise _ => in_window l now
    end.
Proof.
  intros Hsorted. unfold acquire, in_window. simpl.
  rewrite (expire_filter _ _ Hsorted).
  destruct (_ <=? _); [|done]. by destruct (filter _ _).
Qed.

Lemma acquire_in_order (l : Limiter) (now bound : Z) :
  recorded_in_order l now -> now <= bound ->
  recorded_in_order (fst (acquire l now)) bound.
Proof.
  intros [Hsorted Hbound] Hle. unfold recorded_in_order.
  rewrite (acquire_timestamps l now Hsorted).
  assert (StronglySorted Z.le (in_window l now)) as Hs by by apply filter_sorted.
  assert (Forall (fun t => t <= now) (in_window l now)) as Hb by by apply filter_keeps.
  destruct (snd (acquire l now)).
  - split.
    + apply StronglySorted_app_2; [|done|repeat constructor].
      intros x1 x2 Hx1 ->%list_elem_of_singleton.
      by eapply Forall_forall in Hb.
    + apply Forall_app. split; [|by repeat constructor].
      eapply Forall_impl; [exact Hb|]. simpl. lia.
  - split; [done|]. eapply Forall_impl; [exact Hb|]. simpl. lia.
Qed.

Lemma after_calls_snoc (l : Limiter) (times : list Z) (t : Z) :
  after_calls l (times ++ [t]) = fst (acquire (after_calls l times) t).
Proof. unfold after_calls. by rewrite fold_left_app. Qed.

(** After calls made at clock readings that never go back, the timestamps
    on record are in order and none is later than the next reading. *)
Lemma after_calls_in_order (max_requests_ period_ : Z) (times : list Z) (now : Z) :
  Sorted Z.le (times ++ [now]) ->
  let l := after_calls (Limiter_new max_requests_ period_) times in
  recorded_in_order l now /\ max_requests l = max_requests_ /\ period l = period_.
Proof.
  revert now. induction times as [|t times IH] using rev_ind; intros now Hsorted.
  - simpl. repeat split; constructor.
  - simpl. rewrite after_calls_snoc.
    apply Sorted_StronglySorted in Hsorted; [|apply _].
    apply StronglySorted_app in Hsorted as (Hlast & Hprefix & _).
    assert (t <= now) as Hle.
    { apply Hlast; [|by apply list_elem_of_singleton].
      apply elem_of_app. right. by apply list_elem_of_singleton. }
    destruct (IH t) as (Hord & Hmax & Hperiod).
    { by apply StronglySorted_Sorted. }
    destruct (acquire_config (after_calls (Limiter_new max_requests_ period_) times) t)
      as [-> ->].
    split; [|done]. by apply acquire_in_order.
Qed.

(** C9. After any sequence of calls (made at clock readings that never go
    back), a call to [acquire] raises, at once, exactly when the timestamps
    recorded within the last [period] seconds number at least
    [max_requests]; for a positive [max_requests] what it raises is the
    rate-limit error.  A call that succeeds records its own timestamp after
    the ones in the window, a call that is rejected records nothing. *)
Theorem acquire_rejects_exactly_when_window_full
    (max_requests_ period_ : Z) (times : list Z) (now : Z) :
  Sorted Z.le (times ++ [now]) ->
  let l := after_calls (Limiter_new max_requests_ period_) times in
  let within := in_window l now in
  ((exists exc, snd (acquire l now) = Raise exc)
     <-> max_requests_ <= Z.of_nat (List.length within)) /\
  (0 < max_requests_ ->
     forall exc, snd (acquire l now) = Raise exc ->
       exists wait, exc = RateLimitError max_requests_ period_ wait /\ 0 < wait) /\
  (snd (acquire l now) = Ok tt -> _timestamps (fst (acquire l now)) = within ++ [now]) /\
  (forall exc, snd (acquire l now) = Raise exc -> _timestamps (fst (acquire l now)) = within).
Proof.
  intros Hsorted l within.
  destruct (after_calls_in_order max_requests_ period_ times now Hsorted)
    as ([Hord _] & Hmax & Hperiod).
  fold l in Hord, Hmax, Hperiod.
  pose proof (acquire_timestamps l now Hord) as Hts. fold within in Hts.
  assert (expire (now - period l * 1000000) (_timestamps l) = within) as Hexp
    by by apply expire_filter.
  split; [|split; [|split]].
  - unfold acquire. rewrite Hexp, Hmax. simpl.
    destruct (max_requests_ <=? Z.of_nat (List.length within)) eqn:Hfull.
    + apply Z.leb_le in Hfull. split; [done|]. intros _. destruct within; eauto.
    + apply Z.leb_gt in Hfull. split; [|lia]. by intros [exc [=]].
  - intros Hpos exc. unfold acquire. rewrite Hexp, Hmax, Hperiod. simpl.
    destruct (max_requests_ <=? Z.of_nat (List.length within)) eqn:Hfull; [|done].
    apply Z.leb_le in Hfull.
    destruct within as [|oldest rest] eqn:Hw; simpl in *; [lia|].
    intros [= <-]. eexists. split; [done|].
    assert (oldest ∈ in_window l now) as Hin.
    { fold within. rewrite Hw. apply elem_of_cons. by left. }
    unfold in_window in Hin. apply list_elem_of_filter in Hin as [Hin _].
    rewrite Hperiod in Hin. lia.
  - intros Hok. by rewrite Hts, Hok.
  - intros exc Hexc. by rewrite Hts, Hexc.
Qed.

End SlidingWindow.

(** * Further properties of the Mutation Engine *)

Section BatchInvariants.
Context {lib : PyLib}.
Import DiffEngine.

(** X1. [create_diff], asked to modify a path without being handed the
    original, reads the file as text: the diff is a modify-diff holding the
    decoded content of the file when the file exists, and a create-diff
    without original when it does not.  On the workspace it was built from,
    such a diff meets the existence rule of [validate_diff], so it is accepted
    exactly when its new content is within the size limit.  The integrity
    warning compares the digest of the bytes on disk with the digest of the
    decoded text: there is none when decoding leaves the bytes as they are
    (valid UTF-8 without carriage return, in particular), and there is one
    when the decoded text is not empty and its digest, not empty either, is
    not that of the bytes. *)
Theorem create_diff_modify_reads_the_file (w : World) (fp : string) (new : option string) :
  let d := create_diff w fp new MODIFY None in
  operation d = (if exists_ w fp then MODIFY else CREATE) /\
  original_content d = read_text_replace <$> files w !! fp /\
  existence_ok w d /\
  fst (validate_diff w d) = negb (_MAX_FILE_SIZE_BYTES <? byte_len (or_empty new)) /\
  (files w !! fp = None -> integrity_warnings w d = []) /\
  (forall data, files w !! fp = Some data ->
     integrity_warnings w d =
       if truthy (_sha (Some (read_text_replace data)))
          && negb (String.eqb (sha256_hexdigest data)
                              (sha256_hexdigest (read_text_replace data)))
       then [W_integrity fp] else []) /\
  (forall data, files w !! fp = Some data ->
     (read_text_replace data = data -> integrity_warnings w d = []) /\
     (utf8_valid data = true -> count_char carriage_return data = 0%nat ->
        integrity_warnings w d = []) /\
     (read_text_replace data <> ""%string ->
      sha256_hexdigest (read_text_replace data) <> ""%string ->
      sha256_hexdigest data <> sha256_hexdigest (read_text_replace data) ->
        integrity_warnings w d = [W_integrity fp])).
Proof.
  intros d.
  assert (file_path d = fp /\ new_content d = new) as [Hfp Hnew]
    by (destruct (create_diff_fields w fp new MODIFY None) as (? & ? & _); done).
  assert (operation d = (if exists_ w fp then MODIFY else CREATE)
          /\ original_content d = read_text_replace <$> files w !! fp) as [Hop Horig].
  { subst d. unfold create_diff.
    destruct (files w !! fp) as [content|] eqn:Hdisk; simpl.
    - assert (exists_ w fp = true) as -> by (apply exists_true; rewrite Hdisk; eauto). done.
    - assert (exists_ w fp = false) as -> by (by apply exists_false). done. }
  assert (existence_ok w d) as Hex.
  { unfold existence_ok. rewrite Hop, Hfp. by destruct (exists_ w fp) eqn:E. }
  assert (forall data, files w !! fp = Some data ->
     integrity_warnings w d =
       if truthy (_sha (Some (read_text_replace data)))
          && negb (String.eqb (sha256_hexdigest data)
                              (sha256_hexdigest (read_text_replace data)))
       then [W_integrity fp] else []) as Hint.
  { intros data Hdisk. unfold integrity_warnings. rewrite Hop, Hfp, Hdisk.
    assert (exists_ w fp = true) as -> by (apply exists_true; rewrite Hdisk; eauto).
    destruct (create_diff_fields w fp new MODIFY None) as (_ & _ & _ & _ & Hcb & _).
    fold d in Hcb. rewrite Hcb, Horig, Hdisk. simpl. unfold _sha.
    destruct (truthy (Some (read_text_replace data))); simpl; done. }
  assert (forall data, files w !! fp = Some data -> read_text_replace data = data ->
            integrity_warnings w d = []) as Hsame.
  { intros data Hdisk Hid. rewrite (Hint data Hdisk), Hid, String.eqb_refl. simpl.
    by rewrite andb_false_r. }
  split; [done|]. split; [done|]. split; [done|]. split.
  { rewrite (validate_diff_existence_ok_eq w d Hex), Hnew.
    destruct (_MAX_FILE_SIZE_BYTES <? _); [done|]. by destruct (_LARGE_DIFF_LINES <? _). }
  split.
  { intros Hnone. unfold integrity_warnings. rewrite Hfp, Hnone. by destruct (operation d). }
  split; [done|].
  intros data Hdisk. split; [by apply Hsame|]. split.
  - intros Hvalid Hcr. apply (Hsame data Hdisk). by apply read_text_replace_id.
  - intros Hne Hdigest Hsha. rewrite (Hint data Hdisk). unfold _sha. simpl.
    apply String.eqb_neq in Hne, Hdigest, Hsha. rewrite Hne. simpl.
    by rewrite Hdigest, Hsha.
Qed.

(** X2. A call of [apply_diff] without [dry_run] that returns has returned
    [True]: the target holds the new content (it is gone, for a delete-diff),
    no other file has changed, the diff is marked applied with the time of
    the call, and for a modify- or delete-diff the content the file had is
    kept in the backup whose path the diff records, no other backup being
    touched.  A create-diff makes no backup. *)
Theorem apply_diff_effect
    (e : Engine) (w : World) (d : FileDiff) (w1 : World) (d1 : FileDiff) (r : bool) :
  apply_diff e w d false = (w1, d1, Ok r) ->
  r = true /\
  files w1 !! file_path d =
    (if decide (operation d = DELETE) then None else Some (or_empty (new_content d))) /\
  (forall fp, fp <> file_path d -> files w1 !! fp = files w !! fp) /\
  applied d1 = true /\ applied_at d1 = Some (Nat.pred (clock w1)) /\
  (clock w < clock w1)%nat /\
  (operation d = CREATE -> backups w1 = backups w /\ backup_path d1 = backup_path d) /\
  (operation d <> CREATE ->
     exists bp old, backup_path d1 = Some bp /\ files w !! file_path d = Some old /\
       backups w1 !! bp = Some old /\
       forall bp', bp' <> bp -> backups w1 !! bp' = backups w !! bp').
Proof.
  unfold apply_diff.
  destruct (validate_diff w d) as [valid warnings] eqn:Hv.
  destruct valid; simpl; [|done].
  unfold checked. destruct (bool_decide (file_path d ∈ refused w)); [done|].
  pose proof (validate_diff_existence_ok w d) as Hex. rewrite Hv in Hex.
  specialize (Hex eq_refl).
  destruct (operation d) eqn:Hop.
  - rewrite Hop. simpl. intros [= <- <- <-]. simpl.
    rewrite lookup_insert_eq. repeat split; try done; try lia.
    intros fp Hne. by rewrite lookup_insert_ne.
  - destruct Hex as [old Hold].
    destruct (create_backup_spec e w (file_path d) old Hold) as (bp & Hbp & ->).
    simpl. rewrite Hop. intros [= <- <- <-]. simpl.
    rewrite lookup_insert_eq. repeat split; try done; try lia.
    + intros fp Hne. by rewrite lookup_insert_ne.
    + intros _. exists bp, old. rewrite lookup_insert_eq. repeat split; try done.
      intros bp' Hne. by rewrite lookup_insert_ne.
  - destruct Hex as [old Hold].
    destruct (create_backup_spec e w (file_path d) old Hold) as (bp & Hbp & ->).
    simpl. rewrite Hop. intros [= <- <- <-]. simpl.
    rewrite lookup_delete_eq. repeat split; try done; try lia.
    + intros fp Hne. by rewrite lookup_delete_ne.
    + intros _. exists bp, old. rewrite lookup_insert_eq. repeat split; try done.
      intros bp' Hne. by rewrite lookup_insert_ne.
Qed.

Lemma rollback_diff_ok_unapplied (w : World) (d : FileDiff) :
  snd (rollback_diff w d) = true -> applied (snd (fst (rollback_diff w d))) = false.
Proof.
  unfold rollback_diff. destruct (applied d) eqn:Ha; simpl; [|done].
  destruct (operation d); simpl.
  - by destruct (if exists_ w (file_path d) then _ else _).
  - destruct (truthy (backup_path d)); simpl.
    + by destruct (_restore_backup w _ _).
    + destruct (original_content d); simpl; [|done]. by destruct (checked w _ _).
  - destruct (truthy (backup_path d)); simpl.
    + by destruct (_restore_backup w _ _).
    + destruct (original_content d); simpl; [|done]. by destruct (checked w _ _).
Qed.

Lemma rollback_diff_path (w : World) (d : FileDiff) :
  file_path (snd (fst (rollback_diff w d))) = file_path d.
Proof.
  unfold rollback_diff. destruct (applied d); simpl; [|done].
  destruct (operation d); simpl.
  - by destruct (if exists_ w (file_path d) then _ else _).
  - destruct (truthy (backup_path d)); simpl.
    + by destruct (_restore_backup w _ _).
    + destruct (original_content d); simpl; [|done]. by destruct (checked w _ _).
  - destruct (truthy (backup_path d)); simpl.
    + by destruct (_restore_backup w _ _).
    + destruct (original_content d); simpl; [|done]. by destruct (checked w _ _).
Qed.

Lemma rollback_diff_frame (w : World) (d : FileDiff) (fp : string) :
  fp <> file_path d ->
  files (fst (fst (rollback_diff w d))) !! fp = files w !! fp.
Proof.
  intros Hne. unfold rollback_diff, _restore_backup, checked.
  destruct (applied d); simpl; [|done].
  destruct (bool_decide (file_path d ∈ refused w)).
  - destruct (operation d); simpl.
    + by destruct (exists_ w (file_path d)).
    + destruct (truthy (backup_path d)); simpl.
      * by destruct (backups w !! _).
      * by destruct (original_content d).
    + destruct (truthy (backup_path d)); simpl.
      * by destruct (backups w !! _).
      * by destruct (original_content d).
  - destruct (operation d); simpl.
    + destruct (exists_ w (file_path d)); simpl; [|done]. by rewrite lookup_delete_ne.
    + destruct (truthy (backup_path d)); simpl.
      * destruct (backups w !! _); simpl; [|done]. by rewrite lookup_insert_ne.
      * destruct (original_content d); simpl; [|done]. by rewrite lookup_insert_ne.
    + destruct (truthy (backup_path d)); simpl.
      * destruct (backups w !! _); simpl; [|done]. by rewrite lookup_insert_ne.
      * destruct (original_content d); simpl; [|done]. by rewrite lookup_insert_ne.
Qed.

Lemma rollback_diff_backups (w : World) (d : FileDiff) :
  backups (fst (fst (rollback_diff w d))) = backups w.
Proof.
  unfold rollback_diff, _restore_backup, checked.
  destruct (applied d); simpl; [|done].
  destruct (bool_decide (file_path d ∈ refused w));
    (destruct (operation d); simpl;
     [ by destruct (exists_ w (file_path d))
     | destruct (truthy (backup_path d)); simpl;
       [ by destruct (backups w !! _) | by destruct (original_content d) ]
     | destruct (truthy (backup_path d)); simpl;
       [ by destruct (backups w !! _) | by destruct (original_content d) ] ]).
Qed.

(** X3. [rollback_diff] returns [False] in two cases only: an applied
    modify- or delete-diff with neither a backup path nor an original
    content, and an applied diff whose rollback has a file to remove or to
    write at a path where the operating system refuses it (the exception is
    caught).  The workspace and the diff are then left as they were.  When it
    returns [True] the diff is marked not applied, and rolling it back once
    more changes nothing and returns [True] again. *)
Theorem rollback_diff_settles (w : World) (d : FileDiff) :
  (snd (rollback_diff w d) = false <->
     applied d = true /\
     ((operation d <> CREATE /\ truthy (backup_path d) = false /\
       original_content d = None)
      \/ (file_path d ∈ refused w /\ rollback_writes w d))) /\
  (snd (rollback_diff w d) = false -> fst (rollback_diff w d) = (w, d)) /\
  (snd (rollback_diff w d) = true ->
     applied (snd (fst (rollback_diff w d))) = false /\
     rollback_diff (fst (fst (rollback_diff w d))) (snd (fst (rollback_diff w d)))
     = rollback_diff w d).
Proof.
  split; [|split].
  - unfold rollback_diff, rollback_writes, _restore_backup, checked.
    destruct (applied d); simpl; [|by intuition].
    destruct (decide (file_path d ∈ refused w)) as [Hin|Hout];
      [rewrite (bool_decide_eq_true_2 _ Hin)|rewrite (bool_decide_eq_false_2 _ Hout)];
      (destruct (operation d); simpl;
       [ destruct (exists_ w (file_path d)); simpl
       | destruct (truthy (backup_path d)); simpl;
         [ destruct (backups w !! _) as [content|]; simpl
         | destruct (original_content d) as [original|]; simpl ]
       | destruct (truthy (backup_path d)); simpl;
         [ destruct (backups w !! _) as [content|]; simpl
         | destruct (original_content d) as [original|]; simpl ] ]);
      (split; [ intros Hret; first
                  [ done
                  | split; [done|]; left; done
                  | split; [done|]; right; split; [done|]; by eauto ]
              | intros [_ [(Hc & Ht & Ho)|[Hr Hw]]]; first
                  [ done | by apply is_Some_None in Hw ] ]).
  - unfold rollback_diff, _restore_backup, checked.
    destruct (applied d); simpl; [|done].
    destruct (bool_decide (file_path d ∈ refused w));
      (destruct (operation d); simpl;
       [ by destruct (exists_ w (file_path d))
       | destruct (truthy (backup_path d)); simpl;
         [ by destruct (backups w !! _) | by destruct (original_content d) ]
       | destruct (truthy (backup_path d)); simpl;
         [ by destruct (backups w !! _) | by destruct (original_content d) ] ]).
  - intros Hok. pose proof (rollback_diff_ok_unapplied w d Hok) as Hun.
    split; [done|].
    destruct (rollback_diff w d) as [[w1 d1] ok] eqn:Hrb. simpl in *. subst ok.
    unfold rollback_diff. by rewrite Hun.
Qed.

(** The counters and the diffs of [rollback_loop]. *)
Lemma rollback_loop_accounting (reversed : list FileDiff) :
  forall w rolled failed_,
    let '(w', visited, rolled', failed') := rollback_loop w reversed rolled failed_ in
    rolled' + failed' = rolled + failed_ + Z.of_nat (List.length reversed) /\
    rolled <= rolled' /\ failed_ <= failed' /\
    map file_path visited = map file_path reversed /\
    backups w' = backups w /\
    (failed' = failed_ -> Forall (fun d => applied d = false) visited) /\
    (forall fp, Forall (fun d => file_path d <> fp) reversed ->
       files w' !! fp = files w !! fp).
Proof.
  induction reversed as [|d rest IH]; intros w rolled failed_.
  - simpl. repeat split; try lia; done.
  - cbn [rollback_loop].
    pose proof (rollback_diff_ok_unapplied w d) as Hun.
    pose proof (rollback_diff_path w d) as Hpath.
    pose proof (rollback_diff_frame w d) as Hframe.
    pose proof (rollback_diff_backups w d) as Hbk.
    destruct (rollback_diff w d) as [[w1 d1] ok]. simpl in Hun, Hpath, Hframe, Hbk.
    specialize (IH w1 (if ok then rolled + 1 else rolled)
                      (if ok then failed_ else failed_ + 1)).
    destruct (rollback_loop w1 rest _ _) as [[[w2 rest2] r2] f2].
    destruct IH as (Hsum & Hr & Hf & Hpaths & Hbk2 & Hall & Hfr).
    rewrite length_cons, Nat2Z.inj_succ.
    split; [destruct ok; lia|]. split; [destruct ok; lia|]. split; [destruct ok; lia|].
    split; [simpl; by rewrite Hpath, Hpaths|].
    split; [by rewrite Hbk2|].
    split.
    + intros Heq. destruct ok; [|lia]. constructor; [by apply Hun|]. by apply Hall.
    + intros fp Hfp. apply Forall_cons in Hfp as [Hd Hrest].
      rewrite (Hfr fp Hrest). apply Hframe. done.
Qed.

(** X4. [rollback_diffs] visits every diff: [total] is the length of the
    list, [rolled_back + failed = total], the diffs come back in their order
    and name the same files, no backup is written or removed, a file that no
    diff names is not touched, and when the result reports success every diff
    of the list is marked not applied. *)
Theorem rollback_diffs_accounting (w : World) (diffs : list FileDiff) :
  let '(w', diffs', rb) := rollback_diffs w diffs in
  rb_total rb = Z.of_nat (List.length diffs) /\
  rolled_back rb + rb_failed rb = rb_total rb /\
  0 <= rolled_back rb /\ 0 <= rb_failed rb /\
  map file_path diffs' = map file_path diffs /\
  backups w' = backups w /\
  (RollbackResult_success rb = true -> Forall (fun d => applied d = false) diffs') /\
  (forall fp, Forall (fun d => file_path d <> fp) diffs -> files w' !! fp = files w !! fp).
Proof.
  unfold rollback_diffs.
  pose proof (rollback_loop_accounting (rev diffs) w 0 0) as Hloop.
  destruct (rollback_loop w (rev diffs) 0 0) as [[[w' visited] rolled] failed_].
  destruct Hloop as (Hsum & Hr & Hf & Hpaths & Hbk & Hall & Hfr).
  rewrite length_rev in Hsum. simpl.
  split; [done|]. split; [lia|]. split; [done|]. split; [done|].
  split; [by rewrite map_rev, Hpaths, map_rev, rev_involutive|].
  split; [done|]. split.
  - unfold RollbackResult_success. simpl. intros Hz%Z.eqb_eq.
    apply Forall_rev. by apply Hall.
  - intros fp Hfp. apply Hfr. by apply Forall_rev.
Qed.

Lemma apply_diff_path (e : Engine) (w : World) (d : FileDiff) (dry_run : bool) :
  file_path (snd (fst (apply_diff e w d dry_run))) = file_path d.
Proof.
  unfold apply_diff. destruct (validate_diff w d) as [[|] ws]; simpl; [|done].
  destruct dry_run; [done|].
  unfold checked. destruct (bool_decide (file_path d ∈ refused w)); [done|].
  destruct (operation d); simpl; try done;
    destruct (_create_backup e w (file_path d)); simpl; by destruct (operation d).
Qed.

Lemma create_backup_files (e : Engine) (w : World) (fp : string) :
  files (snd (_create_backup e w fp)) = files w.
Proof. unfold _create_backup. by destruct (files w !! fp). Qed.

Lemma apply_diff_frame (e : Engine) (w : World) (d : FileDiff) (dry_run : bool) (fp : string) :
  fp <> file_path d ->
  files (fst (fst (apply_diff e w d dry_run))) !! fp = files w !! fp.
Proof.
  intros Hne. unfold apply_diff.
  destruct (validate_diff w d) as [[|] ws]; simpl; [|done].
  destruct dry_run; [done|].
  unfold checked. destruct (bool_decide (file_path d ∈ refused w)); [done|].
  destruct (operation d) eqn:Hop; simpl.
  - rewrite Hop. simpl. by rewrite lookup_insert_ne.
  - pose proof (create_backup_files e w (file_path d)) as Hf.
    destruct (_create_backup e w (file_path d)) as [bp wb]. simpl in *.
    rewrite Hop. simpl. by rewrite lookup_insert_ne, Hf.
  - pose proof (create_backup_files e w (file_path d)) as Hf.
    destruct (_create_backup e w (file_path d)) as [bp wb]. simpl in *.
    rewrite Hop. simpl. by rewrite lookup_delete_ne, Hf.
Qed.

Lemma apply_diff_dry (e : Engine) (w : World) (d : FileDiff) :
  fst (apply_diff e w d true) = (w, d).
Proof. unfold apply_diff. by destruct (validate_diff w d) as [[|] ws]. Qed.

Lemma map_fst_flag (diffs : list FileDiff) : map fst (flag_applied diffs) = diffs.
Proof. unfold flag_applied. rewrite map_map. simpl. apply map_id. Qed.

Lemma applied_so_far_length (seen : list (FileDiff * bool)) :
  (List.length (applied_so_far seen) <= List.length seen)%nat.
Proof.
  unfold applied_so_far. rewrite length_map. apply length_filter.
Qed.

Lemma applied_so_far_snoc_true (seen : list (FileDiff * bool)) (d : FileDiff) :
  applied_so_far (seen ++ [(d, true)]) = applied_so_far seen ++ [d].
Proof. by rewrite applied_so_far_app. Qed.

Lemma applied_so_far_snoc_false (seen : list (FileDiff * bool)) (d : FileDiff) :
  applied_so_far (seen ++ [(d, false)]) = applied_so_far seen.
Proof. rewrite applied_so_far_app. apply app_nil_r. Qed.

Lemma applied_so_far_Forall (P : FileDiff -> Prop) (seen : list (FileDiff * bool)) :
  Forall P (map fst seen) -> Forall P (applied_so_far seen).
Proof.
  induction seen as [|[d b] rest IH]; [done|].
  intros [Hd Hrest]%Forall_cons.
  change ((d, b) :: rest) with ([(d, b)] ++ rest). rewrite applied_so_far_app.
  apply Forall_app. split; [|by apply IH].
  destruct b; [by repeat constructor | constructor].
Qed.

(** What [write_back] gives when the rolled-back diffs name the files of the
    applied ones. *)
Lemma write_back_paths (seen : list (FileDiff * bool)) :
  forall rolled,
    map file_path rolled = map file_path (applied_so_far seen) ->
    map file_path (write_back seen rolled) = map file_path (map fst seen).
Proof.
  induction seen as [|[d b] rest IH]; intros rolled Hpaths; [done|].
  change ((d, b) :: rest) with ([(d, b)] ++ rest) in Hpaths.
  rewrite applied_so_far_app in Hpaths.
  destruct b.
  - destruct rolled as [|r rs]; [done|].
    injection Hpaths as Hr Hrs. simpl. rewrite Hr. f_equal. by apply IH.
  - simpl. f_equal. by apply IH.
Qed.

Lemma write_back_same (seen : list (FileDiff * bool)) :
  write_back seen (applied_so_far seen) = map fst seen.
Proof.
  induction seen as [|[d b] rest IH]; [done|].
  change ((d, b) :: rest) with ([(d, b)] ++ rest).
  rewrite applied_so_far_app. destruct b; simpl; by rewrite IH.
Qed.

(** What the batch loop needs to know of the rollback it runs. *)
Lemma rollback_diffs_counts (w : World) (diffs : list FileDiff) :
  0 <= rolled_back (snd (rollback_diffs w diffs)) <= Z.of_nat (List.length diffs) /\
  map file_path (snd (fst (rollback_diffs w diffs))) = map file_path diffs /\
  (forall fp, Forall (fun d => file_path d <> fp) diffs ->
     files (fst (fst (rollback_diffs w diffs))) !! fp = files w !! fp).
Proof.
  unfold rollback_diffs.
  pose proof (rollback_loop_accounting (rev diffs) w 0 0) as Hloop.
  destruct (rollback_loop w (rev diffs) 0 0) as [[[w' visited] rolled] failed_].
  destruct Hloop as (Hsum & Hr & Hf & Hpaths & _ & _ & Hfr).
  rewrite length_rev in Hsum. simpl.
  split; [lia|]. split; [by rewrite map_rev, Hpaths, map_rev, rev_involutive|].
  intros fp Hfp. apply Hfr. by apply Forall_rev.
Qed.

(** The counters, the diffs and the files of [apply_loop]. *)
Lemma apply_loop_accounting (e : Engine) (dry_run stop : bool) (todo : list FileDiff) :
  forall w idx seen result,
    let '(w', diffs', r) := apply_loop e dry_run stop w idx seen todo result in
    total r = total result /\ skipped r = skipped result /\
    map file_path diffs' = map file_path (map fst seen) ++ map file_path todo /\
    Z.of_nat (List.length (errors r)) - failed r
      = Z.of_nat (List.length (errors result)) - failed result /\
    failed result <= failed r /\
    (stop = true -> failed r <= failed result + 1) /\
    (stop = false ->
       ar_applied r + failed r
       = ar_applied result + failed result + Z.of_nat (List.length todo)) /\
    ar_applied result - Z.of_nat (List.length (applied_so_far seen)) <= ar_applied r /\
    ar_applied r + failed r
      <= ar_applied result + failed result + Z.of_nat (List.length todo) /\
    (forall fp, Forall (fun d => file_path d <> fp) (map fst seen) ->
       Forall (fun d => file_path d <> fp) todo -> files w' !! fp = files w !! fp).
Proof.
  induction todo as [|d rest IH]; intros w idx seen result.
  - simpl. repeat split; try lia; try done. by rewrite app_nil_r.
  - cbn [apply_loop].
    pose proof (apply_diff_path e w d dry_run) as Hpath.
    pose proof (apply_diff_frame e w d dry_run) as Hframe.
    destruct (apply_diff e w d dry_run) as [[w1 d1] [ok|exc]]; simpl in Hpath, Hframe.
    + match goal with |- context [apply_loop _ _ _ _ _ ?s _ ?r] =>
        specialize (IH w1 (S idx) s r) end.
      destruct (apply_loop e dry_run stop w1 (S idx) _ rest _) as [[w' diffs'] r].
      destruct IH as (Ht & Hs & Hp & He & Hf & Hstop & Hcont & Hlow & Hup & Hfr).
      simpl in *. rewrite applied_so_far_snoc_true, length_app in Hlow. simpl in Hlow.
      rewrite map_app, map_app in Hp. simpl in Hp. rewrite <- app_assoc in Hp. simpl in Hp.
      rewrite Hpath in Hp.
      split; [done|]. split; [done|]. split; [done|]. split; [done|]. split; [done|].
      split; [done|]. split; [intros Hs'; specialize (Hcont Hs'); lia|].
      split; [lia|]. split; [lia|].
      intros fp Hseen [Hd Hrest]%Forall_cons.
      rewrite Hfr; [by apply Hframe| |done].
      rewrite map_app. apply Forall_app. split; [done|]. simpl. constructor; [|done].
      by rewrite Hpath.
    + destruct stop.
      * pose proof (rollback_diffs_counts w1 (applied_so_far seen)) as Hrb.
        destruct (rollback_diffs w1 (applied_so_far seen)) as [[w2 rolled] rb].
        destruct Hrb as (Hr0 & Hrp & Hrfr). simpl in Hr0, Hrp, Hrfr.
        simpl. rewrite length_app. simpl.
        split; [done|]. split; [done|].
        split; [rewrite map_app, (write_back_paths _ _ Hrp); simpl; by rewrite Hpath|].
        split; [lia|]. split; [lia|]. split; [lia|]. split; [done|].
        split; [lia|]. split; [lia|].
        intros fp Hseen [Hd Hrest]%Forall_cons.
        rewrite Hrfr by (by apply applied_so_far_Forall). by apply Hframe.
      * match goal with |- context [apply_loop _ _ _ _ _ ?s _ ?r] =>
          specialize (IH w1 (S idx) s r) end.
        destruct (apply_loop e dry_run false w1 (S idx) _ rest _) as [[w' diffs'] r].
        destruct IH as (Ht & Hs & Hp & He & Hf & Hstop & Hcont & Hlow & Hup & Hfr).
        simpl in *. rewrite applied_so_far_snoc_false in Hlow.
        rewrite length_app in He. simpl in He.
        rewrite map_app, map_app in Hp. simpl in Hp. rewrite <- app_assoc in Hp. simpl in Hp.
        rewrite Hpath in Hp.
        split; [done|]. split; [done|]. split; [done|]. split; [lia|]. split; [lia|].
        split; [done|]. split; [intros _; specialize (Hcont eq_refl); lia|].
        split; [lia|]. split; [lia|].
        intros fp Hseen [Hd Hrest]%Forall_cons.
        rewrite Hfr; [by apply Hframe| |done].
        rewrite map_app. apply Forall_app. split; [done|]. simpl. constructor; [|done].
        by rewrite Hpath.
Qed.

(** X5. Whatever the batch, the result of [apply_diffs] has [total] the
    size of the batch, [skipped] 0 and [failed] the number of recorded
    errors, with [0 <= applied] and [applied + failed <= total]; the batch
    names the same files in the same order afterwards.  With [stop_on_error]
    at most one diff fails; without it every diff is tried and
    [applied + failed = total]. *)
Theorem apply_diffs_accounting
    (e : Engine) (w : World) (diffs : list FileDiff) (dry_run stop_on_error : bool) :
  let '(w', diffs', r) := apply_diffs e w diffs dry_run stop_on_error in
  total r = Z.of_nat (List.length diffs) /\
  skipped r = 0 /\
  map file_path diffs' = map file_path diffs /\
  failed r = Z.of_nat (List.length (errors r)) /\
  0 <= ar_applied r /\ 0 <= failed r /\ ar_applied r + failed r <= total r /\
  (stop_on_error = true -> failed r <= 1) /\
  (stop_on_error = false -> ar_applied r + failed r = total r).
Proof.
  unfold apply_diffs.
  match goal with |- context [apply_loop _ _ _ _ _ ?s _ ?r] =>
    pose proof (apply_loop_accounting e dry_run stop_on_error diffs w 0%nat s r) as Hloop end.
  destruct (apply_loop e dry_run stop_on_error w 0 [] diffs _) as [[w' diffs'] r].
  destruct Hloop as (Ht & Hs & Hp & He & Hf & Hstop & Hcont & Hlow & Hup & _).
  simpl in *.
  split; [done|]. split; [done|]. split; [done|]. split; [lia|]. split; [lia|].
  split; [lia|]. split; [lia|]. split; [intros Hs'; specialize (Hstop Hs'); lia|].
  intros Hs'. specialize (Hcont Hs'). lia.
Qed.

(** X6. A file that no diff of the batch names holds after [apply_diffs]
    what it held before, whether the batch went through, failed or was rolled
    back. *)
Theorem apply_diffs_touches_only_its_files
    (e : Engine) (w : World) (diffs : list FileDiff) (dry_run stop_on_error : bool)
    (fp : string) :
  Forall (fun d => file_path d <> fp) diffs ->
  files (fst (fst (apply_diffs e w diffs dry_run stop_on_error))) !! fp = files w !! fp.
Proof.
  intros Hfp. unfold apply_diffs.
  match goal with |- context [apply_loop _ _ _ _ _ ?s _ ?r] =>
    pose proof (apply_loop_accounting e dry_run stop_on_error diffs w 0%nat s r) as Hloop end.
  destruct (apply_loop e dry_run stop_on_error w 0 [] diffs _) as [[w' diffs'] r].
  destruct Hloop as (_ & _ & _ & _ & _ & _ & _ & _ & _ & Hfr).
  simpl. apply Hfr; [constructor | done].
Qed.

(** X7. When every diff of a batch applies in turn, [apply_diffs] returns
    the world and the diffs those calls leave, and reports every diff
    applied, none failed, no error: the result is a success. *)
Theorem apply_diffs_all_applied
    (e : Engine) (w : World) (diffs : list FileDiff) (dry_run stop_on_error : bool)
    (w1 : World) (diffs1 : list FileDiff) :
  apply_each e dry_run w diffs = Some (w1, diffs1) ->
  apply_diffs e w diffs dry_run stop_on_error =
    (w1, diffs1,
     {| total := Z.of_nat (List.length diffs); ar_applied := Z.of_nat (List.length diffs);
        failed := 0; skipped := 0; errors := [] |}) /\
  ApplyResult_success (snd (apply_diffs e w diffs dry_run stop_on_error)) = true.
Proof.
  intros Heach.
  assert (apply_diffs e w diffs dry_run stop_on_error =
    (w1, diffs1,
     {| total := Z.of_nat (List.length diffs); ar_applied := Z.of_nat (List.length diffs);
        failed := 0; skipped := 0; errors := [] |})) as Hres.
  { unfold apply_diffs.
    pose proof (apply_loop_prefix e dry_run stop_on_error diffs w 0%nat [] []
                  {| total := Z.of_nat (List.length diffs); ar_applied := 0; failed := 0;
                     skipped := 0; errors := [] |} w1 diffs1 Heach) as Hloop.
    rewrite app_nil_r in Hloop. rewrite Hloop. simpl. by rewrite map_fst_flag. }
  by rewrite Hres.
Qed.

(** The dry-run loop. *)
Lemma apply_loop_dry (e : Engine) (stop : bool) (todo : list FileDiff) :
  forall w idx seen result,
    stop = false \/
      (Forall (fun d => applied d = false) (map fst seen) /\
       Forall (fun d => applied d = false) todo) ->
    fst (apply_loop e true stop w idx seen todo result) = (w, map fst seen ++ todo).
Proof.
  induction todo as [|d rest IH]; intros w idx seen result Hcase.
  - simpl. by rewrite app_nil_r.
  - cbn [apply_loop]. pose proof (apply_diff_dry e w d) as Hdry.
    destruct (apply_diff e w d true) as [[w1 d1] [ok|exc]]; simpl in Hdry;
      injection Hdry as -> ->.
    + rewrite IH.
      * by rewrite map_app, <- app_assoc.
      * destruct Hcase as [->|[Hseen [Hd Hrest]%Forall_cons]]; [by left|right].
        split; [|done]. rewrite map_app. apply Forall_app. split; [done|].
        by repeat constructor.
    + destruct stop.
      * destruct Hcase as [?|[Hseen _]]; [done|].
        rewrite (rollback_diffs_unapplied w (applied_so_far seen))
          by (by apply applied_so_far_Forall).
        simpl. by rewrite write_back_same.
      * rewrite IH; [|by left]. by rewrite map_app, <- app_assoc.
Qed.

(** X8. With [dry_run], [apply_diffs] leaves the workspace and the diffs
    as they are, provided [stop_on_error] is off or no diff of the batch
    comes in marked applied (with [stop_on_error] a failure rolls back the
    diffs validated so far, which undoes one that was marked applied). *)
Theorem apply_diffs_dry_run_writes_nothing
    (e : Engine) (w : World) (diffs : list FileDiff) (stop_on_error : bool) :
  stop_on_error = false \/ Forall (fun d => applied d = false) diffs ->
  fst (apply_diffs e w diffs true stop_on_error) = (w, diffs).
Proof.
  intros Hcase. unfold apply_diffs. rewrite apply_loop_dry; [done|].
  destruct Hcase as [->|Hall]; [by left|right]. split; [constructor | done].
Qed.

End BatchInvariants.

(** * Further properties of the Execution Engine *)

Section PlanExecution.
Context {lib : PyLib}.
Import DiffEngine Executor.

(** What the loop of [_partition_steps] keeps true of the independent steps. *)
Lemma partition_loop_independent (steps : list (PlanStep * generation)) :
  forall seen,
    let '(independent, dependent) := partition_loop seen steps in
    Forall (fun run => step_action (fst run) = Some "create"%string
                       /\ step_dependencies (fst run) = []
                       /\ step_path run ∉ seen) independent /\
    NoDup (filter (fun fp => fp <> ""%string) (map step_path independent)) /\
    independent ++ dependent ≡ₚ steps /\
    sublist independent steps /\ sublist dependent steps.
Proof.
  induction steps as [|[step gen] rest IH]; intros seen.
  - simpl. repeat split; try done; constructor.
  - cbn [partition_loop].
    set (fp := or_empty (step_file_path step)).
    specialize (IH (if String.eqb fp "" then seen else ({[ fp ]} ∪ seen))).
    destruct (partition_loop _ rest) as [independent dependent].
    destruct IH as (Hall & Hnodup & Hperm & Hsub1 & Hsub2).
    assert (Forall (fun run => step_action (fst run) = Some "create"%string
                       /\ step_dependencies (fst run) = []
                       /\ (step_path run ∉ seen)
                       /\ (fp <> ""%string -> step_path run <> fp)) independent) as Hall'.
    { eapply Forall_impl; [exact Hall|]. intros run (Ha & Hd & Hs).
      split; [done|]. split; [done|].
      destruct (String.eqb fp "") eqn:Hfp.
      - apply String.eqb_eq in Hfp. split; [done|]. by intros [].
      - split; [set_solver|]. intros _ Heq. apply Hs. rewrite Heq. set_solver. }
    destruct (bool_decide (step_dependencies step = [])) eqn:Hdeps; simpl;
      [destruct (bool_decide (fp ∉ seen)) eqn:Hseen; simpl;
       [destruct (bool_decide (step_action step = Some "create"%string)) eqn:Hact; simpl|]|].
    + apply bool_decide_eq_true in Hdeps, Hseen, Hact.
      split.
      { constructor; [done|]. eapply Forall_impl; [exact Hall'|]. by intros run (? & ? & ? & _). }
      split.
      { destruct (decide (fp <> ""%string)) as [Hne|Heq].
        - rewrite filter_cons_True by done. constructor; [|done].
          intros [_ Hin]%list_elem_of_filter.
          apply list_elem_of_In, in_map_iff in Hin as (run & Hrun & Hin).
          apply list_elem_of_In in Hin.
          rewrite Forall_forall in Hall'. destruct (Hall' run Hin) as (_ & _ & _ & Hfresh).
          by apply Hfresh.
        - by rewrite filter_cons_False. }
      split; [simpl; by constructor|]. split; [by constructor | by constructor].
    + split.
      { eapply Forall_impl; [exact Hall'|]. by intros run (? & ? & ? & _). }
      split; [done|].
      split; [by rewrite <- Permutation_middle; constructor|].
      split; [by constructor | by constructor].
    + split.
      { eapply Forall_impl; [exact Hall'|]. by intros run (? & ? & ? & _). }
      split; [done|].
      split; [by rewrite <- Permutation_middle; constructor|].
      split; [by constructor | by constructor].
    + split.
      { eapply Forall_impl; [exact Hall'|]. by intros run (? & ? & ? & _). }
      split; [done|].
      split; [by rewrite <- Permutation_middle; constructor|].
      split; [by constructor | by constructor].
Qed.

(** X9. [_partition_steps] puts in the independent group only create
    steps without dependencies, no two of them naming the same file (steps
    without a file path apart); the two groups together hold every step of
    the plan once, and each keeps the order of the plan. *)
Theorem partition_steps_independent (steps : list (PlanStep * generation)) :
  let '(independent, dependent) := _partition_steps steps in
  Forall (fun run => step_action (fst run) = Some "create"%string
                     /\ step_dependencies (fst run) = []) independent /\
  NoDup (filter (fun fp => fp <> ""%string) (map step_path independent)) /\
  independent ++ dependent ≡ₚ steps /\
  sublist independent steps /\ sublist dependent steps.
Proof.
  unfold _partition_steps.
  pose proof (partition_loop_independent steps ∅) as Hloop.
  destruct (partition_loop ∅ steps) as [independent dependent].
  destruct Hloop as (Hall & Hrest). split; [|done].
  eapply Forall_impl; [exact Hall|]. by intros run (? & ? & _).
Qed.

Lemma create_diff_operation (w : World) fp new op orig :
  op <> MODIFY \/ orig <> None ->
  operation (create_diff w fp new op orig) = op /\
  original_content (create_diff w fp new op orig) = orig.
Proof.
  intros Hcase. unfold create_diff.
  destruct op, orig as [o|]; simpl; try done. by destruct Hcase.
Qed.

(** What a step that succeeded returned. *)
Lemma execute_step_ok_inv (w : World) (step : PlanStep) (gen : generation) d fp action :
  _execute_step w step gen = StepOk d fp action ->
  fp = or_empty (step_file_path step) /\ fp <> ""%string /\
  action = default "modify"%string (step_action step) /\ known_action action /\
  file_path d = fp /\ applied d = false /\ backup_path d = None /\
  op_value (operation d) = action.
Proof.
  unfold _execute_step, known_action.
  destruct (String.eqb (or_empty (step_file_path step)) "") eqn:Hfp; [done|].
  apply String.eqb_neq in Hfp.
  destruct (String.eqb (default "modify"%string (step_action step)) "create") eqn:Hc.
  { apply String.eqb_eq in Hc. intros [= <- <- <-].
    match goal with |- context [create_diff ?w ?f ?n ?o ?g] =>
      destruct (create_diff_fields w f n o g) as (Hp & _ & Ha & Hb & _);
      destruct (create_diff_operation w f n o g) as [Hop _]; [by left|] end.
    rewrite Hop. repeat split; try done; by auto. }
  destruct (String.eqb (default "modify"%string (step_action step)) "modify") eqn:Hm.
  { apply String.eqb_eq in Hm.
    destruct (read_original w _) as [original|err]; [|done]. intros [= <- <- <-].
    match goal with |- context [create_diff ?w ?f ?n ?o ?g] =>
      destruct (create_diff_fields w f n o g) as (Hp & _ & Ha & Hb & _);
      destruct (create_diff_operation w f n o g) as [Hop _]; [by right|] end.
    rewrite Hop. repeat split; try done; by auto. }
  destruct (String.eqb (default "modify"%string (step_action step)) "delete") eqn:Hd; [|done].
  apply String.eqb_eq in Hd. intros [= <- <- <-].
  match goal with |- context [create_diff ?w ?f ?n ?o ?g] =>
    destruct (create_diff_fields w f n o g) as (Hp & _ & Ha & Hb & _);
    destruct (create_diff_operation w f n o g) as [Hop _]; [by left|] end.
  rewrite Hop. repeat split; try done; by auto.
Qed.

(** One turn of the merge loop keeps the books of the result. *)
Lemma merge_one_accounting (w : World) (results : Results) (step : PlanStep) (gen : generation) :
  files_generated results = Z.of_nat (List.length (diffs results)) ->
  (List.length (files_created results) + List.length (files_modified results)
     + List.length (files_deleted results) = List.length (diffs results))%nat ->
  (success results = true <-> res_errors results = []) ->
  Forall (fun d => applied d = false /\ backup_path d = None) (diffs results) ->
  let merged := merge_one results step (_execute_step w step gen) in
  files_generated merged = Z.of_nat (List.length (diffs merged)) /\
  (List.length (files_created merged) + List.length (files_modified merged)
     + List.length (files_deleted merged) = List.length (diffs merged))%nat /\
  (success merged = true <-> res_errors merged = []) /\
  Forall (fun d => applied d = false /\ backup_path d = None) (diffs merged) /\
  res_dry_run merged = res_dry_run results.
Proof.
  intros Hgen Hlists Hflag Hall.
  destruct (_execute_step w step gen) as [d fp action|err] eqn:Hstep; simpl.
  - destruct (execute_step_ok_inv _ _ _ _ _ _ Hstep)
      as (_ & _ & Hact & Hknown & _ & Ha & Hb & _).
    rewrite <- Hact.
    split; [rewrite length_app; simpl; lia|].
    split.
    { rewrite length_app. simpl.
      destruct Hknown as [-> | [-> | ->]]; simpl; rewrite length_app; simpl; lia. }
    split; [done|]. split; [|done].
    apply Forall_app. split; [done|]. by repeat constructor.
  - split; [done|]. split; [done|]. split; [|done].
    split; [done|]. intros Hnil. by destruct (res_errors results).
Qed.

Lemma merge_results_accounting (w : World) (steps : list (PlanStep * generation)) :
  forall results,
    files_generated results = Z.of_nat (List.length (diffs results)) ->
    (List.length (files_created results) + List.length (files_modified results)
       + List.length (files_deleted results) = List.length (diffs results))%nat ->
    (success results = true <-> res_errors results = []) ->
    Forall (fun d => applied d = false /\ backup_path d = None) (diffs results) ->
    let merged := _merge_results results (run_steps w steps) in
    files_generated merged = Z.of_nat (List.length (diffs merged)) /\
    (List.length (files_created merged) + List.length (files_modified merged)
       + List.length (files_deleted merged) = List.length (diffs merged))%nat /\
    (success merged = true <-> res_errors merged = []) /\
    Forall (fun d => applied d = false /\ backup_path d = None) (diffs merged) /\
    res_dry_run merged = res_dry_run results.
Proof.
  induction steps as [|[step gen] rest IH]; intros results Hgen Hlists Hflag Hall.
  - simpl. done.
  - destruct (merge_one_accounting w results step gen Hgen Hlists Hflag Hall)
      as (Hgen1 & Hlists1 & Hflag1 & Hall1 & Hdry1).
    destruct (IH _ Hgen1 Hlists1 Hflag1 Hall1) as (? & ? & ? & ? & Hdry2).
    unfold _merge_results, run_steps in *. simpl in *.
    repeat split; try tauto. by rewrite Hdry2.
Qed.

(** X10. In the result that [execute_plan] collects from the steps, before
    anything is applied, [files_generated] counts the diffs, every diff is
    listed once under created, modified or deleted, [success] is true exactly
    when no error was recorded, [dry_run] is as asked, and no diff is marked
    applied or carries a backup path. *)
Theorem collect_accounting (w : World) (steps : list (PlanStep * generation)) (dry_run : bool) :
  let r := collect w steps dry_run in
  files_generated r = Z.of_nat (List.length (diffs r)) /\
  (List.length (files_created r) + List.length (files_modified r)
     + List.length (files_deleted r) = List.length (diffs r))%nat /\
  (success r = true <-> res_errors r = []) /\
  Forall (fun d => applied d = false /\ backup_path d = None) (diffs r) /\
  res_dry_run r = dry_run.
Proof.
  unfold collect. destruct (_partition_steps steps) as [independent dependent].
  match goal with |- context [_merge_results ?r0 (run_steps w independent)] =>
    destruct (merge_results_accounting w independent r0) as (H1 & H2 & H3 & H4 & H5);
      [done|done|done|constructor|] end.
  match goal with |- context [_merge_results ?r1 (run_steps w dependent)] =>
    destruct (merge_results_accounting w dependent r1 H1 H2 H3 H4) as (? & ? & ? & ? & H6) end.
  simpl in *. repeat split; try tauto. by rewrite H6, H5.
Qed.

(** X11. With [dry_run], [execute_plan] returns the collected result and
    leaves the world as it is: nothing is handed to the Mutation Engine, and
    every step of the plan has left a diff or an error. *)
Theorem execute_plan_dry_run
    (e : Engine) (llm : nat -> generation) (w : World) (p : Plan) :
  execute_plan e llm w p true = (w, Ok (collect w (plan_runs llm p) true)) /\
  (List.length (diffs (collect w (plan_runs llm p) true))
   + List.length (res_errors (collect w (plan_runs llm p) true))
   = List.length (plan_steps p))%nat.
Proof.
  split.
  - unfold execute_plan. fold (plan_runs llm p).
    by destruct (diffs (collect w (plan_runs llm p) true)).
  - rewrite collect_counts. unfold plan_runs. by rewrite length_imap.
Qed.



End PlanExecution.

Section GeneratedText.
Import DiffEngine Executor.

Lemma py_len_nonneg (s : string) : 0 <= py_len s.
Proof. induction s as [|c s IH]; simpl; [done|]. destruct (_ && _); lia. Qed.

Lemma py_len_app (a b : string) : py_len (a +:+ b) = py_len a + py_len b.
Proof. induction a as [|c a IH]; simpl; [done|]. rewrite IH. lia. Qed.

Lemma prefix_app (a b : string) : String.prefix a (a +:+ b) = true.
Proof.
  induction a as [|c a IH]; simpl; [by destruct b|].
  destruct (ascii_dec c c); [done|congruence].
Qed.

Lemma count_char_app (c : ascii) (a b : string) :
  count_char c (a +:+ b) = (count_char c a + count_char c b)%nat.
Proof. induction a as [|x a IH]; simpl; [done|]. rewrite IH. lia. Qed.

(** X14. For an original of more than 50 characters,
    [_generate_modification] never returns fewer than 20 characters: it
    returns the generated code when that has at least 20, and otherwise the
    original followed by a TODO line, a text that begins with the whole
    original. *)
Theorem generate_modification_keeps_long_originals
    (original intent : string) (gen : generation) :
  50 < py_len original ->
  20 <= py_len (_generate_modification original intent gen) /\
  ((exists code, gen = GenCode code /\ 20 <= py_len code /\
      _generate_modification original intent gen = code)
   \/ _generate_modification original intent gen = with_todo original intent) /\
  startswith (with_todo original intent) original = true.
Proof.
  intros Hlong.
  assert (20 <= py_len (with_todo original intent)) as Htodo.
  { unfold with_todo. rewrite py_len_app.
    pose proof (py_len_nonneg (newline +:+ newline +:+ "# TODO: " +:+ intent +:+ newline)). lia. }
  split; [|split].
  - destruct gen as [code|exc]; simpl; [|done].
    destruct (py_len code <? 20) eqn:Hshort; simpl.
    + apply Z.ltb_lt in Hlong as ->. done.
    + apply Z.ltb_ge in Hshort. done.
  - destruct gen as [code|exc]; simpl; [|by right].
    destruct (py_len code <? 20) eqn:Hshort; simpl.
    + apply Z.ltb_lt in Hlong as ->. by right.
    + apply Z.ltb_ge in Hshort. left. by exists code.
  - unfold startswith, with_todo. apply prefix_app.
Qed.

(** X15. The text of [_stub] holds the line breaks of the intent, and of
    the file name for the five languages whose stub prints it, and no other:
    the separators its f-strings spell are the two characters backslash and
    n. *)
Theorem stub_breaks_no_line (fp language intent : string) :
  let line_breaks := count_char (ascii_of_nat 10) in
  line_breaks (_stub fp language intent)
  = (line_breaks intent
     + if bool_decide (language ∈ ["python"; "typescript"; "javascript"; "sql"; "shell"]%string)
       then line_breaks (path_name fp) else 0)%nat.
Proof.
  intros line_breaks. unfold _stub, line_breaks, dq, bsn, em_dash.
  destruct (String.eqb language "python") eqn:H1.
  { apply String.eqb_eq in H1 as ->. repeat (simpl; rewrite ?count_char_app); lia. }
  destruct (String.eqb language "typescript") eqn:H2.
  { apply String.eqb_eq in H2 as ->. repeat (simpl; rewrite ?count_char_app); lia. }
  destruct (String.eqb language "javascript") eqn:H3.
  { apply String.eqb_eq in H3 as ->. repeat (simpl; rewrite ?count_char_app); lia. }
  destruct (String.eqb language "sql") eqn:H4.
  { apply String.eqb_eq in H4 as ->. repeat (simpl; rewrite ?count_char_app); lia. }
  destruct (String.eqb language "shell") eqn:H5.
  { apply String.eqb_eq in H5 as ->. repeat (simpl; rewrite ?count_char_app); lia. }
  apply String.eqb_neq in H1, H2, H3, H4, H5.
  rewrite bool_decide_eq_false_2.
  - repeat (simpl; rewrite ?count_char_app); lia.
  - rewrite !elem_of_cons, elem_of_nil. intuition.
Qed.

End GeneratedText.

Section RecordedDiffs.
Context {lib : PyLib}.
Import DiffEngine Database Executor.

Lemma DiffOperation_of_value (op : DiffOperation) : DiffOperation_of (op_value op) = Ok op.
Proof. by destruct op. Qed.

Lemma DiffOperation_of_inv (s : string) (op : DiffOperation) :
  DiffOperation_of s = Ok op -> s = op_value op.
Proof.
  unfold DiffOperation_of.
  destruct (String.eqb s "create") eqn:H1; [apply String.eqb_eq in H1; by intros [= <-]|].
  destruct (String.eqb s "modify") eqn:H2; [apply String.eqb_eq in H2; by intros [= <-]|].
  destruct (String.eqb s "delete") eqn:H3; [apply String.eqb_eq in H3; by intros [= <-]|].
  done.
Qed.

(** X16. [DiffOperation(value)] inverts [operation.value].  The list that
    [rollback_action] builds from the recorded rows raises exactly when the
    operation of some row is none of the three values; otherwise it holds one
    diff per row with the path, the operation and the contents of the row,
    none marked applied and none with a backup path. *)
Theorem file_diffs_of_rebuilds_rows (rows : list Database.Diff) :
  (forall op, DiffOperation_of (op_value op) = Ok op) /\
  (forall s op, DiffOperation_of s = Ok op -> s = op_value op) /\
  ((exists exc, file_diffs_of rows = Raise exc)
     <-> Exists (fun row => forall op, row_operation row <> op_value op) rows) /\
  (forall fds, file_diffs_of rows = Ok fds ->
     map file_path fds = map row_file_path rows /\
     map (fun d => op_value (operation d)) fds = map row_operation rows /\
     map original_content fds = map row_original_content rows /\
     map new_content fds = map row_new_content rows /\
     Forall (fun d => applied d = false /\ backup_path d = None) fds).
Proof.
  split; [exact DiffOperation_of_value|]. split; [exact DiffOperation_of_inv|].
  induction rows as [|row rest [IHraise IHok]]; simpl.
  - split; [|by intros fds [= <-]].
    split; [by intros [exc [=]] | by intros ?%Exists_nil].
  - destruct (DiffOperation_of (row_operation row)) as [op|exc] eqn:Hop.
    + apply DiffOperation_of_inv in Hop as Hvalue.
      destruct (file_diffs_of rest) as [fds'|exc'].
      * split.
        { split; [by intros [exc [=]]|].
          intros [Hrow|Hrest]%Exists_cons; [by destruct (Hrow op)|].
          apply IHraise in Hrest as [exc [=]]. }
        intros fds [= <-]. destruct (IHok fds' eq_refl) as (H1 & H2 & H3 & H4 & H5).
        simpl. rewrite H1, H2, H3, H4, Hvalue. repeat split; try done.
        constructor; done.
      * split; [|done]. split; [|by eauto].
        intros _. apply Exists_cons. right. apply IHraise. by eauto.
    + split; [|done]. split; [|by eauto].
      intros _. apply Exists_cons. left. intros op Hvalue.
      by rewrite Hvalue, DiffOperation_of_value in Hop.
Qed.

End RecordedDiffs.

(** * Further properties of the orchestrator *)

Section Cycle.
Context {lib : PyLib}.
Import DiffEngine Database Executor CoreEngine.

(** The cycle when the approval gate closes. *)
Lemma process_intent_at_gate (e : Engine) (c : Collaborators) (w : World) (a : Action)
    (p : Plan) :
  planner c = Ok p ->
  plan_requires_approval p = true \/ requires_approval a = true ->
  approved a <> Some true ->
  process_intent e c w a =
    ({| files := files w; backups := backups w; clock := S (clock w);
        refused := refused w |},
     set_status
       (set_plan (set_times (set_status a PLANNING) (Some (clock w)) (completed_at a)) p true)
       PENDING,
     {| res_action_id := action_id a; phases_completed := [PH_PLANNING];
        res_success := false; res_requires_approval := true; res_plan := Some p;
        res_execution := None; res_verification := None; res_reflection := None;
        res_error := None |}).
Proof.
  intros Hplan Hneeds Hnot. unfold process_intent, _plan. simpl. rewrite Hplan. simpl.
  assert ((if plan_requires_approval p then true else requires_approval a) = true) as ->
    by (destruct Hneeds as [-> | ->]; [done | by destruct (plan_requires_approval p)]).
  assert (default false (approved a) = false) as ->
    by (destruct (approved a) as [[|]|]; done).
  reflexivity.
Qed.

(** X17. When the plan asks for approval (or the action already required
    it) and the action is not approved, [process_intent] stops after
    planning: the action is [pending] with the plan stored, the result asks
    for approval, is not a success and lists the planning phase only, nothing
    was executed and no file or backup has changed. *)
Theorem approval_gate_stops_before_execution
    (e : Engine) (c : Collaborators) (w : World) (a : Action) (p : Plan) :
  planner c = Ok p ->
  plan_requires_approval p = true \/ requires_approval a = true ->
  approved a <> Some true ->
  let '(w', a', r) := process_intent e c w a in
  files w' = files w /\ backups w' = backups w /\
  status a' = PENDING /\ requires_approval a' = true /\ plan a' = Some p /\
  execution_result a' = execution_result a /\ error a' = error a /\
  res_requires_approval r = true /\ res_success r = false /\
  phases_completed r = [PH_PLANNING] /\ res_plan r = Some p /\
  res_execution r = None /\ res_error r = None.
Proof.
  intros Hplan Hneeds Hnot.
  rewrite (process_intent_at_gate e c w a p Hplan Hneeds Hnot). simpl. done.
Qed.

(** X18. [process_intent] leaves the action pending, failed, rolled back
    or completed.  The result is a success exactly when the action is
    completed, asks for approval exactly when it is pending, and carries an
    error (the one stored on the action) exactly when it is failed or rolled
    back.  A completed cycle went through the four phases with a verification
    that passed; a rolled-back one through planning and execution; a failed
    one through planning at most.  When the plan generator raises, the action
    is failed with the message [Planning failed: ...], no phase is listed and
    no file or backup has changed.  [started_at] is the time of the call. *)
Theorem process_intent_outcomes (e : Engine) (c : Collaborators) (w : World) (a : Action) :
  let '(w', a', r) := process_intent e c w a in
  (status a' = PENDING \/ status a' = FAILED \/ status a' = ROLLED_BACK
   \/ status a' = COMPLETED) /\
  (res_success r = true <-> status a' = COMPLETED) /\
  (res_requires_approval r = true <-> status a' = PENDING) /\
  (is_Some (res_error r) <-> status a' = FAILED \/ status a' = ROLLED_BACK) /\
  (status a' = FAILED \/ status a' = ROLLED_BACK -> error a' = res_error r) /\
  (status a' = COMPLETED ->
     phases_completed r = [PH_PLANNING; PH_EXECUTING; PH_VERIFYING; PH_REFLECTING] /\
     is_Some (completed_at a') /\
     exists v, res_verification r = Some v /\ Verifier.passed v = true) /\
  (status a' = ROLLED_BACK -> phases_completed r = [PH_PLANNING; PH_EXECUTING]) /\
  (status a' = FAILED -> phases_completed r = [] \/ phases_completed r = [PH_PLANNING]) /\
  (forall msg, planner c = Raise msg ->
     status a' = FAILED /\ phases_completed r = [] /\
     res_error r = Some ("Planning failed: " +:+ msg)%string /\
     files w' = files w /\ backups w' = backups w) /\
  started_at a' = Some (clock w) /\ res_action_id r = action_id a.
Proof.
  unfold process_intent, _plan. simpl.
  destruct (planner c) as [p|exc]; simpl.
  2:{ repeat split; try done; try (intros [? ?]; done); try (intros [|]; done);
        try (by intros [= <-]); try (by left); try (by right; left); try (by eauto);
        congruence. }
  destruct (_ && _); simpl.
  { repeat split; try done; try (intros [? ?]; done); try (intros [|]; done);
      try (by left). }
  unfold _execute.
  destruct (execute_plan e (llm c) _ p false) as [w1 [execution|exc]]; simpl.
  2:{ repeat split; try done; try (intros [? ?]; done); try (intros [|]; done);
        try (by left); try (by right; left); try (by right); by eauto. }
  unfold _verify.
  destruct (Verifier.passed _) eqn:Hpassed; simpl.
  - destruct (_reflect c _) as [a' r] eqn:Hrefl. simpl.
    assert (started_at a' = Some (clock w)) as Hstarted.
    { unfold _reflect in Hrefl. destruct (reflector c); by injection Hrefl as <- _. }
    repeat split; try done; try (intros [? ?]; done); try (intros [|]; done);
      try (by right; right; right); by eauto.
  - repeat split; try done; try (intros [? ?]; done); try (intros [|]; done);
      try (by right; right; left); try (by right); by eauto.
Qed.

Lemma reflect_keeps (c : Collaborators) (a : Action) :
  status (fst (_reflect c a)) = status a /\ started_at (fst (_reflect c a)) = started_at a /\
  error (fst (_reflect c a)) = error a /\
  execution_result (fst (_reflect c a)) = execution_result a /\
  verification_result (fst (_reflect c a)) = verification_result a.
Proof. unfold _reflect. by destruct (reflector c). Qed.

(** X19. What the reflection generator answers, or whether it raises, has
    no bearing on the cycle: the workspace, the status and the error of the
    action, the execution and verification payloads, the success flag, the
    phases and the error of the result are the same.  When it raises in a
    cycle that completes, the result is a success whose reflection is the
    fallback [{summary: Reflection failed, error: ...}], and the reflection
    stored on the action is left as it was. *)
Theorem reflection_failure_is_not_fatal
    (e : Engine) (c : Collaborators) (w : World) (a : Action)
    (other : outcome string Reflection) :
  let run := process_intent e c w a in
  let run' := process_intent e (with_reflector c other) w a in
  fst (fst run') = fst (fst run) /\
  status (snd (fst run')) = status (snd (fst run)) /\
  error (snd (fst run')) = error (snd (fst run)) /\
  execution_result (snd (fst run')) = execution_result (snd (fst run)) /\
  verification_result (snd (fst run')) = verification_result (snd (fst run)) /\
  res_success (snd run') = res_success (snd run) /\
  phases_completed (snd run') = phases_completed (snd run) /\
  res_error (snd run') = res_error (snd run) /\
  (forall exc, other = Raise exc -> status (snd (fst run')) = COMPLETED ->
     res_success (snd run') = true /\
     res_reflection (snd run')
     = Some {| refl_summary := Some "Reflection failed"%string; refl_error := Some exc |} /\
     reflection (snd (fst run')) = reflection a).
Proof.
  unfold process_intent, _plan, with_reflector. simpl.
  destruct (planner c) as [p|exc]; simpl; [|done].
  destruct (_ && _); simpl; [done|].
  unfold _execute. simpl.
  destruct (execute_plan e (llm c) _ p false) as [w1 [execution|exc]]; simpl; [|done].
  unfold _verify. simpl.
  destruct (Verifier.passed _) eqn:Hpassed; simpl; [|done].
  unfold _reflect. simpl.
  destruct (reflector c) as [r|exc], other as [r'|exc']; simpl;
    repeat split; try done; congruence.
Qed.

(** An approved action is not held at the gate. *)
Lemma process_intent_approved (e : Engine) (c : Collaborators) (w : World) (a : Action) :
  approved a = Some true ->
  status (snd (fst (process_intent e c w a))) <> PENDING /\
  res_requires_approval (snd (process_intent e c w a)) = false.
Proof.
  intros Happroved. unfold process_intent, _plan. simpl.
  destruct (planner c) as [p|exc]; simpl; [|done].
  rewrite Happroved. simpl. rewrite andb_false_r. unfold _execute.
  destruct (execute_plan e (llm c) _ p false) as [w1 [execution|exc]]; simpl; [|done].
  unfold _verify.
  destruct (Verifier.passed _); simpl; [|done].
  destruct (_reflect c _) as [a2 r2]. done.
Qed.

(** X20. [approve_action] marks the action approved at the time of the
    call and leaves its status and the files alone; an approved action is
    never left pending by [process_intent] and its result never asks for
    approval.  [reject_action] marks the action not approved and cancelled;
    processed again, a rejected action whose plan asks for approval is held
    at the gate: nothing is executed and no file changes. *)
Theorem approval_decides_the_gate
    (e : Engine) (c : Collaborators) (w0 w : World) (a : Action) :
  let accepted := snd (approve_action w0 a) in
  let rejected := reject_action a in
  (approved accepted = Some true /\ approved_at accepted = Some (clock w0) /\
   status accepted = status a /\
   files (fst (approve_action w0 a)) = files w0) /\
  (status (snd (fst (process_intent e c w accepted))) <> PENDING /\
   res_requires_approval (snd (process_intent e c w accepted)) = false) /\
  (approved rejected = Some false /\ status rejected = CANCELLED) /\
  (forall p, planner c = Ok p ->
     plan_requires_approval p = true \/ requires_approval a = true ->
     status (snd (fst (process_intent e c w rejected))) = PENDING /\
     files (fst (fst (process_intent e c w rejected))) = files w /\
     res_execution (snd (process_intent e c w rejected)) = None).
Proof.
  intros accepted rejected.
  split; [done|]. split; [|split; [done|]].
  - by apply process_intent_approved.
  - intros p Hplan Hneeds.
    rewrite (process_intent_at_gate e c w rejected p Hplan); [done|done|done].
Qed.

End Cycle.

(** * Further properties of the Verification Engine *)

Section VerificationFailures.
Import DiffEngine Verifier.

Lemma combine_lint_sticky (results : list (outcome string LintResult)) :
  forall combined, valid combined = false -> valid (combine_lint combined results) = false.
Proof.
  induction results as [|[r|exc] rest IH]; intros combined Hinvalid; simpl; [done| |by apply IH].
  apply IH. simpl. rewrite Hinvalid. by destruct (valid r).
Qed.

Lemma combine_lint_invalid (results : list (outcome string LintResult)) (r : LintResult) :
  Ok r ∈ results -> valid r = false ->
  forall combined, valid (combine_lint combined results) = false.
Proof.
  intros Hin Hinvalid. induction results as [|x rest IH]; intros combined.
  - by apply elem_of_nil in Hin.
  - apply elem_of_cons in Hin as [<-|Hin].
    + simpl. apply combine_lint_sticky. simpl. by rewrite Hinvalid.
    + destruct x as [r'|exc]; simpl; by apply IH.
Qed.

Lemma check_syntax_parallel_error (t : Tools) (w : World) (file_paths : list string)
    (fp : string) :
  fp ∈ file_paths -> _check_file_syntax t w fp <> Ok [] ->
  fst (_check_syntax_parallel t w file_paths) = false.
Proof.
  intros Hin Hbad. unfold _check_syntax_parallel. simpl.
  apply bool_decide_eq_false. intros Hnone.
  induction file_paths as [|x rest IH]; [by apply elem_of_nil in Hin|].
  simpl in Hnone. apply app_eq_nil in Hnone as [Hx Hrest].
  apply elem_of_cons in Hin as [->|Hin]; [|by apply IH].
  destruct (_check_file_syntax t w x) as [errs|exc]; [by subst errs | done].
Qed.

(** X21. [verify_execution] reports [passed = false] whenever the test
    run of the detected framework did not pass, whenever the syntax check of
    a changed file returns an error or raises (the report then has
    [syntax_valid = false]), and whenever a linter that ran on the changed
    files returns an invalid result (the report then has
    [lint_valid = false]).  A report that passed has both flags true, and
    with no changed file both checks are skipped and count as valid. *)
Theorem verify_execution_fails_on_any_defect
    (t : Tools) (w : World) (files_created files_modified : list string) :
  let report := verify_execution t w files_created files_modified in
  let changed := files_created ++ files_modified in
  let py_files := filter (fun fp => endswith fp ".py" = true) changed in
  let js_files :=
    filter (fun fp => existsb (endswith fp) [".js"; ".jsx"; ".ts"; ".tsx"]%string = true)
      changed in
  (_has_pytest w = true -> tr_passed (run_pytest t w) = false -> passed report = false) /\
  (_has_pytest w = false -> _has_npm_test t w = true ->
     tr_passed (run_npm_test t w) = false -> passed report = false) /\
  (forall fp, fp ∈ changed -> _check_file_syntax t w fp <> Ok [] ->
     syntax_valid report = false /\ passed report = false) /\
  (forall r, py_files <> [] -> run_ruff t w py_files = Ok r -> valid r = false ->
     lint_valid report = false /\ passed report = false) /\
  (forall r, js_files <> [] -> run_eslint t w js_files = Ok r -> valid r = false ->
     lint_valid report = false /\ passed report = false) /\
  (passed report = true -> syntax_valid report = true /\ lint_valid report = true) /\
  (changed = [] -> syntax_valid report = true /\ lint_valid report = true).
Proof.
  intros report changed py_files js_files.
  assert (syntax_valid report =
            match changed with
            | [] => true
            | _ => fst (_check_syntax_parallel t w changed)
            end
          /\ lint_valid report =
            match changed with [] => true | _ => valid (_run_linting t w changed) end
          /\ (passed report = true ->
                syntax_valid report = true /\ lint_valid report = true /\
                (if _has_pytest w then tr_passed (run_pytest t w)
                 else if _has_npm_test t w then tr_passed (run_npm_test t w)
                 else true) = true))
    as (Hsyntax & Hlint & Hpassed).
  { subst report. unfold verify_execution. fold changed.
    destruct (_has_pytest w); [|destruct (_has_npm_test t w)]; cbv iota beta;
      (destruct changed as [|fp rest];
       [|destruct (_check_syntax_parallel t w (fp :: rest)) as [syntax_ok syntax_errors]];
       simpl; (split; [done|]); (split; [done|]);
       intros Hall; repeat (apply andb_true_iff in Hall as [Hall ?]); done). }
  assert (forall b : bool, (passed report = true -> b = true) -> b = false ->
            passed report = false) as Hneg.
  { intros b Himp Hb. destruct (passed report); [|done]. rewrite Himp in Hb; done. }
  split; [|split; [|split; [|split; [|split; [|split]]]]].
  - intros Hpytest Hfailed. apply (Hneg (tr_passed (run_pytest t w))); [|done].
    intros Hp. apply Hpassed in Hp as (_ & _ & Hp). by rewrite Hpytest in Hp.
  - intros Hpytest Hnpm Hfailed. apply (Hneg (tr_passed (run_npm_test t w))); [|done].
    intros Hp. apply Hpassed in Hp as (_ & _ & Hp). by rewrite Hpytest, Hnpm in Hp.
  - intros fp Hin Hbad.
    assert (syntax_valid report = false) as Hinvalid.
    { rewrite Hsyntax. destruct changed as [|x rest] eqn:Hchanged; [by apply elem_of_nil in Hin|].
      by apply (check_syntax_parallel_error t w _ fp). }
    split; [done|]. apply (Hneg (syntax_valid report)); [|done].
    intros Hp. by apply Hpassed in Hp as (? & _).
  - intros r Hsome Hruff Hinvalid.
    assert (lint_valid report = false) as Hbad.
    { rewrite Hlint. destruct changed as [|x rest] eqn:Hchanged; [done|].
      unfold _run_linting. fold py_files. fold js_files.
      destruct py_files as [|py more] eqn:Hpy; [done|].
      simpl app. cbv iota.
      apply (combine_lint_invalid _ r); [|done]. rewrite Hruff. apply elem_of_cons. by left. }
    split; [done|]. apply (Hneg (lint_valid report)); [|done].
    intros Hp. by apply Hpassed in Hp as (_ & ? & _).
  - intros r Hsome Heslint Hinvalid.
    assert (lint_valid report = false) as Hbad.
    { rewrite Hlint. destruct changed as [|x rest] eqn:Hchanged; [done|].
      unfold _run_linting. fold py_files. fold js_files.
      destruct js_files as [|js more] eqn:Hjs; [done|].
      assert (forall pre : list (outcome string LintResult),
                valid (match pre ++ [run_eslint t w (js :: more)] with
                       | [] => {| valid := true; lint_errors := []; lint_warnings := [];
                                  tool := "none" |}
                       | _ :: _ =>
                           combine_lint {| valid := true; lint_errors := [];
                                           lint_warnings := []; tool := "multi" |}
                             (pre ++ [run_eslint t w (js :: more)])
                       end) = false) as Hany.
      { intros pre. destruct (pre ++ [run_eslint t w (js :: more)]) as [|y ys] eqn:Hpre.
        - by destruct pre.
        - rewrite <- Hpre. apply (combine_lint_invalid _ r); [|done].
          rewrite Heslint. apply elem_of_app. right. apply elem_of_cons. by left. }
      apply Hany. }
    split; [done|]. apply (Hneg (lint_valid report)); [|done].
    intros Hp. by apply Hpassed in Hp as (_ & ? & _).
  - intros Hp. by apply Hpassed in Hp as (? & ? & _).
  - intros Hnone. rewrite Hsyntax, Hlint, Hnone. done.
Qed.

Lemma py_len_take_chars (s : string) :
  forall n, py_len (take_chars n s) <= Z.of_nat n.
Proof.
  induction s as [|c s IH]; intros n; [simpl; lia|].
  cbn [take_chars].
  destruct ((128 <=? nat_of_ascii c)%nat && (nat_of_ascii c <? 192)%nat) eqn:Hcont.
  - cbn [py_len].
    assert ((128 <=? Z.of_nat (nat_of_ascii c)) && (Z.of_nat (nat_of_ascii c) <? 192) = true)
      as ->.
    { apply andb_true_iff in Hcont as [H1%Nat.leb_le H2%Nat.ltb_lt].
      apply andb_true_iff. split; [apply Z.leb_le | apply Z.ltb_lt]; lia. }
    specialize (IH n). lia.
  - destruct n as [|n]; [simpl; lia|].
    cbn [py_len]. specialize (IH n). destruct ((128 <=? Z.of_nat _) && _); lia.
Qed.

Lemma prefix_take_chars (s : string) :
  forall n, String.prefix (take_chars n s) s = true.
Proof.
  induction s as [|c s IH]; intros n; simpl; [done|].
  destruct (_ && _); simpl.
  - destruct (ascii_dec c c); [by apply IH | done].
  - destruct n as [|n]; simpl; [done|].
    destruct (ascii_dec c c); [by apply IH | done].
Qed.

(** X22. The report of [verify_execution] holds at most 20 errors, 20
    warnings and 10 lint details and at most 8000 characters of test output;
    a coverage figure is given for pytest runs only; and in a report that
    passed no listed error mentions a syntax error. *)
Theorem verification_report_is_bounded
    (t : Tools) (w : World) (files_created files_modified : list string) :
  let report := verify_execution t w files_created files_modified in
  (List.length (rep_errors report) <= 20)%nat /\
  (List.length (rep_warnings report) <= 20)%nat /\
  (List.length (lint_details report) <= 10)%nat /\
  py_len (test_output report) <= 8000 /\
  (framework_used report = "pytest"%string \/ coverage_percent report = None) /\
  (passed report = true ->
     forall err, err ∈ rep_errors report -> contains (lower err) "syntax error" = false).
Proof.
  intros report.
  assert (forall (l : list string) n, (List.length (take n l) <= n)%nat) as Htake
    by (intros l n; rewrite length_take; lia).
  assert (forall s, py_len (take_chars (Z.to_nat 8000) s) <= 8000) as Hchars
    by (intros s; pose proof (py_len_take_chars s (Z.to_nat 8000)); lia).
  assert (forall (l : list string) n err,
            existsb (fun e => contains (lower e) "syntax error") l = false ->
            err ∈ take n l -> contains (lower err) "syntax error" = false) as Hnone.
  { intros l n err Hall Hin.
    assert (err ∈ l) as Hin'.
    { apply list_elem_of_lookup in Hin as [i Hi].
      apply lookup_take_Some in Hi as [Hi _]. by eapply list_elem_of_lookup_2. }
    apply list_elem_of_In in Hin'.
    destruct (contains (lower err) "syntax error") eqn:Herr; [|done].
    assert (existsb (fun e => contains (lower e) "syntax error") l = true) as Hex
      by (apply existsb_exists; eauto).
    congruence. }
  subst report. unfold verify_execution.
  destruct (_has_pytest w); [|destruct (_has_npm_test t w)]; cbv iota beta;
    (destruct (files_created ++ files_modified) as [|fp rest];
     [|destruct (_check_syntax_parallel t w (fp :: rest)) as [syntax_ok syntax_errors]];
     cbn [rep_errors rep_warnings lint_details test_output framework_used
          coverage_percent passed String.eqb Ascii.eqb Bool.eqb];
     (split; [apply Htake|]); (split; [apply Htake|]); (split; [apply Htake|]);
     (split; [apply Hchars|]); (split; [first [by left | by right]|]);
     intros Hpassed err Hin; apply andb_true_iff in Hpassed as [_ Hclean];
     apply negb_true_iff in Hclean; by apply (Hnone _ _ _ Hclean Hin)).
Qed.

(** X24. The syntax check of a changed file follows the language the
    executor detects for it: a file that exists is handed to the Python,
    TypeScript, JavaScript or JSON checker exactly when [_detect_language]
    calls it python, typescript, javascript or json, and is not checked (no
    error) for every other language; a file that does not exist is not
    checked. *)
Theorem syntax_check_follows_detected_language
    (t : Tools) (w : World) (rel : string) :
  _check_file_syntax t w rel =
    match files w !! rel with
    | None => Ok []
    | Some source =>
        let language := Executor._detect_language rel in
        if String.eqb language "python" then Ok (check_python_syntax t rel source)
        else if String.eqb language "typescript" then Ok (check_ts_syntax t rel source)
        else if String.eqb language "javascript" then check_js_syntax t rel source
        else if String.eqb language "json" then check_json_syntax t rel source
        else Ok []
    end.
Proof.
  unfold _check_file_syntax, Executor._detect_language.
  destruct (files w !! rel) as [source|]; [|done].
  generalize (lower (path_suffix rel)). intros suffix.
  unfold Executor.EXTENSION_TO_LANGUAGE, Executor.dict_get.
  repeat match goal with
         | |- context [String.eqb ?key suffix] =>
             destruct (String.eqb key suffix) eqn:?;
             [match goal with H : String.eqb _ suffix = true |- _ =>
                apply String.eqb_eq in H; subst suffix; reflexivity end|]
         end.
  repeat match goal with
         | H : String.eqb _ suffix = false |- _ =>
             rewrite String.eqb_sym in H; rewrite ?H; clear H
         end.
  reflexivity.
Qed.

End VerificationFailures.

(** * Further properties of the rate limiter *)

Section WindowCapacity.
Import RateLimiter.

Lemma expire_length (cutoff : Z) (timestamps : list Z) :
  (List.length (expire cutoff timestamps) <= List.length timestamps)%nat.
Proof.
  induction timestamps as [|t rest IH]; simpl; [done|].
  destruct (t <=? cutoff); simpl; lia.
Qed.

Lemma expire_subset (cutoff : Z) (timestamps : list Z) (t : Z) :
  t ∈ expire cutoff timestamps -> t ∈ timestamps.
Proof.
  induction timestamps as [|x rest IH]; simpl; [done|].
  destruct (x <=? cutoff); [|done]. intros Hin. apply elem_of_cons. right. by apply IH.
Qed.

Lemma expire_head (cutoff : Z) (timestamps : list Z) (oldest : Z) (rest : list Z) :
  expire cutoff timestamps = oldest :: rest -> cutoff < oldest.
Proof.
  induction timestamps as [|x more IH]; simpl; [done|].
  destruct (x <=? cutoff) eqn:Hx; [done|]. apply Z.leb_gt in Hx. by intros [= <- _].
Qed.

Lemma expire_all (cutoff : Z) (timestamps : list Z) :
  Forall (fun t => t <= cutoff) timestamps -> expire cutoff timestamps = [].
Proof.
  induction 1 as [|t rest Ht Hrest IH]; simpl; [done|].
  apply Z.leb_le in Ht. by rewrite Ht.
Qed.

Lemma after_calls_config (max_requests_ period_ : Z) (times : list Z) :
  max_requests (after_calls (Limiter_new max_requests_ period_) times) = max_requests_ /\
  period (after_calls (Limiter_new max_requests_ period_) times) = period_.
Proof.
  induction times as [|t times IH] using rev_ind; [done|].
  rewrite after_calls_snoc.
  destruct (acquire_config (after_calls (Limiter_new max_requests_ period_) times) t)
    as [-> ->]. done.
Qed.

Lemma acquire_capacity (l : Limiter) (now : Z) (times : list Z) :
  Z.of_nat (List.length (_timestamps l)) <= Z.max 0 (max_requests l) ->
  Forall (fun t => t ∈ times) (_timestamps l) ->
  Z.of_nat (List.length (_timestamps (fst (acquire l now)))) <= Z.max 0 (max_requests l) /\
  Forall (fun t => t ∈ times ++ [now]) (_timestamps (fst (acquire l now))).
Proof.
  intros Hcap Hfrom. unfold acquire. simpl.
  pose proof (expire_length (now - period l * 1000000) (_timestamps l)) as Hlen.
  assert (Forall (fun t => t ∈ times ++ [now])
            (expire (now - period l * 1000000) (_timestamps l))) as Hexp.
  { apply Forall_forall. intros t Hin%expire_subset.
    rewrite Forall_forall in Hfrom. apply elem_of_app. left. by apply Hfrom. }
  destruct (max_requests l <=? _) eqn:Hfull.
  - destruct (expire _ _) eqn:Hc; simpl in *; (split; [lia|done]).
  - apply Z.leb_gt in Hfull. simpl. rewrite length_app. simpl. split; [lia|].
    apply Forall_app. split; [done|]. repeat constructor.
    apply elem_of_app. right. by apply list_elem_of_singleton.
Qed.

Lemma limiter_capacity_aux (max_requests_ period_ : Z) (times : list Z) :
  let l := after_calls (Limiter_new max_requests_ period_) times in
  Z.of_nat (List.length (_timestamps l)) <= Z.max 0 max_requests_ /\
  Forall (fun t => t ∈ times) (_timestamps l).
Proof.
  induction times as [|t times IH] using rev_ind; simpl.
  - split; [lia | constructor].
  - rewrite after_calls_snoc.
    destruct IH as (Hcap & Hfrom).
    destruct (after_calls_config max_requests_ period_ times) as [Hmax Hperiod].
    destruct (acquire_capacity (after_calls (Limiter_new max_requests_ period_) times)
                t times) as [Hcap' Hfrom']; [by rewrite Hmax | done |].
    by rewrite Hmax in Hcap'.
Qed.

(** X25. After any sequence of calls, whatever the clock readings, the
    limiter holds at most [max_requests] timestamps (none when
    [max_requests] is not positive), each of them the reading of one of the
    calls, and its configuration is unchanged. *)
Theorem limiter_never_exceeds_capacity (max_requests_ period_ : Z) (times : list Z) :
  let l := after_calls (Limiter_new max_requests_ period_) times in
  Z.of_nat (List.length (_timestamps l)) <= Z.max 0 max_requests_ /\
  Forall (fun t => t ∈ times) (_timestamps l) /\
  max_requests l = max_requests_ /\ period l = period_.
Proof.
  intros l.
  destruct (limiter_capacity_aux max_requests_ period_ times) as [Hcap Hfrom].
  destruct (after_calls_config max_requests_ period_ times) as [Hmax Hperiod].
  done.
Qed.

(** X26. When [acquire] raises the rate-limit error (after calls made at
    clock readings that never go back), the error names the limiter's
    [max_requests] and [period], both positive, and the wait it announces is
    positive and at most one period. *)
Theorem retry_advice_is_within_the_period
    (max_requests_ period_ : Z) (times : list Z) (now : Z) (m p wait : Z) :
  Sorted Z.le (times ++ [now]) ->
  snd (acquire (after_calls (Limiter_new max_requests_ period_) times) now)
  = Raise (RateLimitError m p wait) ->
  m = max_requests_ /\ p = period_ /\ 0 < wait <= period_ * 1000000 /\
  0 < period_ /\ 0 < max_requests_.
Proof.
  intros Hsorted.
  destruct (after_calls_in_order max_requests_ period_ times now Hsorted)
    as ([_ Hbound] & Hmax & Hperiod).
  destruct (limiter_capacity_aux max_requests_ period_ times) as [Hcap _].
  revert Hbound Hmax Hperiod Hcap.
  generalize (after_calls (Limiter_new max_requests_ period_) times). intros l.
  intros Hbound Hmax Hperiod Hcap. unfold acquire. simpl.
  pose proof (expire_length (now - period l * 1000000) (_timestamps l)) as Hlen.
  destruct (max_requests l <=? _) eqn:Hfull; [|done].
  apply Z.leb_le in Hfull.
  destruct (expire _ _) as [|oldest rest] eqn:Hexp; [done|].
  intros [= <- <- <-].
  apply expire_head in Hexp as Hafter.
  assert (oldest <= now) as Hbefore.
  { rewrite Forall_forall in Hbound. apply Hbound.
    apply (expire_subset (now - period l * 1000000)). rewrite Hexp. by left. }
  simpl in Hlen. rewrite Hmax, Hperiod in *. repeat split; try lia.
Qed.

(** X27. When every recorded timestamp is at least one period old and
    [max_requests] is positive, [acquire] succeeds and the window holds the
    new timestamp only. *)
Theorem full_period_frees_the_limiter (l : Limiter) (now : Z) :
  0 < max_requests l ->
  Forall (fun t => t <= now - period l * 1000000) (_timestamps l) ->
  acquire l now =
    ({| max_requests := max_requests l; period := period l; _timestamps := [now] |}, Ok tt).
Proof.
  intros Hpos Hold. unfold acquire. rewrite (expire_all _ _ Hold).
  destruct (_ <=? _) eqn:Hfull; [|done].
  apply Z.leb_le in Hfull. simpl in Hfull. lia.
Qed.

End WindowCapacity.

(** * The theorems on the sample inputs *)

Section Examples.
#[local] Existing Instance example_lib.
Import DiffEngine.

(** The digest on the test vectors of the standard: the empty message, a
    message of one block and a message of two. *)
Example sha256_known_answers :
  Sha256.hexdigest ""
  = "e3b0c44298fc1c149afbf4c8996fb92427ae41e4649b934ca495991b7852b855"%string /\
  Sha256.hexdigest "abc"
  = "ba7816bf8f01cfea414140de5dae2223b00361a396177a9cb410ff61f20015ad"%string /\
  Sha256.hexdigest "abcdbcdecdefdefgefghfghighijhijkijkljklmklmnlmnomnopnopq"
  = "248d6a61d20638b8e5c026930c3e6039a33ce45964ff2167f6ecedd419db06c1"%string.
Proof. repeat split; vm_compute; reflexivity. Qed.

Example md5_known_answers :
  Md5.hexdigest "" = "d41d8cd98f00b204e9800998ecf8427e"%string /\
  Md5.hexdigest "abc" = "900150983cd24fb0d6963f7d28e17f72"%string /\
  Md5.hexdigest
    "12345678901234567890123456789012345678901234567890123456789012345678901234567890"
  = "57edf4a22be3c955ac49da2e2107b67a"%string.
Proof. repeat split; vm_compute; reflexivity. Qed.

Lemma rollback_diff_missing_backup_witness :
  files world_a !! "a.py"%string = Some "x = 1"%string /\
  original_content diff_backup_gone = Some "x = 0"%string /\
  rollback_diff world_a diff_backup_gone
  = (world_a, set_applied diff_backup_gone false (applied_at diff_backup_gone), true).
Proof.
  split; [reflexivity|]. split; [reflexivity|].
  apply (rollback_diff_missing_backup_reports_success world_a diff_backup_gone
           "/srv/ws/.project_core_backups/a.py.0.376101.bak");
    [reflexivity | discriminate | reflexivity | discriminate | reflexivity].
Defined.


Lemma execute_plan_cannot_read_batch_result_witness :
  Executor.diffs (Executor.collect empty_world (plan_runs llm_answers plan_hello) false) <> [] /\
  snd (Executor.execute_plan ws llm_answers empty_world plan_hello false)
  = Raise (Executor.TypeError "'ApplyResult' object is not subscriptable") /\
  files (fst (Executor.execute_plan ws llm_answers empty_world plan_hello false))
    !! "hello.py"%string = Some "print('hello')"%string.
Proof.
  assert (Executor.diffs (Executor.collect empty_world (plan_runs llm_answers plan_hello) false)
          <> []) as Hdiffs by (vm_compute; discriminate).
  pose proof (execute_plan_cannot_read_batch_result ws llm_answers empty_world plan_hello Hdiffs)
    as Hraise.
  split; [exact Hdiffs|]. rewrite Hraise. split; [reflexivity|].
  vm_compute. reflexivity.
Defined.

Lemma rolled_back_status_without_restoring_witness :
  CoreEngine.status (snd (fst (CoreEngine.process_intent ws cycle_without_steps world_tested
                                 action_on_record))) = Database.ROLLED_BACK /\
  files (fst (fst (CoreEngine.process_intent ws cycle_without_steps world_tested
                     action_on_record))) !! "a.py"%string = Some "x = 2"%string.
Proof.
  assert (CoreEngine.status (snd (fst (CoreEngine.process_intent ws cycle_without_steps
            world_tested action_on_record))) = Database.ROLLED_BACK) as Hstatus
    by (vm_compute; reflexivity).
  split; [exact Hstatus|].
  destruct (rolled_back_status_without_restoring ws cycle_without_steps world_tested
              action_on_record Hstatus) as [-> _].
  reflexivity.
Defined.

Lemma restored_bytes_need_not_match_stored_checksum :
  original_content diff_modify_crlf = Some ("x = 1" +:+ newline) /\
  snd (apply_diff ws world_crlf diff_modify_crlf false) = Ok true /\
  files (fst (fst (rollback_diff
           (fst (fst (apply_diff ws world_crlf diff_modify_crlf false)))
           (snd (fst (apply_diff ws world_crlf diff_modify_crlf false))))))
    !! "a.py"%string = Some ("x = 1" +:+ String carriage_return newline) /\
  checksum_before diff_modify_crlf = Some (sha256_hexdigest ("x = 1" +:+ newline)) /\
  checksum_before diff_modify_crlf
  <> Some (sha256_hexdigest ("x = 1" +:+ String carriage_return newline)) /\
  integrity_warnings world_crlf diff_modify_crlf = [W_integrity "a.py"] /\
  files (fst (fst (rollback_diff
           (fst (fst (apply_diff ws world_empty_a diff_modify_empty_a false)))
           (snd (fst (apply_diff ws world_empty_a diff_modify_empty_a false))))))
    !! "a.py"%string = Some ""%string /\
  checksum_before diff_modify_empty_a = None /\
  checksum_before diff_modify_empty_a <> Some (sha256_hexdigest ""%string).
Proof.
  split; [reflexivity|]. split; [vm_compute; reflexivity|].
  split; [vm_compute; reflexivity|]. split; [reflexivity|].
  split; [vm_compute; discriminate|]. split; [vm_compute; reflexivity|].
  split; [vm_compute; reflexivity|]. split; [reflexivity|discriminate].
Qed.

Lemma apply_then_rollback_restores_witness :
  apply_diff ws world_a diff_modify_a false
  = (fst (fst (apply_diff ws world_a diff_modify_a false)),
     snd (fst (apply_diff ws world_a diff_modify_a false)), Ok true) /\
  files (fst (fst (apply_diff ws world_a diff_modify_a false))) !! "a.py"%string
  = Some "x = 2"%string /\
  files (fst (fst (rollback_diff
           (fst (fst (apply_diff ws world_a diff_modify_a false)))
           (snd (fst (apply_diff ws world_a diff_modify_a false))))))
    !! "a.py"%string = Some "x = 1"%string /\
  checksum_before diff_modify_a
  = Some "8ff436def1451285599a1b1ad70800493b8dcafde2912e1a38345633054e4c26"%string /\
  checksum_after diff_modify_a <> checksum_before diff_modify_a.
Proof.
  assert (apply_diff ws world_a diff_modify_a false
          = (fst (fst (apply_diff ws world_a diff_modify_a false)),
             snd (fst (apply_diff ws world_a diff_modify_a false)), Ok true)) as Happ
    by (vm_compute; reflexivity).
  split; [exact Happ|]. split; [vm_compute; reflexivity|].
  destruct (apply_then_rollback_restores ws world_a diff_modify_a _ _ Happ)
    as (w2 & d2 & -> & _ & Hfiles & _ & Hmodify).
  destruct (Hmodify eq_refl) as (old & Hold & Hrestored & _ & Hsum & Hsame).
  assert (old = "x = 1"%string) as -> by (vm_compute in Hold; congruence).
  split; [exact Hrestored|].
  assert (checksum_before diff_modify_a = Some (sha256_hexdigest "x = 1"%string)) as Hbefore
    by (apply (Hsum (Some "x = 2"%string) None);
        [ reflexivity
        | left; split; [reflexivity | apply Hsame; reflexivity]
        | discriminate ]).
  rewrite Hbefore. split; [vm_compute; reflexivity|].
  vm_compute. discriminate.
Defined.

Lemma failed_generation_is_not_a_failed_step :
  exists res,
    snd (Executor.execute_plan ws llm_down empty_world plan_hello true) = Ok res /\
    Executor.success res = true /\
    Executor.res_errors res = [] /\
    Executor.files_created res = ["hello.py"%string] /\
    map new_content (Executor.diffs res)
    = [Some (Executor._stub "hello.py" "python" "say hello")].
Proof. eexists. split; [vm_compute; reflexivity|]. repeat split. Qed.

Lemma failed_generation_falls_back_witness :
  Executor.step_file_path step_hello = Some "hello.py"%string /\
  Executor._execute_step empty_world step_hello (Executor.GenRaises "Rate limit reached")
  = Executor.StepOk
      (create_diff empty_world "hello.py"
         (Some (Executor._stub "hello.py" "python" "say hello")) CREATE None)
      "hello.py" "create".
Proof.
  split; [reflexivity|].
  destruct (failed_generation_falls_back empty_world step_hello "hello.py"
              "Rate limit reached" eq_refl) as [Hcreate _]; [discriminate|].
  exact (Hcreate eq_refl).
Defined.


Lemma no_framework_and_clean_files_pass_witness :
  Verifier._has_pytest world_app = false /\
  Verifier._has_npm_test tools_quiet world_app = false /\
  Verifier.passed (Verifier.verify_execution tools_quiet world_app ["app.py"] ["ui/main.ts"])
  = true /\
  Verifier.rep_tests_run
    (Verifier.verify_execution tools_quiet world_app ["app.py"] ["ui/main.ts"]) = 0.
Proof.
  split; [vm_compute; reflexivity|]. split; [reflexivity|].
  destruct (no_framework_and_clean_files_pass tools_quiet world_app
              ["app.py"%string] ["ui/main.ts"%string]) as (Hpassed & Hrun & _).
  - vm_compute. reflexivity.
  - reflexivity.
  - intros fp Hin. unfold Verifier._check_file_syntax.
    destruct (files world_app !! fp); [|reflexivity].
    repeat match goal with |- context [if ?b then _ else _] => destruct b end; reflexivity.
  - intros fs res [= <-]. split; reflexivity.
  - intros fs res [= <-]. split; reflexivity.
  - split; [exact Hpassed | exact Hrun].
Defined.

Lemma acquire_rejects_exactly_when_window_full_witness :
  Sorted Z.le ([0; 1000000] ++ [2000000]) /\
  snd (RateLimiter.acquire
         (RateLimiter.after_calls (RateLimiter.Limiter_new 2 60) [0; 1000000]) 2000000)
  = Raise (RateLimiter.RateLimitError 2 60 58000000) /\
  RateLimiter._timestamps
    (fst (RateLimiter.acquire
            (RateLimiter.after_calls (RateLimiter.Limiter_new 2 60) [0; 1000000]) 2000000))
  = [0; 1000000] /\
  snd (RateLimiter.acquire
         (RateLimiter.after_calls (RateLimiter.Limiter_new 2 60) [0; 1000000]) 61000000)
  = Ok tt.
Proof.
  assert (Sorted Z.le ([0; 1000000] ++ [2000000])) as Hsorted
    by (repeat constructor; lia).
  split; [exact Hsorted|].
  destruct (acquire_rejects_exactly_when_window_full 2 60 [0; 1000000] 2000000 Hsorted)
    as ([_ Hfull] & Hkind & _ & Hnothing).
  destruct Hfull as [exc Hexc]; [vm_compute; discriminate|].
  destruct (Hkind eq_refl exc Hexc) as (wait & -> & _).
  split; [|split; [rewrite (Hnothing _ Hexc); reflexivity | reflexivity]].
  rewrite Hexc. vm_compute in Hexc. congruence.
Defined.


Lemma length_append (a b : string) :
  String.length (a +:+ b) = (String.length a + String.length b)%nat.
Proof. induction a as [|c a IH]; simpl; [done|]. by rewrite IH. Qed.

Lemma doubled_length (k : nat) (s : string) :
  byte_len (doubled k s) = byte_len s * 2 ^ Z.of_nat k.
Proof.
  unfold byte_len. induction k as [|k IH].
  - simpl. lia.
  - change (doubled (S k) s) with (doubled k s +:+ doubled k s).
    rewrite length_append, Nat2Z.inj_add, IH, Nat2Z.inj_succ, Z.pow_succ_r by lia. lia.
Qed.

Lemma validate_diff_rules_witness :
  validate_diff world_a diff_create_a = (false, [W_create_exists "a.py"]) /\
  validate_diff empty_world diff_bad = (false, [W_not_found MODIFY "nonexistent.py"]) /\
  fst (validate_diff world_a diff_oversized) = false /\
  fst (validate_diff world_a diff_stale_large) = true /\
  W_integrity "a.py" ∈ snd (validate_diff world_a diff_stale_large) /\
  W_large_change 501 "a.py" ∈ snd (validate_diff world_a diff_stale_large).
Proof.
  split; [|split; [|split]].
  - by apply (validate_diff_rules world_a diff_create_a).
  - by apply (validate_diff_rules empty_world diff_bad).
  - apply (validate_diff_rules world_a diff_oversized).
    change (or_empty (new_content diff_oversized)) with (doubled 23 "x").
    rewrite doubled_length. reflexivity.
  - destruct (validate_diff_rules world_a diff_stale_large) as (_ & _ & _ & Hok & _).
    destruct Hok as (Hvalid & Hintegrity & Hlarge); [reflexivity|discriminate|].
    split; [exact Hvalid|]. split.
    + apply Hintegrity. split; [reflexivity|].
      exists "x = 1"%string, (Sha256.hexdigest "x = 0").
      split; [reflexivity|]. split; [reflexivity|]. split; vm_compute; discriminate.
    + apply Hlarge. reflexivity.
Defined.

Lemma create_diff_checksums_witness :
  checksum_before diff_modify_empty_a = None /\
  checksum_after diff_modify_empty_a = Some (sha256_hexdigest "x = 2"%string) /\
  checksum_before diff_modify_a = Some (sha256_hexdigest "x = 1"%string) /\
  checksum_after (create_diff world_a "a.py" (Some ""%string) MODIFY None) = None /\
  validate_diff world_a diff_modify_empty_a = (true, []).
Proof.
  destruct (create_diff_checksums_only_for_nonempty_content world_empty_a "a.py"
              (Some "x = 2"%string) MODIFY None) as (Hb & _ & _ & Ha & _ & _ & Hskip).
  destruct (create_diff_checksums_only_for_nonempty_content world_a "a.py"
              (Some "x = 2"%string) MODIFY None) as (_ & _ & Hb' & _).
  destruct (create_diff_checksums_only_for_nonempty_content world_a "a.py"
              (Some ""%string) MODIFY None) as (_ & Ha' & _).
  split; [apply Hb; by right|].
  split; [by apply Ha|].
  split; [by apply Hb'|].
  split; [apply Ha'; by right|].
  destruct (Hskip world_a world_empty_a diff_modify_empty_a (Hb (or_intror eq_refl)))
    as [_ ->]; reflexivity.
Defined.

Lemma apply_diff_effect_witness :
  apply_diff ws world_a diff_modify_a false
  = (fst (fst (apply_diff ws world_a diff_modify_a false)),
     snd (fst (apply_diff ws world_a diff_modify_a false)), Ok true) /\
  files (fst (fst (apply_diff ws world_a diff_modify_a false))) !! "a.py"%string
  = Some "x = 2"%string /\
  exists bp,
    backup_path (snd (fst (apply_diff ws world_a diff_modify_a false))) = Some bp /\
    backups (fst (fst (apply_diff ws world_a diff_modify_a false))) !! bp
    = Some "x = 1"%string.
Proof.
  assert (apply_diff ws world_a diff_modify_a false
          = (fst (fst (apply_diff ws world_a diff_modify_a false)),
             snd (fst (apply_diff ws world_a diff_modify_a false)), Ok true)) as Happ
    by (vm_compute; reflexivity).
  split; [exact Happ|].
  destruct (apply_diff_effect ws world_a diff_modify_a _ _ _ Happ)
    as (_ & Hfile & _ & _ & _ & _ & _ & Hbackup).
  split; [exact Hfile|].
  destruct Hbackup as (bp & old & Hbp & Hold & Hkept & _); [discriminate|].
  exists bp. split; [exact Hbp|]. rewrite Hkept. vm_compute in Hold. symmetry. exact Hold.
Defined.

Lemma apply_diffs_all_applied_witness :
  apply_each ws false empty_world [diff_good; diff_other]
  = Some (fst (apply_diffs ws empty_world [diff_good; diff_other] false true)) /\
  snd (apply_diffs ws empty_world [diff_good; diff_other] false true)
  = {| total := 2; ar_applied := 2; failed := 0; skipped := 0; errors := [] |}.
Proof.
  assert (apply_each ws false empty_world [diff_good; diff_other]
          = Some (fst (fst (apply_diffs ws empty_world [diff_good; diff_other] false true)),
                  snd (fst (apply_diffs ws empty_world [diff_good; diff_other] false true))))
    as Heach by (vm_compute; reflexivity).
  destruct (apply_diffs_all_applied ws empty_world [diff_good; diff_other] false true _ _ Heach)
    as [Hres _].
  rewrite Hres. split; [exact Heach | reflexivity].
Defined.

Lemma apply_diffs_touches_only_its_files_witness :
  Forall (fun d => file_path d <> "a.py"%string) [diff_good; diff_bad] /\
  files (fst (fst (apply_diffs ws world_a [diff_good; diff_bad] false true))) !! "a.py"%string
  = Some "x = 1"%string.
Proof.
  assert (Forall (fun d => file_path d <> "a.py"%string) [diff_good; diff_bad]) as Hother
    by (repeat constructor; discriminate).
  split; [exact Hother|].
  rewrite (apply_diffs_touches_only_its_files ws world_a [diff_good; diff_bad] false true
             "a.py" Hother).
  reflexivity.
Defined.

Lemma apply_diffs_dry_run_witness :
  Forall (fun d => applied d = false) [diff_good; diff_bad] /\
  fst (apply_diffs ws empty_world [diff_good; diff_bad] true true)
  = (empty_world, [diff_good; diff_bad]).
Proof.
  assert (Forall (fun d => applied d = false) [diff_good; diff_bad]) as Hfresh
    by (repeat constructor).
  split; [exact Hfresh|].
  apply (apply_diffs_dry_run_writes_nothing ws empty_world [diff_good; diff_bad] true).
  right. exact Hfresh.
Defined.


Lemma generate_modification_witness :
  50 < py_len (doubled 6 "x") /\
  Executor._generate_modification (doubled 6 "x") "tidy" (Executor.GenCode "pass")
  = Executor.with_todo (doubled 6 "x") "tidy" /\
  20 <= py_len (Executor._generate_modification (doubled 6 "x") "tidy" (Executor.GenCode "pass")).
Proof.
  assert (50 < py_len (doubled 6 "x")) as Hlong by (vm_compute; reflexivity).
  split; [exact Hlong|]. split; [vm_compute; reflexivity|].
  apply (generate_modification_keeps_long_originals (doubled 6 "x") "tidy"
           (Executor.GenCode "pass") Hlong).
Defined.


(** On a file system that refuses to touch the file, the rollback that has
    to write it reports [False] and leaves the file and the diff as they are;
    the rollback that finds its backup gone writes nothing and reports
    [True]. *)
Example rollback_diff_reports_refusal :
  rollback_diff world_a_locked (set_backup_path diff_backup_gone None)
  = (world_a_locked, set_backup_path diff_backup_gone None, false) /\
  rollback_diff world_a_locked diff_backup_gone
  = (world_a_locked, unapplied diff_backup_gone, true).
Proof. split; vm_compute; reflexivity. Qed.

Lemma approval_gate_witness :
  CoreEngine.status (snd (fst (CoreEngine.process_intent ws cycle_risky empty_world
                                 action_on_record))) = Database.PENDING /\
  files (fst (fst (CoreEngine.process_intent ws cycle_risky empty_world action_on_record)))
    !! "hello.py"%string = None.
Proof.
  pose proof (approval_gate_stops_before_execution ws cycle_risky empty_world
                action_on_record plan_risky eq_refl (or_introl eq_refl)) as Hgate.
  destruct (CoreEngine.process_intent ws cycle_risky empty_world action_on_record)
    as [[w' a'] r].
  destruct Hgate as (Hfiles & _ & Hstatus & _); [discriminate|].
  simpl. split; [exact Hstatus|]. rewrite Hfiles. reflexivity.
Defined.

Lemma verify_execution_fails_witness :
  Verifier._has_pytest world_tested = true /\
  Verifier.passed (Verifier.verify_execution tools_two_of_five_fail world_tested [] ["a.py"])
  = false.
Proof.
  assert (Verifier._has_pytest world_tested = true) as Hpytest by (vm_compute; reflexivity).
  split; [exact Hpytest|].
  destruct (verify_execution_fails_on_any_defect tools_two_of_five_fail world_tested
              [] ["a.py"%string]) as (Hfail & _).
  apply Hfail; [exact Hpytest | reflexivity].
Defined.

Lemma retry_advice_witness :
  Sorted Z.le ([0; 1000000] ++ [2000000]) /\
  snd (RateLimiter.acquire
         (RateLimiter.after_calls (RateLimiter.Limiter_new 2 60) [0; 1000000]) 2000000)
  = Raise (RateLimiter.RateLimitError 2 60 58000000) /\
  0 < 58000000 <= 60 * 1000000.
Proof.
  assert (Sorted Z.le ([0; 1000000] ++ [2000000])) as Hsorted
    by (repeat constructor; lia).
  assert (snd (RateLimiter.acquire
            (RateLimiter.after_calls (RateLimiter.Limiter_new 2 60) [0; 1000000]) 2000000)
          = Raise (RateLimiter.RateLimitError 2 60 58000000)) as Hraise
    by (vm_compute; reflexivity).
  split; [exact Hsorted|]. split; [exact Hraise|].
  apply (retry_advice_is_within_the_period 2 60 [0; 1000000] 2000000 2 60 58000000
           Hsorted Hraise).
Defined.

Lemma full_period_frees_witness :
  RateLimiter.acquire limiter_two_calls 61000000
  = ({| RateLimiter.max_requests := 2; RateLimiter.period := 60;
        RateLimiter._timestamps := [61000000] |}, Ok tt).
Proof.
  apply (full_period_frees_the_limiter limiter_two_calls 61000000); [reflexivity|].
  repeat constructor; simpl; lia.
Defined.

End Examples.
